(** * telegram_forward_bot: the relay pipeline and the admin dispatcher

    A shallow embedding of [src/message_processor.py], [src/config.py],
    [src/admin.py] and [src/main.py], followed by the properties of the
    specification that concern them.

    Python [str] values are sequences of Unicode code points, so a string is a
    [list N]; [None] is the [None] of [option].  Regular expressions are run
    by a small backtracking matcher with the priorities of Python's [re]
    (leftmost match, ordered alternatives, greedy repetition). *)

From Stdlib Require Import Ascii String DecimalString NArith ZArith Bool Lia List.
Import ListNotations.

Set Implicit Arguments.

(* ================================================================== *)
(** ** Python strings *)

Module PyStr.

Definition char := N.
Definition pystr := list char.

(** An ASCII literal of the source as a code-point sequence. *)
Definition str (s : string) : pystr := map N_of_ascii (list_ascii_of_string s).

Definition between (lo hi c : N) : bool := ((lo <=? c) && (c <=? hi))%N.

(** [str.isspace] on one code point; the set used by [\s] in a [str] pattern
    and by [str.strip()] without argument. *)
Definition is_space (c : char) : bool :=
  between 9 13 c || between 28 32 c || (c =? 133)%N || (c =? 160)%N
  || (c =? 5760)%N || between 8192 8202 c || (c =? 8232)%N || (c =? 8233)%N
  || (c =? 8239)%N || (c =? 8287)%N || (c =? 12288)%N.

Definition is_upper_ascii (c : char) : bool := between 65 90 c.
Definition is_lower_ascii (c : char) : bool := between 97 122 c.
Definition is_digit (c : char) : bool := between 48 57 c.

(** Lower-casing of one code point, exact on every character whose lower
    case is ASCII (the capitals and U+212A); other characters are left as
    they are.  It serves [str.lower()] on the command word, whose result is
    compared with the ASCII keys of the command table: [lower s] is
    [s.lower()] for every [s] of ASCII characters, and it is equal to a key
    of the table exactly when [s.lower()] is.  For a word with other cased
    characters [s.lower()] lower-cases them too; what is stated about the
    lower-cased word itself is stated for ASCII words. *)
Definition lower_char (c : char) : char :=
  if is_upper_ascii c then (c + 32)%N
  else if (c =? 8490)%N then 107%N else c.

Definition lower (s : pystr) : pystr := map lower_char s.

Fixpoint dropwhile (p : char -> bool) (s : pystr) : pystr :=
  match s with
  | [] => []
  | c :: s' => if p c then dropwhile p s' else s
  end.

Definition lstrip (s : pystr) : pystr := dropwhile is_space s.
Definition rstrip (s : pystr) : pystr := rev (dropwhile is_space (rev s)).

(** [s.strip()] *)
Definition strip (s : pystr) : pystr := rstrip (lstrip s).

(** [s.split(' ', 1)]: the text before the first U+0020 and, when there is
    one, the text after it. *)
Fixpoint split_space1 (s : pystr) : pystr * option pystr :=
  match s with
  | [] => ([], None)
  | c :: s' =>
      if (c =? 32)%N then ([], Some s')
      else let (h, t) := split_space1 s' in (c :: h, t)
  end.

(** [s[:n]] for an [int] [n]: a negative [n] counts from the end. *)
Definition slice_to (n : Z) (s : pystr) : pystr :=
  if (0 <=? n)%Z then firstn (Z.to_nat n) s
  else firstn (length s - Z.to_nat (- n)) s.

(** [s[-n:]] for a positive literal [n]: the last [n] elements. *)
Definition last_n (A : Type) (n : nat) (l : list A) : list A :=
  skipn (length l - n) l.

(** [str(n)] for an [int]. *)
Definition str_of_int (n : Z) : pystr := str (NilZero.string_of_int (Z.to_int n)).

Definition len (s : pystr) : Z := Z.of_nat (length s).

End PyStr.

(* ================================================================== *)
(** ** The regular expressions of the program *)

Module Re.
Import PyStr.

(** The constructs the patterns of [message_processor.py] use.  Every
    repetition in them ranges over a single character class. *)
Inductive regex : Type :=
| Eps
| Cls (p : char -> bool)
| Seq (a b : regex)
| Alt (a b : regex)
| Opt (a : regex)
| Rep (p : char -> bool) (n : nat).

(** [[p]{n,}], greedy: the longest run first, giving back one character at a
    time while at least [n] were taken. *)
Fixpoint rep (p : char -> bool) (n : nat) (s : pystr)
         (k : pystr -> option pystr) : option pystr :=
  match s with
  | [] => match n with O => k [] | S _ => None end
  | c :: s' =>
      if p c then
        match rep p (pred n) s' k with
        | Some r => Some r
        | None => match n with O => k s | S _ => None end
        end
      else match n with O => k s | S _ => None end
  end.

(** Backtracking match of [r] at the head of [s]; [k] is the rest of the
    pattern and receives the unconsumed text. *)
Fixpoint rmatch (r : regex) (s : pystr) (k : pystr -> option pystr)
  : option pystr :=
  match r with
  | Eps => k s
  | Cls p => match s with
             | c :: s' => if p c then k s' else None
             | [] => None
             end
  | Seq a b => rmatch a s (fun s' => rmatch b s' k)
  | Alt a b => match rmatch a s k with
               | Some x => Some x
               | None => rmatch b s k
               end
  | Opt a => match rmatch a s k with
             | Some x => Some x
             | None => k s
             end
  | Rep p n => rep p n s k
  end.

(** Length of the match of [r] at the head of [s], if there is one. *)
Definition match_at (r : regex) (s : pystr) : option nat :=
  match rmatch r s (fun rest => Some rest) with
  | Some rest => Some (length s - length rest)
  | None => None
  end.

(** [pattern.sub(repl, s)]: scan left to right, replace each match by [repl]
    of the matched text and resume after it.  [skip] counts the characters of
    the current match still to be dropped.  None of the patterns below
    matches the empty string (see [match_at_min_len]), so a match always
    has the shape [S n]. *)
Fixpoint sub_from (r : regex) (repl : pystr -> pystr) (skip : nat) (s : pystr)
  : pystr :=
  match s with
  | [] => []
  | c :: s' =>
      match skip with
      | S n => sub_from r repl n s'
      | O =>
          match match_at r s with
          | Some (S n) => repl (firstn (S n) s) ++ sub_from r repl n s'
          | _ => c :: sub_from r repl O s'
          end
      end
  end.

Definition sub (r : regex) (repl : pystr -> pystr) (s : pystr) : pystr :=
  sub_from r repl 0 s.

(** Replacement by a fixed text. *)
Definition const (t : pystr) : pystr -> pystr := fun _ => t.

(** Shortest text a pattern can match. *)
Fixpoint min_len (r : regex) : nat :=
  match r with
  | Eps => 0
  | Cls _ => 1
  | Seq a b => min_len a + min_len b
  | Alt a b => Nat.min (min_len a) (min_len b)
  | Opt _ => 0
  | Rep _ n => n
  end.

(** *** Character classes *)

Definition chr (c : char) : char -> bool := fun x => (x =? c)%N.

(** A lower-case ASCII letter [l] of a pattern compiled with [re.IGNORECASE]:
    it matches the characters whose lower case is [l] (the letter, its
    capital, U+0130 for [i] and U+212A for [k]) and the case-folding
    equivalents U+0131 of [i] and U+017F of [s]. *)
Definition ci_letter (l : char) : char -> bool :=
  fun x =>
    (x =? l)%N || (x =? l - 32)%N
    || ((l =? 105)%N && ((x =? 304)%N || (x =? 305)%N))
    || ((l =? 107)%N && (x =? 8490)%N)
    || ((l =? 115)%N && (x =? 383)%N).

(** One literal character of an [IGNORECASE] pattern. *)
Definition ci (l : char) : char -> bool :=
  if is_lower_ascii l then ci_letter l else chr l.

(** [[a-zA-Z]] under [IGNORECASE]: the 52 ASCII letters and U+0130, U+0131,
    U+017F, U+212A. *)
Definition ci_alpha (x : char) : bool :=
  is_lower_ascii x || is_upper_ascii x
  || (x =? 304)%N || (x =? 305)%N || (x =? 383)%N || (x =? 8490)%N.

(** [[a-zA-Z0-9-]] *)
Definition ci_label (x : char) : bool := ci_alpha x || is_digit x || (x =? 45)%N.
(** [[a-zA-Z0-9_]] *)
Definition ci_word (x : char) : bool := ci_alpha x || is_digit x || (x =? 95)%N.
(** [[^\s]] *)
Definition non_space (x : char) : bool := negb (is_space x).

(** A literal word of an [IGNORECASE] pattern. *)
Fixpoint lit_chars (l : pystr) : regex :=
  match l with
  | [] => Eps
  | c :: l' => Seq (Cls (ci c)) (lit_chars l')
  end.
Definition lit (s : string) : regex := lit_chars (str s).

Fixpoint seq (rs : list regex) : regex :=
  match rs with
  | [] => Eps
  | [r] => r
  | r :: rs' => Seq r (seq rs')
  end.

End Re.

(* ================================================================== *)
(** ** message_processor.py *)

Module MessageProcessor.
Import PyStr Re.

(** The message attributes the program reads.  [from_id] is a peer, and only
    a user peer has a [user_id]; [sender] is absent or carries the [bot]
    flag, which is itself absent ([None]) on senders that are not users. *)
Inductive Peer : Type :=
| PeerUser (user_id : Z)
| PeerChat (chat_id : Z)
| PeerChannel (channel_id : Z).

Record Sender : Type := { bot : option bool }.

Record Media : Type := { media_id : N }.

Record Message : Type := {
  text : option pystr;
  media : option Media;
  from_id : option Peer;
  sender : option Sender
}.

(** The state of a [MessageProcessor]: the reference text given to
    [__init__].  The compiled patterns are constants. *)
Record t : Type := { reference_text : pystr }.

Definition __init__ (reference_text : pystr) : t :=
  {| reference_text := reference_text |}.

(** [https?://[^\s]+], [www\.[^\s]+],
    [[a-zA-Z0-9-]+\.[a-zA-Z]{2,}[^\s]*] *)
Definition url_patterns : list regex :=
  [ seq [lit "http"; Opt (lit "s"); lit "://"; Rep non_space 1];
    seq [lit "www."; Rep non_space 1];
    seq [Rep ci_label 1; lit "."; Rep ci_alpha 2; Rep non_space 0] ].

(** [(?:https?://)?(?:t\.me|telegram\.me)/[^\s]+], [@[a-zA-Z0-9_]+],
    [tg://[^\s]+] *)
Definition telegram_patterns : list regex :=
  [ seq [Opt (seq [lit "http"; Opt (lit "s"); lit "://"]);
         Alt (lit "t.me") (lit "telegram.me"); lit "/"; Rep non_space 1];
    seq [lit "@"; Rep ci_word 1];
    seq [lit "tg://"; Rep non_space 1] ].

(** [(?:join|channel|group)[\s]*:[\s]*@?[a-zA-Z0-9_]+],
    [(?:telegram|tg)[\s]*(?:channel|group|chat)[\s]*:?[\s]*@?[a-zA-Z0-9_]+] *)
Definition channel_patterns : list regex :=
  [ seq [Alt (lit "join") (Alt (lit "channel") (lit "group"));
         Rep is_space 0; lit ":"; Rep is_space 0; Opt (lit "@"); Rep ci_word 1];
    seq [Alt (lit "telegram") (lit "tg"); Rep is_space 0;
         Alt (lit "channel") (Alt (lit "group") (lit "chat"));
         Rep is_space 0; Opt (lit ":"); Rep is_space 0; Opt (lit "@");
         Rep ci_word 1] ].

(** [\s+] and [\n\s*\n] *)
Definition whitespace_run : regex := Rep is_space 1.
Definition blank_lines : regex := seq [Cls (chr 10%N); Rep is_space 0; Cls (chr 10%N)].

(** One [for pattern in ...: text = pattern.sub('', text)] loop. *)
Definition remove_patterns (ps : list regex) (s : pystr) : pystr :=
  fold_left (fun acc p => sub p (const []) acc) ps s.

(** The three removal loops of [remove_all_links], in source order. *)
Definition remove_links (s : pystr) : pystr :=
  remove_patterns channel_patterns
    (remove_patterns telegram_patterns (remove_patterns url_patterns s)).

(** The whitespace clean-up that ends [remove_all_links]. *)
Definition clean_whitespace (s : pystr) : pystr :=
  strip (sub blank_lines (const [10%N]) (sub whitespace_run (const [32%N]) s)).

(** [remove_all_links] on a [str]. *)
Definition remove_all_links_str (s : pystr) : pystr :=
  match s with
  | [] => s
  | _ => clean_whitespace (remove_links s)
  end.

(** [remove_all_links] on any argument it guards against: [if not text:
    return text] hands [None] and the empty string back as they are. *)
Definition remove_all_links (text : option pystr) : option pystr :=
  match text with
  | None => None
  | Some s => Some (remove_all_links_str s)
  end.

Definition add_custom_reference (self : t) (s : pystr) : pystr :=
  match s with
  | [] => reference_text self
  | _ => s ++ str (String "010" (String "010" EmptyString)) ++ reference_text self
  end.

(** Truthiness of [message.text] and of [message.media]. *)
Definition has_text (m : Message) : bool :=
  match text m with
  | None | Some [] => false
  | Some _ => true
  end.

Definition has_media (m : Message) : bool :=
  match media m with None => false | Some _ => true end.

(** [message.text] when it is truthy, the empty string otherwise. *)
Definition text_or_empty (m : Message) : pystr :=
  match text m with
  | None => []
  | Some s => s
  end.

(** The last test of [should_forward_message]: a sender that is present,
    has a [bot] attribute and has it true. *)
Definition sender_is_bot (m : Message) : bool :=
  match sender m with
  | Some s => match bot s with Some b => b | None => false end
  | None => false
  end.

Definition emoji (x : char) : bool :=
  between 128512 128591 x || between 127744 128511 x
  || between 128640 128767 x || between 127456 127487 x.

Definition should_forward_message (m : Message) (min_length : Z)
  : bool * pystr :=
  if negb (has_text m) && negb (has_media m) then
    (false, str "Empty message")
  else if has_text m && (len (strip (text_or_empty m)) <? min_length)%Z then
    (false, str "Message too short (< " ++ str_of_int min_length
            ++ str " characters)")
  else
    let text_without_links := remove_all_links_str (text_or_empty m) in
    if has_text m && (len (strip text_without_links) <? 5)%Z then
      (false, str "Message contains only links")
    else if sender_is_bot m then
      (false, str "Message from bot")
    else
      (true, str "Message approved for forwarding").

(** The replacement [\1\1\1] of [([...]){4,}]: group 1 holds the last
    repetition. *)
Definition last3 (m : pystr) : pystr :=
  match rev m with
  | [] => []
  | c :: _ => [c; c; c]
  end.

Definition clean_text_formatting (s : pystr) : pystr :=
  match s with
  | [] => s
  | _ =>
      let s := sub (Rep emoji 4) last3 s in
      let s := sub (Rep (chr 33%N) 4) (const (str "!!!")) s in
      let s := sub (Rep (chr 63%N) 4) (const (str "???")) s in
      let s := sub (Rep (chr 46%N) 4) (const (str "...")) s in
      let s := sub (Rep is_upper_ascii 4) (firstn 3) s in
      let s := sub whitespace_run (const [32%N]) s in
      strip s
  end.

End MessageProcessor.

(* ================================================================== *)
(** ** config.py *)

Module Config.
Import PyStr.

(** The settings the relay and the dispatcher read. *)
Record BotConfig : Type := {
  session_name : pystr;
  source_group_id : Z;
  destination_group_id : Z;
  channel_link : pystr;
  reference_text : pystr;
  admin_user_id : Z;
  min_message_length : Z;
  max_message_length : Z;
  forward_media : bool;
  log_level : pystr
}.

(** The value of [REFERENCE_TEXT] when the environment does not set it, with
    the code points the literal has in [config.py]. *)
Definition default_reference_text : pystr :=
  [240; 376; 8220; 162]%N ++ str " Forwarded by Bot".

(** [BotConfig.__init__] on an environment that sets only the required
    identifiers. *)
Definition default_config (source destination admin : Z) : BotConfig :=
  {| session_name := str "telegram_forward_bot";
     source_group_id := source;
     destination_group_id := destination;
     channel_link := str "https://t.me/your_channel";
     reference_text := default_reference_text;
     admin_user_id := admin;
     min_message_length := 10;
     max_message_length := 4000;
     forward_media := true;
     log_level := str "INFO" |}.

Definition update_reference_text (c : BotConfig) (new_reference : pystr)
  : BotConfig :=
  {| session_name := session_name c;
     source_group_id := source_group_id c;
     destination_group_id := destination_group_id c;
     channel_link := channel_link c;
     reference_text := new_reference;
     admin_user_id := admin_user_id c;
     min_message_length := min_message_length c;
     max_message_length := max_message_length c;
     forward_media := forward_media c;
     log_level := log_level c |}.

Definition update_channel_link (c : BotConfig) (new_link : pystr) : BotConfig :=
  {| session_name := session_name c;
     source_group_id := source_group_id c;
     destination_group_id := destination_group_id c;
     channel_link := new_link;
     reference_text := reference_text c;
     admin_user_id := admin_user_id c;
     min_message_length := min_message_length c;
     max_message_length := max_message_length c;
     forward_media := forward_media c;
     log_level := log_level c |}.

End Config.

(* ================================================================== *)
(** ** The running program: records shared by admin.py and main.py *)

Module Bot.
Import PyStr.

(** A point in time, in microseconds; [datetime.now()] is an input of every
    handler invocation. *)
Definition time := Z.

(** What [str(e)] gives for a raised exception. *)
Definition exn := pystr.

(** A call that returns or raises. *)
Inductive result (A : Type) : Type :=
| Ok (a : A)
| Raise (e : exn).
Arguments Ok {A} a.
Arguments Raise {A} e.

Definition bind {A B : Type} (r : result A) (f : A -> result B) : result B :=
  match r with
  | Ok a => f a
  | Raise e => Raise e
  end.

(** [BotStats] of admin.py. *)
Record BotStats : Type := {
  messages_forwarded : Z;
  messages_skipped : Z;
  errors_count : Z;
  start_time : time;
  last_message_time : option time;
  is_active : bool;
  uptime_seconds : Z
}.

(** [BotStats()]: every field at its default, [start_time] set by
    [__post_init__] to the current time. *)
Definition new_stats (now : time) : BotStats :=
  {| messages_forwarded := 0;
     messages_skipped := 0;
     errors_count := 0;
     start_time := now;
     last_message_time := None;
     is_active := false;
     uptime_seconds := 0 |}.

Record CommandLogEntry : Type := {
  cmd_timestamp : time;
  command : pystr;
  args : pystr;
  user_id : Z
}.

Record ErrorLogEntry : Type := {
  err_timestamp : time;
  err_type : pystr;
  err_message : pystr
}.

(** [AdminManager].  [bot_instance] is a reference to the bot that owns the
    manager, or [None]; the record keeps whether it is set, and the bot it
    designates is the enclosing [TelegramForwardBot]. *)
Record AdminManager : Type := {
  admin_user_id : Z;
  bot_instance_set : bool;
  stats : BotStats;
  command_history : list CommandLogEntry;
  error_log : list ErrorLogEntry
}.

(** [TelegramForwardBot] of main.py. *)
Record TelegramForwardBot : Type := {
  config : Config.BotConfig;
  message_processor : MessageProcessor.t;
  admin_manager : AdminManager;
  is_forwarding : bool
}.

(** The identity [client.get_me()] returns. *)
Record User : Type := { id : Z; username : pystr }.

(** The places of the relay where a call can raise. *)
Inductive Stage : Type := Sanitizing | Composing | Sending.

(** The transport and the run-time environment during one handler
    invocation: what [get_me] and [get_entity] answer, and the exception, if
    any, raised by the statements that sanitize the text, by the statements
    that compose the final text (both inside the [try] of
    [process_message_content]), or by [send_message].  No statement of the
    first two groups raises on the data alone; what can raise there comes
    from the run time, so it is an input here. *)
Record World : Type := {
  get_me : result User;
  get_entity : Z -> result pystr;
  raises : Stage -> option exn
}.

(** An incoming event. *)
Record Event : Type := {
  sender_id : Z;
  message : MessageProcessor.Message;
  is_private : bool
}.

(** A call of [client.send_message(destination, text, file=, buttons=)]. *)
Record SentMessage : Type := {
  to : Z;
  body : pystr;
  file : option MessageProcessor.Media;
  button_url : pystr
}.

(** One line of the report of [/test]. *)
Inductive TestLine : Type :=
| BotInstanceOk
| BotInstanceMissing
| ConnectionOk (username : pystr)
| ConnectionFailed (e : exn)
| SourceOk (title : pystr)
| SourceFailed (e : exn)
| DestinationOk (title : pystr)
| DestinationFailed (e : exn).

(** The texts handed to [event.reply], which is taken to deliver them.  A
    constructor stands for one message template of admin.py and carries the
    values interpolated into it. *)
Inductive Reply : Type :=
| Unauthorized                       (* "Unauthorized. Only admin can use bot commands." *)
| CommandError (e : exn)             (* "Error executing command: {e}" *)
| ForwardingStarted                  (* "Message forwarding started!" *)
| ForwardingStopped                  (* "Message forwarding stopped!" *)
| BotInstanceNotAvailable            (* "Bot instance not available" *)
| StatusReport (active : bool) (s : BotStats)
| DetailedStats (s : BotStats) (c : Config.BotConfig)
                (commands_executed recent_errors : nat)
| Help
| ConfigurationNotAvailable          (* "Configuration not available" *)
| ConfigReport (c : Config.BotConfig)
| NoRecentErrors                     (* "No recent errors found!" *)
| Logs (shown : list ErrorLogEntry) (total : nat)
| StatisticsReset                    (* "Statistics Reset" *)
| TestResults (lines : list TestLine)
| ReferenceUsage                     (* "Please provide new reference text." *)
| ReferenceUpdated (new_reference : pystr)
| ChannelUsage                       (* "Please provide new channel link." *)
| ChannelUpdated (new_link : pystr)
| BotConfigurationNotAvailable       (* "Bot configuration not available" *)
| UnknownCommand (command : pystr).

(** Field updates. *)
Definition set_stats (a : AdminManager) (s : BotStats) : AdminManager :=
  {| admin_user_id := admin_user_id a; bot_instance_set := bot_instance_set a;
     stats := s; command_history := command_history a;
     error_log := error_log a |}.

Definition set_command_history (a : AdminManager) (h : list CommandLogEntry)
  : AdminManager :=
  {| admin_user_id := admin_user_id a; bot_instance_set := bot_instance_set a;
     stats := stats a; command_history := h; error_log := error_log a |}.

Definition set_error_log (a : AdminManager) (l : list ErrorLogEntry)
  : AdminManager :=
  {| admin_user_id := admin_user_id a; bot_instance_set := bot_instance_set a;
     stats := stats a; command_history := command_history a; error_log := l |}.

Definition set_admin_manager (b : TelegramForwardBot) (a : AdminManager)
  : TelegramForwardBot :=
  {| config := config b; message_processor := message_processor b;
     admin_manager := a; is_forwarding := is_forwarding b |}.

Definition set_is_forwarding (b : TelegramForwardBot) (f : bool)
  : TelegramForwardBot :=
  {| config := config b; message_processor := message_processor b;
     admin_manager := admin_manager b; is_forwarding := f |}.

Definition set_config (b : TelegramForwardBot) (c : Config.BotConfig)
  : TelegramForwardBot :=
  {| config := c; message_processor := message_processor b;
     admin_manager := admin_manager b; is_forwarding := is_forwarding b |}.

Definition set_is_active (s : BotStats) (f : bool) : BotStats :=
  {| messages_forwarded := messages_forwarded s;
     messages_skipped := messages_skipped s;
     errors_count := errors_count s;
     start_time := start_time s;
     last_message_time := last_message_time s;
     is_active := f;
     uptime_seconds := uptime_seconds s |}.

End Bot.

(* ================================================================== *)
(** ** admin.py *)

Module Admin.
Import PyStr Bot.

Definition __init__ (admin_user_id : Z) (bot_instance_set : bool) (now : time)
  : AdminManager :=
  {| admin_user_id := admin_user_id;
     bot_instance_set := bot_instance_set;
     stats := new_stats now;
     command_history := [];
     error_log := [] |}.

Definition is_admin (a : AdminManager) (uid : Z) : bool := (uid =? admin_user_id a)%Z.

(** Append, then keep the last 100 entries when there are more. *)
Definition log_command (now : time) (a : AdminManager)
           (command args : pystr) (uid : Z) : AdminManager :=
  let h := command_history a
           ++ [{| cmd_timestamp := now; command := command; args := args;
                  user_id := uid |}] in
  set_command_history a (if (100 <? length h)%nat then last_n 100 h else h).

(** Append, count the error, then keep the last 50 entries. *)
Definition log_error (now : time) (a : AdminManager)
           (error_type error_message : pystr) : AdminManager :=
  let l := error_log a
           ++ [{| err_timestamp := now; err_type := error_type;
                  err_message := error_message |}] in
  let s := stats a in
  let s' := {| messages_forwarded := messages_forwarded s;
               messages_skipped := messages_skipped s;
               errors_count := errors_count s + 1;
               start_time := start_time s;
               last_message_time := last_message_time s;
               is_active := is_active s;
               uptime_seconds := uptime_seconds s |} in
  set_error_log (set_stats a s')
                (if (50 <? length l)%nat then last_n 50 l else l).

(** The two actions main.py reports. *)
Inductive Action : Type := message_forwarded | message_skipped.

Definition update_stats (now : time) (a : AdminManager) (action : Action)
  : AdminManager :=
  let s := stats a in
  let uptime := Z.quot (now - start_time s) 1000000 in
  set_stats a
    match action with
    | message_forwarded =>
        {| messages_forwarded := messages_forwarded s + 1;
           messages_skipped := messages_skipped s;
           errors_count := errors_count s;
           start_time := start_time s;
           last_message_time := Some now;
           is_active := is_active s;
           uptime_seconds := uptime |}
    | message_skipped =>
        {| messages_forwarded := messages_forwarded s;
           messages_skipped := messages_skipped s + 1;
           errors_count := errors_count s;
           start_time := start_time s;
           last_message_time := last_message_time s;
           is_active := is_active s;
           uptime_seconds := uptime |}
    end.

(** A command handler: the bot after the command and the replies sent. *)
Definition handler : Type :=
  time -> World -> TelegramForwardBot -> pystr -> TelegramForwardBot * list Reply.

Definition cmd_start_forwarding : handler := fun now w b args =>
  let a := admin_manager b in
  if bot_instance_set a then
    (set_admin_manager (set_is_forwarding b true)
                       (set_stats a (set_is_active (stats a) true)),
     [ForwardingStarted])
  else (b, [BotInstanceNotAvailable]).

Definition cmd_stop_forwarding : handler := fun now w b args =>
  let a := admin_manager b in
  if bot_instance_set a then
    (set_admin_manager (set_is_forwarding b false)
                       (set_stats a (set_is_active (stats a) false)),
     [ForwardingStopped])
  else (b, [BotInstanceNotAvailable]).

Definition cmd_get_status : handler := fun now w b args =>
  let s := stats (admin_manager b) in
  (b, [StatusReport (is_active s) s]).

Definition day : Z := 24 * 3600 * 1000000.

Definition cmd_get_detailed_stats : handler := fun now w b args =>
  let a := admin_manager b in
  if negb (bot_instance_set a) then (b, [BotInstanceNotAvailable])
  else
    (b, [DetailedStats (stats a) (config b) (length (command_history a))
           (length (filter (fun e => (now - day <? err_timestamp e)%Z)
                           (error_log a)))]).

Definition cmd_get_help : handler := fun now w b args => (b, [Help]).

Definition cmd_get_config : handler := fun now w b args =>
  if negb (bot_instance_set (admin_manager b))
  then (b, [ConfigurationNotAvailable])
  else (b, [ConfigReport (config b)]).

Definition cmd_get_logs : handler := fun now w b args =>
  match error_log (admin_manager b) with
  | [] => (b, [NoRecentErrors])
  | l => (b, [Logs (last_n 10 l) (length l)])
  end.

Definition cmd_reset_stats : handler := fun now w b args =>
  let a := admin_manager b in
  (set_admin_manager b
     (set_error_log (set_command_history (set_stats a (new_stats now)) []) []),
   [StatisticsReset]).

Definition cmd_test_connection : handler := fun now w b args =>
  if bot_instance_set (admin_manager b) then
    let connection :=
      match get_me w with
      | Ok me => ConnectionOk (username me)
      | Raise e => ConnectionFailed e
      end in
    let source :=
      match get_entity w (Config.source_group_id (config b)) with
      | Ok title => SourceOk title
      | Raise e => SourceFailed e
      end in
    let destination :=
      match get_entity w (Config.destination_group_id (config b)) with
      | Ok title => DestinationOk title
      | Raise e => DestinationFailed e
      end in
    (b, [TestResults [BotInstanceOk; connection; source; destination]])
  else (b, [TestResults [BotInstanceMissing]]).

Definition cmd_update_reference : handler := fun now w b args =>
  match args with
  | [] => (b, [ReferenceUsage])
  | _ =>
      if bot_instance_set (admin_manager b) then
        (set_config b (Config.update_reference_text (config b) args),
         [ReferenceUpdated args])
      else (b, [BotConfigurationNotAvailable])
  end.

Definition cmd_update_channel : handler := fun now w b args =>
  match args with
  | [] => (b, [ChannelUsage])
  | _ =>
      if bot_instance_set (admin_manager b) then
        (set_config b (Config.update_channel_link (config b) args),
         [ChannelUpdated args])
      else (b, [BotConfigurationNotAvailable])
  end.

Definition cmd_unknown_command (b : TelegramForwardBot) (command : pystr)
  : TelegramForwardBot * list Reply :=
  (b, [UnknownCommand command]).

(** [self.commands] *)
Definition commands : list (pystr * handler) :=
  [ (str "/start", cmd_start_forwarding);
    (str "/stop", cmd_stop_forwarding);
    (str "/status", cmd_get_status);
    (str "/stats", cmd_get_detailed_stats);
    (str "/help", cmd_get_help);
    (str "/config", cmd_get_config);
    (str "/logs", cmd_get_logs);
    (str "/reset_stats", cmd_reset_stats);
    (str "/test", cmd_test_connection);
    (str "/update_reference", cmd_update_reference);
    (str "/update_channel", cmd_update_channel) ].

Definition pystr_eqb (a b : pystr) : bool :=
  if list_eq_dec N.eq_dec a b then true else false.

Fixpoint lookup (key : pystr) (table : list (pystr * handler)) : option handler :=
  match table with
  | [] => None
  | (k, h) :: rest => if pystr_eqb key k then Some h else lookup key rest
  end.

(** The [try] body of [handle_admin_command].  The one statement of it that
    can raise on the data is [event.message.text.strip()], when the message
    has no text. *)
Definition dispatch (now : time) (w : World) (b : TelegramForwardBot)
           (ev : Event) : result (TelegramForwardBot * list Reply) :=
  if negb (is_admin (admin_manager b) (sender_id ev)) then
    Ok (b, [Unauthorized])
  else
    match MessageProcessor.text (message ev) with
    | None => Raise (str "'NoneType' object has no attribute 'strip'")
    | Some t =>
        let message_text := strip t in
        let (head, rest) := split_space1 message_text in
        let command := lower head in
        let args := match rest with Some r => r | None => [] end in
        let b1 := set_admin_manager b
                    (log_command now (admin_manager b) command args
                                 (sender_id ev)) in
        match lookup command commands with
        | Some h => Ok (h now w b1 args)
        | None => Ok (cmd_unknown_command b1 command)
        end
    end.

Definition handle_admin_command (now : time) (w : World)
           (b : TelegramForwardBot) (ev : Event)
  : TelegramForwardBot * list Reply :=
  match dispatch now w b ev with
  | Ok r => r
  | Raise e =>
      (set_admin_manager b
         (log_error now (admin_manager b) (str "Command execution error") e),
       [CommandError e])
  end.

End Admin.

(* ================================================================== *)
(** ** main.py *)

Module Main.
Import PyStr Bot.

(** [TelegramForwardBot.__init__]: the processor receives the reference text
    the configuration holds at that moment. *)
Definition __init__ (cfg : Config.BotConfig) (now : time) : TelegramForwardBot :=
  {| config := cfg;
     message_processor := MessageProcessor.__init__ (Config.reference_text cfg);
     admin_manager := Admin.__init__ (Config.admin_user_id cfg) true now;
     is_forwarding := false |}.

(** The length check of [process_message_content]. *)
Definition truncate (max_length : Z) (s : pystr) : pystr :=
  if (max_length <? len s)%Z then slice_to (max_length - 3) s ++ str "..."
  else s.

(** The last two steps of [process_message_content]: length check, then
    reference. *)
Definition compose (b : TelegramForwardBot) (s : pystr) : pystr :=
  MessageProcessor.add_custom_reference (message_processor b)
    (truncate (Config.max_message_length (config b)) s).

(** The first two steps: links, then formatting. *)
Definition sanitize (s : pystr) : pystr :=
  MessageProcessor.clean_text_formatting (MessageProcessor.remove_all_links_str s).

(** An exception anywhere in the [try] body gives the empty text. *)
Definition process_message_content (w : World) (b : TelegramForwardBot)
           (m : MessageProcessor.Message) : pystr :=
  match raises w Sanitizing with
  | Some _ => []
  | None =>
      let processed_text := sanitize (MessageProcessor.text_or_empty m) in
      match raises w Composing with
      | Some _ => []
      | None => compose b processed_text
      end
  end.

Definition create_channel_button (b : TelegramForwardBot) : pystr :=
  Config.channel_link (config b).

(** [original_message.from_id and original_message.from_id.user_id == me.id];
    a peer that is not a user has no [user_id]. *)
Definition from_self (m : MessageProcessor.Message) (me : User) : result bool :=
  match MessageProcessor.from_id m with
  | None => Ok false
  | Some (MessageProcessor.PeerUser u) => Ok (u =? id me)%Z
  | Some (MessageProcessor.PeerChat _) =>
      Raise (str "'PeerChat' object has no attribute 'user_id'")
  | Some (MessageProcessor.PeerChannel _) =>
      Raise (str "'PeerChannel' object has no attribute 'user_id'")
  end.

Definition with_admin (b : TelegramForwardBot)
           (f : AdminManager -> AdminManager) : TelegramForwardBot :=
  set_admin_manager b (f (admin_manager b)).

(** The [try] body of [process_and_forward_message]. *)
Definition forward (now : time) (w : World) (b : TelegramForwardBot)
           (ev : Event) : result (TelegramForwardBot * list SentMessage) :=
  let original_message := message ev in
  bind (get_me w) (fun me =>
  bind (from_self original_message me) (fun self_authored =>
  if self_authored then Ok (b, [])
  else
    let (should_forward, reason) :=
      MessageProcessor.should_forward_message
        original_message (Config.min_message_length (config b)) in
    if negb should_forward then
      Ok (with_admin b (fun a => Admin.update_stats now a Admin.message_skipped), [])
    else
      match process_message_content w b original_message with
      | [] =>
          Ok (with_admin b (fun a => Admin.update_stats now a Admin.message_skipped), [])
      | processed_text =>
          match raises w Sending with
          | Some e => Raise e
          | None =>
              let sent :=
                {| to := Config.destination_group_id (config b);
                   body := processed_text;
                   file := match MessageProcessor.media original_message with
                           | Some m =>
                               if Config.forward_media (config b)
                               then Some m else None
                           | None => None
                           end;
                   button_url := create_channel_button b |} in
              Ok (with_admin b
                    (fun a => Admin.update_stats now a Admin.message_forwarded),
                  [sent])
          end
      end)).

Definition process_and_forward_message (now : time) (w : World)
           (b : TelegramForwardBot) (ev : Event)
  : TelegramForwardBot * list SentMessage :=
  match forward now w b ev with
  | Ok r => r
  | Raise e =>
      (with_admin b
         (fun a => Admin.log_error now a (str "Message processing error") e),
       [])
  end.

(** The handler registered for the source chat. *)
Definition handle_source_message (now : time) (w : World)
           (b : TelegramForwardBot) (ev : Event)
  : TelegramForwardBot * list SentMessage :=
  if is_forwarding b then process_and_forward_message now w b ev else (b, []).

End Main.

(* ================================================================== *)
(** ** Sample data *)

Module Sample.
Import PyStr Bot.
Local Open Scope Z_scope.

(** A message with neither text nor media. *)
Definition empty_message : MessageProcessor.Message :=
  {| MessageProcessor.text := None;
     MessageProcessor.media := None;
     MessageProcessor.from_id := None;
     MessageProcessor.sender := None |}.

(** A text message of user [uid]. *)
Definition text_message (uid : Z) (s : pystr) : MessageProcessor.Message :=
  {| MessageProcessor.text := Some s;
     MessageProcessor.media := None;
     MessageProcessor.from_id := Some (MessageProcessor.PeerUser uid);
     MessageProcessor.sender := None |}.

(** The message of the end-to-end scenario of the specification. *)
Definition spam_message : MessageProcessor.Message :=
  text_message 555 (str "Check this https://spam.example/x @spamuser").

Definition event_of (uid : Z) (m : MessageProcessor.Message) : Event :=
  {| sender_id := uid; message := m; is_private := true |}.

(** A transport on which every call succeeds; the bot is user 1. *)
Definition quiet_world : World :=
  {| get_me := Ok {| id := 1; username := str "relay" |};
     get_entity := fun _ => Ok (str "chat");
     raises := fun _ => None |}.


(** Source chat 100, destination chat 200, admin 42. *)
Definition cfg : Config.BotConfig := Config.default_config 100 200 42.

(** The bot as constructed at time 0. *)
Definition bot0 : TelegramForwardBot := Main.__init__ cfg 0.

Definition entry (n : Z) : CommandLogEntry :=
  {| cmd_timestamp := n; command := str "/help"; args := []; user_id := 42 |}.

(** A manager whose command history holds the entries 0 .. 99. *)
Definition full_manager : AdminManager :=
  set_command_history (Admin.__init__ 42 true 0)
                      (map (fun n => entry (Z.of_nat n)) (List.seq 0 100)).

(** An approved text message of user 555. *)
Definition plain_message : MessageProcessor.Message :=
  text_message 555 (str "hello world, this is a message").

(** The admin's command that changes the reference text. *)
Definition update_event : Event :=
  event_of 42 (text_message 42 (str "/update_reference NEW")).

(** The reset command of the admin. *)
Definition reset_event : Event :=
  event_of 42 (text_message 42 (str "/reset_stats")).

(** The bot after the admin's [/start]. *)
Definition started_bot : TelegramForwardBot :=
  fst (Admin.handle_admin_command 1 quiet_world bot0
         (event_of 42 (text_message 42 (str "/start")))).

(** The appends of a sequence of logged commands, oldest first. *)
Definition log_all (es : list CommandLogEntry) (a : AdminManager) : AdminManager :=
  fold_left
    (fun acc e =>
       Admin.log_command (cmd_timestamp e) acc (command e) (args e) (user_id e))
    es a.

End Sample.

(* ================================================================== *)
(** ** Shapes of text *)

Module Shape.
Import PyStr.

(** A text whose only whitespace is single U+0020 characters, none next to
    another: what the [\s+] substitution leaves. *)
Fixpoint single_spaced (s : pystr) : bool :=
  match s with
  | [] => true
  | c :: s' =>
      (if is_space c
       then (c =? 32)%N
            && match s' with [] => true | d :: _ => negb (is_space d) end
       else true)
      && single_spaced s'
  end.

(** The maximal prefix of characters satisfying [p]. *)
Fixpoint run (p : char -> bool) (s : pystr) : nat :=
  match s with
  | [] => 0
  | c :: s' => if p c then S (run p s') else 0
  end.

End Shape.

(* ================================================================== *)
(** ** Further shapes of text and of patterns *)

Module Adjacent.
Import PyStr Re.

(** No character satisfying [A] is directly followed by one satisfying
    [B]. *)
Fixpoint no_pair (A B : char -> bool) (s : pystr) : bool :=
  match s with
  | [] => true
  | a :: t =>
      match t with
      | [] => true
      | b :: _ => negb (A a && B b) && no_pair A B t
      end
  end.

(** Every match of [r] begins with a character satisfying [B]. *)
Definition starts_in (B : char -> bool) (r : regex) : Prop :=
  forall (s : pystr) (k : pystr -> option pystr) (x : pystr),
    rmatch r s k = Some x -> exists c s', s = c :: s' /\ B c = true.

(** [@[a-zA-Z0-9_]+], the second of the Telegram patterns. *)
Definition mention : regex := seq [lit "@"; Rep ci_word 1].

(** No run of more than three characters satisfying [p]. *)
Fixpoint short_runs (p : char -> bool) (s : pystr) : bool :=
  match s with
  | [] => true
  | _ :: t => (Shape.run p s <=? 3)%nat && short_runs p t
  end.

End Adjacent.

(* ================================================================== *)
(** ** The texts a pattern matches *)

Module Lang.
Import PyStr Re.

(** [matches r u]: the pattern [r] matches the whole of [u]. *)
Inductive matches : regex -> pystr -> Prop :=
| m_eps : matches Eps []
| m_cls (p : char -> bool) (c : char) :
    p c = true -> matches (Cls p) [c]
| m_seq (a b : regex) (u v : pystr) :
    matches a u -> matches b v -> matches (Seq a b) (u ++ v)
| m_alt_l (a b : regex) (u : pystr) : matches a u -> matches (Alt a b) u
| m_alt_r (a b : regex) (u : pystr) : matches b u -> matches (Alt a b) u
| m_opt_none (a : regex) : matches (Opt a) []
| m_opt_some (a : regex) (u : pystr) : matches a u -> matches (Opt a) u
| m_rep (p : char -> bool) (n : nat) (u : pystr) :
    Forall (fun c => p c = true) u -> (n <= length u)%nat ->
    matches (Rep p n) u.

(** [r] finds no match anywhere in [s]. *)
Definition unmatched (r : regex) (s : pystr) : Prop :=
  forall n : nat, match_at r (skipn n s) = None.

(** Every text [r] matches holds a character of [F]. *)
Fixpoint needs (F : char -> bool) (r : regex) : Prop :=
  match r with
  | Eps => False
  | Cls p => forall c, p c = true -> F c = true
  | Seq a b => needs F a \/ needs F b
  | Alt a b => needs F a /\ needs F b
  | Opt _ => False
  | Rep p n => (1 <= n)%nat /\ forall c, p c = true -> F c = true
  end.

(** [r] meets whitespace only in repetitions of [\s]: every other class of
    it holds no whitespace character. *)
Fixpoint spaced (r : regex) : Prop :=
  match r with
  | Eps => True
  | Cls p => forall c, p c = true -> is_space c = false
  | Seq a b => spaced a /\ spaced b
  | Alt a b => spaced a /\ spaced b
  | Opt a => spaced a
  | Rep p _ =>
      (forall c, p c = true -> is_space c = false)
      \/ (forall c, p c = is_space c)
  end.

(** [squeezed s t]: [t] is [s] with every run of whitespace that is
    followed by another character replaced by one U+0020, and the
    whitespace at the end removed. *)
Inductive squeezed : pystr -> pystr -> Prop :=
| sq_end (s : pystr) :
    Forall (fun c => is_space c = true) s -> squeezed s []
| sq_char (c : char) (s t : pystr) :
    is_space c = false -> squeezed s t -> squeezed (c :: s) (c :: t)
| sq_run (c d : char) (w s t : pystr) :
    is_space c = true -> Forall (fun x => is_space x = true) w ->
    is_space d = false -> squeezed (d :: s) (d :: t) ->
    squeezed (c :: w ++ d :: s) (32%N :: d :: t).

(** The characters of which every pattern of [remove_all_links] needs one:
    the full stop, the colon, the at sign and the letter g. *)
Definition link_char (c : char) : bool :=
  (c =? 46)%N || (c =? 58)%N || (c =? 64)%N || (c =? 103)%N || (c =? 71)%N.

(** A text without any of them. *)
Definition plain (s : pystr) : bool := forallb (fun c => negb (link_char c)) s.

(** The eight patterns of [remove_all_links], in the order of the loops. *)
Definition link_patterns : list regex :=
  MessageProcessor.url_patterns ++ MessageProcessor.telegram_patterns
  ++ MessageProcessor.channel_patterns.

End Lang.

(* ================================================================== *)
(** ** Sequences of calls *)

Module Trace.
Import PyStr Bot.

(** The calls of [log_error] of a sequence of errors, oldest first. *)
Definition log_errors (es : list ErrorLogEntry) (a : AdminManager) : AdminManager :=
  fold_left
    (fun acc e => Admin.log_error (err_timestamp e) acc (err_type e) (err_message e))
    es a.

(** The bot kept in step: the forwarding switch and the reported flag
    agree. *)
Definition in_step (b : TelegramForwardBot) : Prop :=
  is_forwarding b = is_active (stats (admin_manager b)).

(** The command word and the arguments [handle_admin_command] reads off a
    message text: [text.strip().split(' ', 1)], the first part in lower
    case. *)
Definition command_of (t : pystr) : pystr := lower (fst (split_space1 (strip t))).

Definition args_of (t : pystr) : pystr :=
  match snd (split_space1 (strip t)) with
  | Some r => r
  | None => []
  end.

(** [s.isascii()]; on such a text [lower] is [str.lower]. *)
Definition isascii (s : pystr) : bool := forallb (fun c => (c <? 128)%N) s.

(** The command word as typed, before it is lower-cased. *)
Definition word_of (t : pystr) : pystr := fst (split_space1 (strip t)).

(** The commands that only report. *)
Definition reporting : list pystr :=
  [str "/status"; str "/stats"; str "/help"; str "/config"; str "/logs";
   str "/test"].

End Trace.

(* ================================================================== *)
(** ** config.py: reading and checking the environment *)

Module ConfigEnv.
Import PyStr Bot.

(** The process environment: [os.getenv]. *)
Definition environ : Type := pystr -> option pystr.

(** [os.getenv(key, default)] *)
Definition getenv (env : environ) (key : pystr) (default : option pystr)
  : option pystr :=
  match env key with
  | Some v => Some v
  | None => default
  end.

Definition _get_env (env : environ) (key : pystr) (default : option pystr)
  : result pystr :=
  match getenv env key default with
  | Some v => Ok v
  | None => Raise (str "Required environment variable " ++ key
                   ++ str " is not set")
  end.

(** [str(b)] for a [bool]. *)
Definition str_of_bool (b : bool) : pystr :=
  if b then str "True" else str "False".

Definition _get_bool_env (env : environ) (key : pystr) (default : bool) : bool :=
  let value :=
    lower (match getenv env key (Some (str_of_bool default)) with
           | Some v => v
           | None => []
           end) in
  existsb (Admin.pystr_eqb value) [str "true"; str "1"; str "yes"; str "on"].

(** [sep.join(parts)] *)
Fixpoint join (sep : pystr) (parts : list pystr) : pystr :=
  match parts with
  | [] => []
  | [x] => x
  | x :: rest => x ++ sep ++ join sep rest
  end.

(** The list [errors] that [_validate_config] builds, from the fields it
    reads.  For an [int], [not n] and [n == 0] are the same test. *)
Definition validation_errors (api_id : Z) (api_hash phone_number : pystr)
           (c : Config.BotConfig) : list pystr :=
  (if (api_id =? 0)%Z
   then [str "API_ID is required and must be a valid integer"] else [])
  ++ (match api_hash with [] => [str "API_HASH is required"] | _ => [] end)
  ++ (match phone_number with [] => [str "PHONE_NUMBER is required"] | _ => [] end)
  ++ (if (Config.source_group_id c =? 0)%Z
      then [str "SOURCE_GROUP_ID is required and must be a valid integer"]
      else [])
  ++ (if (Config.destination_group_id c =? 0)%Z
      then [str "DESTINATION_GROUP_ID is required and must be a valid integer"]
      else [])
  ++ (if (Config.admin_user_id c =? 0)%Z
      then [str "ADMIN_USER_ID is required and must be a valid integer"]
      else [])
  ++ (if (Config.source_group_id c =? Config.destination_group_id c)%Z
      then [str "SOURCE_GROUP_ID and DESTINATION_GROUP_ID cannot be the same"]
      else []).

Definition _validate_config (api_id : Z) (api_hash phone_number : pystr)
           (c : Config.BotConfig) : result unit :=
  match validation_errors api_id api_hash phone_number c with
  | [] => Ok tt
  | errors =>
      Raise (str "Configuration validation failed:" ++ [10%N]
             ++ join [10%N] (map (fun e => str "- " ++ e) errors))
  end.

End ConfigEnv.

(* ================================================================== *)
(** ** bot.py: the single-file bot *)

Module Legacy.
Import PyStr Re Bot.

(** A literal of a pattern compiled without flags. *)
Fixpoint exact_chars (l : pystr) : regex :=
  match l with
  | [] => Eps
  | c :: l' => Seq (Cls (chr c)) (exact_chars l')
  end.
Definition exact (s : string) : regex := exact_chars (str s).

(** [[a-zA-Z0-9_]] without [IGNORECASE]. *)
Definition word (x : char) : bool :=
  is_lower_ascii x || is_upper_ascii x || is_digit x || (x =? 95)%N.

(** [https?://[^\s]+] *)
Definition url : regex :=
  seq [exact "http"; Opt (exact "s"); exact "://"; Rep non_space 1].

(** [(?:https?://)?(?:t\.me|telegram\.me)/[^\s]+] *)
Definition telegram_link : regex :=
  seq [Opt (seq [exact "http"; Opt (exact "s"); exact "://"]);
       Alt (exact "t.me") (exact "telegram.me"); exact "/"; Rep non_space 1].

(** [@[a-zA-Z0-9_]+] *)
Definition mention : regex := seq [exact "@"; Rep word 1].

Definition remove_links (s : pystr) : pystr :=
  let s := sub url (const []) s in
  let s := sub telegram_link (const []) s in
  let s := sub mention (const []) s in
  strip (sub (Rep is_space 1) (const [32%N]) s).

(** The fields of the bot that its handlers read or write. *)
Record TelegramForwardBot : Type := {
  destination_group_id : Z;
  channel_link : pystr;
  reference_text : pystr;
  is_forwarding : bool;
  message_count : Z
}.

Definition add_reference (self : TelegramForwardBot) (s : pystr) : pystr :=
  s ++ [10; 10]%N ++ reference_text self.

Definition set_is_forwarding (self : TelegramForwardBot) (f : bool)
  : TelegramForwardBot :=
  {| destination_group_id := destination_group_id self;
     channel_link := channel_link self;
     reference_text := reference_text self;
     is_forwarding := f;
     message_count := message_count self |}.

Definition count_message (self : TelegramForwardBot) : TelegramForwardBot :=
  {| destination_group_id := destination_group_id self;
     channel_link := channel_link self;
     reference_text := reference_text self;
     is_forwarding := is_forwarding self;
     message_count := message_count self + 1 |}.

(** [original_message.from_id.user_id]: [from_id] may be [None] or a peer
    without that attribute. *)
Definition sender_user_id (m : MessageProcessor.Message) : result Z :=
  match MessageProcessor.from_id m with
  | None => Raise (str "'NoneType' object has no attribute 'user_id'")
  | Some (MessageProcessor.PeerUser u) => Ok u
  | Some (MessageProcessor.PeerChat _) =>
      Raise (str "'PeerChat' object has no attribute 'user_id'")
  | Some (MessageProcessor.PeerChannel _) =>
      Raise (str "'PeerChannel' object has no attribute 'user_id'")
  end.

(** The [try] body of [process_and_forward_message]: the test
    [not text or from_id.user_id == (await get_me()).id] reads the sender
    before it asks for the own identity. *)
Definition forward (w : World) (self : TelegramForwardBot) (ev : Event)
  : result (TelegramForwardBot * list SentMessage) :=
  let original_message := message ev in
  if negb (MessageProcessor.has_text original_message) then Ok (self, [])
  else
    bind (sender_user_id original_message) (fun uid =>
    bind (get_me w) (fun me =>
    if (uid =? id me)%Z then Ok (self, [])
    else
      let processed_text :=
        add_reference self
          (remove_links (MessageProcessor.text_or_empty original_message)) in
      match raises w Sending with
      | Some e => Raise e
      | None =>
          Ok (count_message self,
              [ {| to := destination_group_id self;
                   body := processed_text;
                   file := None;
                   button_url := channel_link self |} ])
      end)).

(** The [except] clause only writes to the log file. *)
Definition process_and_forward_message (w : World) (self : TelegramForwardBot)
           (ev : Event) : TelegramForwardBot * list SentMessage :=
  match forward w self ev with
  | Ok r => r
  | Raise _ => (self, [])
  end.

Definition handle_source_message (w : World) (self : TelegramForwardBot)
           (ev : Event) : TelegramForwardBot * list SentMessage :=
  if is_forwarding self then process_and_forward_message w self ev
  else (self, []).

(** The replies of the single-file bot. *)
Inductive Reply : Type :=
| ForwardingStarted
| ForwardingStopped
| Status (forwarding : bool) (count : Z)
| Help.

(** [handle_admin_command]: the whole text, in lower case and stripped, is
    compared with the four commands; there is no [try] around it, so a
    message without text raises. *)
Definition handle_admin_command (self : TelegramForwardBot) (ev : Event)
  : result (TelegramForwardBot * list Reply) :=
  match MessageProcessor.text (message ev) with
  | None => Raise (str "'NoneType' object has no attribute 'lower'")
  | Some t =>
      let command := strip (lower t) in
      if Admin.pystr_eqb command (str "/start_forwarding") then
        Ok (set_is_forwarding self true, [ForwardingStarted])
      else if Admin.pystr_eqb command (str "/stop_forwarding") then
        Ok (set_is_forwarding self false, [ForwardingStopped])
      else if Admin.pystr_eqb command (str "/status") then
        Ok (self, [Status (is_forwarding self) (message_count self)])
      else if Admin.pystr_eqb command (str "/help") then
        Ok (self, [Help])
      else Ok (self, [])
  end.

End Legacy.

(* ================================================================== *)
(** ** main.py: the handler for commands in private chats *)

Module Handlers.
Import PyStr Bot.

(** [handle_public_command], registered for every message that begins with
    a command word: it answers the admin in a private chat and nobody
    else. *)
Definition handle_public_command (now : time) (w : World)
           (b : TelegramForwardBot) (ev : Event)
  : TelegramForwardBot * list Reply :=
  if is_private ev && (sender_id ev =? Config.admin_user_id (config b))%Z
  then Admin.handle_admin_command now w b ev
  else (b, []).

(** The admin the manager knows is the admin of the configuration. *)
Definition same_admin (b : TelegramForwardBot) : Prop :=
  admin_user_id (admin_manager b) = Config.admin_user_id (config b).

End Handlers.

Import PyStr Re Bot.
Local Open Scope Z_scope.
Unset Implicit Arguments.

(* ================================================================== *)
(** * Properties *)

(** ** C3: the empty-message rule *)

(** C3, as stated: the reason of the first rule is not the lower-case text
    "empty message"; the code answers "Empty message". *)
Lemma empty_message_reason_differs :
  MessageProcessor.should_forward_message Sample.empty_message 10
  <> (false, str "empty message").
Proof. vm_compute. discriminate. Qed.

(** C3, amended: a message with no text and no media is rejected by the first
    rule, whatever the minimum length, with the reason "Empty message". *)
Theorem empty_message_rejected :
  forall (m : MessageProcessor.Message) (min_length : Z),
    MessageProcessor.has_text m = false ->
    MessageProcessor.has_media m = false ->
    MessageProcessor.should_forward_message m min_length
    = (false, str "Empty message").
Proof.
  intros m min_length Ht Hm.
  unfold MessageProcessor.should_forward_message.
  rewrite Ht, Hm. reflexivity.
Qed.

Lemma empty_message_rejected_witness :
  MessageProcessor.should_forward_message Sample.empty_message 10
  = (false, str "Empty message").
Proof.
  apply (empty_message_rejected Sample.empty_message 10); reflexivity.
Defined.

(** ** C7: the guard of [remove_all_links] *)

(** C7, as stated: on [None] the function does not give the empty string. *)
Lemma remove_all_links_none_not_empty :
  MessageProcessor.remove_all_links None <> Some [].
Proof. discriminate. Qed.

(** C7, amended: the function accepts the empty string and [None] and hands
    each back unchanged. *)
Theorem remove_all_links_falsy :
  MessageProcessor.remove_all_links (Some []) = Some []
  /\ MessageProcessor.remove_all_links None = None.
Proof. split; reflexivity. Qed.

(** ** C8: commands of anyone but the admin *)

(** C8: a sender other than the configured admin gets the unauthorized reply
    and nothing else happens: the bot, with its forwarding flag and its
    command history, is the one before the call. *)
Theorem non_admin_rejected :
  forall (now : time) (w : World) (b : TelegramForwardBot) (ev : Event),
    sender_id ev <> admin_user_id (admin_manager b) ->
    Admin.handle_admin_command now w b ev = (b, [Unauthorized])
    /\ is_forwarding (fst (Admin.handle_admin_command now w b ev))
       = is_forwarding b
    /\ command_history (admin_manager (fst (Admin.handle_admin_command now w b ev)))
       = command_history (admin_manager b).
Proof.
  intros now w b ev Hne.
  assert (E : Admin.handle_admin_command now w b ev = (b, [Unauthorized])).
  { unfold Admin.handle_admin_command, Admin.dispatch, Admin.is_admin.
    destruct (Z.eqb_spec (sender_id ev) (admin_user_id (admin_manager b))) as [He|_].
    - contradiction.
    - reflexivity. }
  rewrite E. auto.
Qed.

Lemma non_admin_rejected_witness :
  Admin.handle_admin_command 5 Sample.quiet_world Sample.bot0
    (Sample.event_of 7 (Sample.text_message 7 (str "/stop")))
  = (Sample.bot0, [Unauthorized]).
Proof.
  apply (non_admin_rejected 5 Sample.quiet_world Sample.bot0
           (Sample.event_of 7 (Sample.text_message 7 (str "/stop")))).
  vm_compute. discriminate.
Defined.

(** ** C9: the command log *)

Lemma last_n_short :
  forall (A : Type) (n : nat) (l : list A),
    (length l <= n)%nat -> last_n n l = l.
Proof.
  intros A n l H. unfold last_n.
  replace (length l - n)%nat with 0%nat by lia. reflexivity.
Qed.

Lemma last_n_length :
  forall (A : Type) (n : nat) (l : list A),
    (n <= length l)%nat -> length (last_n n l) = n.
Proof.
  intros A n l H. unfold last_n. rewrite length_skipn. lia.
Qed.

Lemma last_n_covered :
  forall (A : Type) (n : nat) (pre l : list A),
    (n <= length l)%nat -> last_n n (pre ++ l) = last_n n l.
Proof.
  intros A n pre l H. unfold last_n.
  rewrite length_app, skipn_app.
  replace (length pre + length l - n - length pre)%nat
    with (length l - n)%nat by lia.
  rewrite (skipn_all2 pre) by lia. reflexivity.
Qed.

Lemma last_n_absorb :
  forall (A : Type) (n : nat) (l x : list A),
    last_n n (last_n n l ++ x) = last_n n (l ++ x).
Proof.
  intros A n l x.
  destruct (Nat.le_gt_cases (length l) n) as [H|H].
  - rewrite (last_n_short A n l H). reflexivity.
  - change (last_n n l) with (skipn (length l - n) l).
    assert (E : l ++ x
                = firstn (length l - n) l ++ (skipn (length l - n) l ++ x))
      by (rewrite app_assoc, firstn_skipn; reflexivity).
    rewrite E.
    rewrite (last_n_covered A n (firstn (length l - n) l)
               (skipn (length l - n) l ++ x)); [reflexivity|].
    rewrite length_app, length_skipn. lia.
Qed.

Lemma capped_is_last_n :
  forall (A : Type) (n : nat) (l : list A),
    (if (n <? length l)%nat then last_n n l else l) = last_n n l.
Proof.
  intros A n l. destruct (Nat.ltb_spec n (length l)) as [H|H];
    [reflexivity|].
  symmetry. apply last_n_short. exact H.
Qed.

Lemma last_n_min :
  forall (A : Type) (n : nat) (l : list A),
    length (last_n n l) = Nat.min n (length l).
Proof.
  intros A n l. unfold last_n. rewrite length_skipn. lia.
Qed.

Lemma log_command_history :
  forall now a c ar u,
    command_history (Admin.log_command now a c ar u)
    = let h := command_history a
               ++ [{| cmd_timestamp := now; command := c; args := ar;
                      user_id := u |}] in
      if (100 <? length h)%nat then last_n 100 h else h.
Proof. reflexivity. Qed.

Lemma log_command_bounded :
  forall now a c ar u,
    (length (command_history (Admin.log_command now a c ar u)) <= 100)%nat.
Proof.
  intros. rewrite log_command_history. cbv zeta.
  destruct (Nat.ltb_spec 100
              (length (command_history a
                       ++ [{| cmd_timestamp := now; command := c; args := ar;
                              user_id := u |}]))) as [Hlt|Hge].
  - rewrite last_n_length; lia.
  - lia.
Qed.

(** One call of [log_command] and a sequence of calls, on the history. *)
Lemma log_command_last_n :
  forall now a c ar u,
    command_history (Admin.log_command now a c ar u)
    = last_n 100 (command_history a
                  ++ [{| cmd_timestamp := now; command := c; args := ar;
                         user_id := u |}]).
Proof.
  intros. rewrite log_command_history. cbv zeta. apply capped_is_last_n.
Qed.

Lemma log_all_last_n :
  forall (es : list CommandLogEntry) (a : AdminManager),
    (length (command_history a) <= 100)%nat ->
    command_history (Sample.log_all es a)
    = last_n 100 (command_history a ++ es).
Proof.
  induction es as [|e es IH]; intros a Ha.
  - rewrite app_nil_r. symmetry. apply last_n_short. exact Ha.
  - change (Sample.log_all (e :: es) a)
      with (Sample.log_all es
              (Admin.log_command (cmd_timestamp e) a (command e) (args e)
                                 (user_id e))).
    rewrite IH by apply log_command_bounded.
    rewrite log_command_last_n. destruct e as [t0 c0 a0 u0].
    cbn [cmd_timestamp command args user_id].
    rewrite last_n_absorb, <- app_assoc. reflexivity.
Qed.

(** C9: the command log is a first-in first-out buffer of 100 entries.
    Every call of [log_command] leaves the last 100 elements of the old
    history followed by the new entry: below 100 entries the new entry is
    appended and nothing is dropped; at 100 entries exactly the oldest entry
    is dropped, the new one is put last and the size stays at 100.  After
    any sequence of calls the history is the last 100 elements of the old
    history followed by the logged entries in the order of the calls, so it
    never exceeds 100 entries; from a new manager it holds the last 100
    entries logged, all of them while there are at most 100. *)
Theorem command_log_ring_buffer :
  forall (now : time) (a : AdminManager) (c ar : pystr) (u : Z),
    let e := {| cmd_timestamp := now; command := c; args := ar; user_id := u |} in
    let h := command_history a in
    let h' := command_history (Admin.log_command now a c ar u) in
    h' = last_n 100 (h ++ [e])
    /\ (length h' <= 100)%nat
    /\ ((length h < 100)%nat -> h' = h ++ [e])
    /\ (length h = 100%nat -> h' = tl h ++ [e] /\ length h' = 100%nat)
    /\ (forall es : list CommandLogEntry,
          (length h <= 100)%nat ->
          command_history (Sample.log_all es a) = last_n 100 (h ++ es)
          /\ (length (command_history (Sample.log_all es a)) <= 100)%nat)
    /\ (forall (es : list CommandLogEntry) (uid : Z) (flag : bool) (t0 : time),
          let logged :=
            command_history (Sample.log_all es (Admin.__init__ uid flag t0)) in
          logged = last_n 100 es
          /\ length logged = Nat.min 100 (length es)
          /\ ((length es <= 100)%nat -> logged = es)).
Proof.
  intros now a c ar u e h h'. subst h h'.
  assert (Hstep : command_history (Admin.log_command now a c ar u)
                  = last_n 100 (command_history a ++ [e]))
    by apply log_command_last_n.
  split; [exact Hstep|].
  split; [apply log_command_bounded|].
  split; [|split; [|split]].
  - intro Hlt. rewrite Hstep. apply last_n_short.
    rewrite length_app. simpl. lia.
  - intro Hlen. rewrite Hstep.
    destruct (command_history a) as [|x h] eqn:Eh; [discriminate|].
    simpl in Hlen.
    assert (Hl : length ((x :: h) ++ [e]) = 101%nat)
      by (rewrite length_app; simpl; lia).
    unfold last_n. rewrite Hl. cbn [tl]. split; [reflexivity|].
    change (length (skipn (101 - 100) ((x :: h) ++ [e])))
      with (length (h ++ [e])).
    rewrite length_app. simpl. lia.
  - intros es Hle. rewrite (log_all_last_n es a Hle).
    split; [reflexivity|]. rewrite last_n_min. lia.
  - intros es uid flag t0 logged. subst logged.
    rewrite (log_all_last_n es (Admin.__init__ uid flag t0))
      by (simpl; lia).
    cbn [Admin.__init__ command_history app].
    split; [reflexivity|].
    split; [apply last_n_min|].
    intro Hle. apply last_n_short. exact Hle.
Qed.

Lemma command_log_ring_buffer_witness :
  command_history (Admin.log_command 7 Sample.full_manager (str "/stop") [] 42)
  = tl (command_history Sample.full_manager)
    ++ [{| cmd_timestamp := 7; command := str "/stop"; args := []; user_id := 42 |}]
  /\ length (command_history
               (Admin.log_command 7 Sample.full_manager (str "/stop") [] 42))
     = 100%nat.
Proof.
  apply (command_log_ring_buffer 7 Sample.full_manager (str "/stop") [] 42).
  reflexivity.
Defined.

(** ** C5: truncation before the reference *)

Lemma add_custom_reference_nonempty :
  forall (mp : MessageProcessor.t) (s : pystr),
    s <> [] ->
    MessageProcessor.add_custom_reference mp s
    = s ++ [10; 10]%N ++ MessageProcessor.reference_text mp.
Proof.
  intros mp s H. destruct s; [contradiction|reflexivity].
Qed.

Lemma len_app : forall a b : pystr, len (a ++ b) = len a + len b.
Proof. intros. unfold len. rewrite length_app. lia. Qed.

Lemma len_nonneg : forall a : pystr, 0 <= len a.
Proof. intros. unfold len. lia. Qed.

Lemma truncate_long :
  forall (mx : Z) (s : pystr),
    3 <= mx -> mx < len s ->
    Main.truncate mx s = firstn (Z.to_nat (mx - 3)) s ++ str "..."
    /\ len (Main.truncate mx s) = mx.
Proof.
  intros mx s Hmx Hl. unfold Main.truncate, slice_to.
  destruct (Z.ltb_spec mx (len s)) as [_|Hc]; [|lia].
  destruct (Z.leb_spec 0 (mx - 3)) as [_|Hc]; [|lia].
  split; [reflexivity|].
  rewrite len_app. unfold len in *. rewrite length_firstn.
  change (length (str "...")) with 3%nat. lia.
Qed.

Lemma truncate_short :
  forall (mx : Z) (s : pystr), len s <= mx -> Main.truncate mx s = s.
Proof.
  intros mx s H. unfold Main.truncate.
  destruct (Z.ltb_spec mx (len s)); [lia|reflexivity].
Qed.

(** C5, as stated: with a maximum below 3 the slice bound is negative and
    counts from the end, so the body kept is not the first
    [max_message_length - 3] characters. *)
Lemma truncate_small_maximum :
  Main.truncate 2 (str "abcd") = str "abc..."
  /\ len (Main.truncate 2 (str "abcd")) = 6
  /\ Main.truncate 2 (str "abcd")
     <> firstn (Z.to_nat (2 - 3)) (str "abcd") ++ str "...".
Proof.
  split; [reflexivity|]. split; [reflexivity|]. vm_compute. discriminate.
Qed.

(** C5, amended: for a maximum of at least 3, a body longer than the maximum
    is cut to its first [max - 3] characters followed by "...", the
    reference is appended after that, and the composed text is longer than
    the maximum; a body of exactly the maximum length is left whole. *)
Theorem compose_truncates_body_only :
  forall (b : TelegramForwardBot) (s : pystr),
    let mx := Config.max_message_length (config b) in
    let ref := MessageProcessor.reference_text (message_processor b) in
    3 <= mx ->
    (mx < len s ->
       Main.compose b s
       = (firstn (Z.to_nat (mx - 3)) s ++ str "...") ++ [10; 10]%N ++ ref
       /\ len (firstn (Z.to_nat (mx - 3)) s ++ str "...") = mx
       /\ len (Main.compose b s) = mx + 2 + len ref
       /\ mx < len (Main.compose b s))
    /\ (len s = mx -> Main.compose b s = s ++ [10; 10]%N ++ ref)
    /\ (len s = mx + 1 ->
          Main.compose b s
          = (firstn (Z.to_nat (mx - 3)) s ++ str "...") ++ [10; 10]%N ++ ref).
Proof.
  intros b s mx ref Hmx.
  assert (Hlong : mx < len s ->
                  Main.compose b s
                  = (firstn (Z.to_nat (mx - 3)) s ++ str "...")
                      ++ [10; 10]%N ++ ref).
  { intro Hl. unfold Main.compose. fold mx.
    rewrite (proj1 (truncate_long mx s Hmx Hl)).
    apply add_custom_reference_nonempty.
    intro E. apply (f_equal len) in E.
    rewrite <- (proj1 (truncate_long mx s Hmx Hl)) in E.
    rewrite (proj2 (truncate_long mx s Hmx Hl)) in E.
    clearbody mx. unfold len in E. simpl in E. lia. }
  split; [|split].
  - intro Hl.
    pose proof (truncate_long mx s Hmx Hl) as [Ht Hc]. rewrite Ht in Hc.
    split; [auto|]. split; [exact Hc|].
    assert (Hlen : len (Main.compose b s) = mx + 2 + len ref).
    { rewrite (Hlong Hl), len_app, Hc, len_app.
      change (len [10; 10]%N) with 2. clearbody mx ref. lia. }
    split; [exact Hlen|]. rewrite Hlen.
    pose proof (len_nonneg ref). clearbody mx ref. lia.
  - intro He. unfold Main.compose. fold mx.
    rewrite truncate_short by (clearbody mx; lia).
    apply add_custom_reference_nonempty.
    intro E. subst s. change (len []) with 0 in He. clearbody mx. lia.
  - intro He. apply Hlong. clearbody mx. lia.
Qed.

Lemma compose_truncates_body_only_witness :
  Main.compose (set_config Sample.bot0
                  (Config.default_config 100 200 42)) (repeat 97%N 4000)
  = repeat 97%N 4000 ++ [10; 10]%N ++ Config.default_reference_text.
Proof.
  apply (compose_truncates_body_only
           (set_config Sample.bot0 (Config.default_config 100 200 42))
           (repeat 97%N 4000)).
  - vm_compute. discriminate.
  - reflexivity.
Defined.

(** ** C1: the reference text after [/update_reference] *)

(** No command handler writes the processor of the bot. *)
Lemma handlers_keep_processor :
  Forall (fun kh : pystr * Admin.handler =>
            forall now w b ar,
              message_processor (fst (snd kh now w b ar)) = message_processor b)
         Admin.commands.
Proof.
  unfold Admin.commands.
  repeat constructor; intros now w b ar; cbn [snd];
    unfold Admin.cmd_start_forwarding, Admin.cmd_stop_forwarding,
      Admin.cmd_get_status, Admin.cmd_get_detailed_stats, Admin.cmd_get_help,
      Admin.cmd_get_config, Admin.cmd_get_logs, Admin.cmd_reset_stats,
      Admin.cmd_test_connection, Admin.cmd_update_reference,
      Admin.cmd_update_channel;
    try destruct ar;
    try destruct (bot_instance_set (admin_manager b));
    try destruct (error_log (admin_manager b));
    reflexivity.
Qed.

Lemma lookup_in :
  forall key table h,
    Admin.lookup key table = Some h -> exists k, In (k, h) table.
Proof.
  induction table as [|[k0 h0] rest IH]; simpl; intros h H; [discriminate|].
  destruct (Admin.pystr_eqb key k0).
  - inversion H; subst. exists k0. now left.
  - destruct (IH h H) as [k Hk]. exists k. now right.
Qed.

(** Whatever the admin sends, the text the composer appends stays the one
    given to the processor at start-up. *)
Lemma admin_commands_keep_processor :
  forall now w b ev,
    message_processor (fst (Admin.handle_admin_command now w b ev))
    = message_processor b.
Proof.
  intros now w b ev.
  unfold Admin.handle_admin_command, Admin.dispatch.
  destruct (negb (Admin.is_admin (admin_manager b) (sender_id ev)));
    [reflexivity|].
  destruct (MessageProcessor.text (message ev)) as [t|]; [|reflexivity].
  destruct (split_space1 (strip t)) as [head rest].
  destruct (Admin.lookup (lower head) Admin.commands) as [h|] eqn:El;
    [|reflexivity].
  destruct (lookup_in _ _ _ El) as [k Hin].
  pose proof (proj1 (Forall_forall _ _) handlers_keep_processor _ Hin) as Hk.
  cbn [snd] in Hk. rewrite Hk. reflexivity.
Qed.

(** C1, on the code: after the admin's [/update_reference NEW] the
    configuration holds "NEW", but the processor still holds the text it was
    constructed with, and a message composed afterwards ends with that old
    text, not with the configured one. *)
Theorem update_reference_not_seen_by_composer :
  let b' := fst (Admin.handle_admin_command 5 Sample.quiet_world Sample.bot0
                   Sample.update_event) in
  Config.reference_text (config b') = str "NEW"
  /\ MessageProcessor.reference_text (message_processor b')
     = Config.default_reference_text
  /\ Main.compose b' (str "hello")
     = str "hello" ++ [10; 10]%N ++ Config.default_reference_text
  /\ Main.compose b' (str "hello")
     <> str "hello" ++ [10; 10]%N ++ Config.reference_text (config b').
Proof.
  cbv zeta. repeat split; try (vm_compute; reflexivity).
  vm_compute. discriminate.
Qed.

(** ** C2: the end-to-end scenario *)

Lemma spam_message_sanitized :
  MessageProcessor.remove_all_links_str
    (str "Check this https://spam.example/x @spamuser") = str "Check this"
  /\ Main.sanitize (str "Check this https://spam.example/x @spamuser")
     = str "Check this".
Proof. split; vm_compute; reflexivity. Qed.

Lemma spam_message_approved :
  forall min_length, min_length <= 10 ->
    MessageProcessor.should_forward_message Sample.spam_message min_length
    = (true, str "Message approved for forwarding").
Proof.
  intros mn H. unfold MessageProcessor.should_forward_message.
  change (MessageProcessor.has_text Sample.spam_message) with true.
  change (MessageProcessor.has_media Sample.spam_message) with false.
  change (len (strip (MessageProcessor.text_or_empty Sample.spam_message)))
    with 43.
  cbn [negb andb].
  destruct (Z.ltb_spec 43 mn); [lia|].
  vm_compute. reflexivity.
Qed.

(** C2, as stated: the words "Check this" survive the removal of the link
    and of the mention, so the body is not empty and the text sent is not
    the reference text alone. *)
Lemma spam_message_body_not_empty :
  MessageProcessor.remove_all_links_str
    (str "Check this https://spam.example/x @spamuser") <> []
  /\ map body
         (snd (Main.process_and_forward_message 5 Sample.quiet_world Sample.bot0
                 (Sample.event_of 555 Sample.spam_message)))
     <> [Config.reference_text (config Sample.bot0)].
Proof. split; vm_compute; discriminate. Qed.

(** C2, amended: with the default configuration the message is approved,
    its sanitized body is "Check this", one message is sent whose text is
    that body, a blank line and the reference text, and [messages_forwarded]
    goes up by one. *)
Theorem spam_message_forwarded :
  forall (now t0 : time) (w : World) (me : User) (src dst adm : Z),
    get_me w = Ok me ->
    id me <> 555 ->
    (forall st, raises w st = None) ->
    let b := Main.__init__ (Config.default_config src dst adm) t0 in
    let r := Main.process_and_forward_message now w b
               (Sample.event_of 555 Sample.spam_message) in
    Main.sanitize (str "Check this https://spam.example/x @spamuser")
    = str "Check this"
    /\ snd r
       = [ {| to := dst;
              body := str "Check this" ++ [10; 10]%N
                      ++ Config.default_reference_text;
              file := None;
              button_url := str "https://t.me/your_channel" |} ]
    /\ messages_forwarded (stats (admin_manager (fst r)))
       = messages_forwarded (stats (admin_manager b)) + 1.
Proof.
  intros now t0 w me src dst adm Hme Hid Hraise b r.
  split; [exact (proj2 spam_message_sanitized)|].
  assert (Hr : r = (Main.with_admin b
                      (fun a => Admin.update_stats now a Admin.message_forwarded),
                    [ {| to := dst;
                         body := str "Check this" ++ [10; 10]%N
                                 ++ Config.default_reference_text;
                         file := None;
                         button_url := str "https://t.me/your_channel" |} ])).
  { subst r. unfold Main.process_and_forward_message, Main.forward.
    rewrite Hme. cbn [bind message Sample.event_of].
    unfold Main.from_self. cbn [Sample.spam_message Sample.text_message
                                 MessageProcessor.from_id].
    destruct (Z.eqb_spec 555 (id me)) as [E|_]; [congruence|].
    cbn [bind].
    change (Config.min_message_length (config b)) with 10.
    rewrite (spam_message_approved 10) by lia.
    cbn [negb].
    unfold Main.process_message_content.
    rewrite !Hraise.
    change (MessageProcessor.text_or_empty Sample.spam_message)
      with (str "Check this https://spam.example/x @spamuser").
    rewrite (proj2 spam_message_sanitized).
    reflexivity. }
  rewrite Hr. split; reflexivity.
Qed.

Lemma spam_message_forwarded_witness :
  snd (Main.process_and_forward_message 5 Sample.quiet_world
         (Main.__init__ (Config.default_config 100 200 42) 0)
         (Sample.event_of 555 Sample.spam_message))
  = [ {| to := 200;
         body := str "Check this" ++ [10; 10]%N ++ Config.default_reference_text;
         file := None;
         button_url := str "https://t.me/your_channel" |} ].
Proof.
  apply (spam_message_forwarded 5 0 Sample.quiet_world
           {| id := 1; username := str "relay" |} 100 200 42).
  - reflexivity.
  - vm_compute. discriminate.
  - reflexivity.
Defined.

(** ** C4: failures while a message is processed *)

Lemma log_error_effect :
  forall now a ty e,
    let entry := {| err_timestamp := now; err_type := ty; err_message := e |} in
    errors_count (stats (Admin.log_error now a ty e))
    = errors_count (stats a) + 1
    /\ messages_forwarded (stats (Admin.log_error now a ty e))
       = messages_forwarded (stats a)
    /\ messages_skipped (stats (Admin.log_error now a ty e))
       = messages_skipped (stats a)
    /\ exists older, error_log (Admin.log_error now a ty e) = older ++ [entry].
Proof.
  intros now a ty e entry.
  repeat split.
  unfold Admin.log_error. cbn [error_log set_error_log]. fold entry.
  destruct (50 <? length (error_log a ++ [entry]))%nat eqn:E.
  - apply Nat.ltb_lt in E. rewrite length_app in E. simpl in E.
    unfold last_n. rewrite skipn_app, length_app. simpl (length [entry]).
    replace (length (error_log a) + 1 - 50 - length (error_log a))%nat
      with 0%nat by lia.
    exists (skipn (length (error_log a) + 1 - 50) (error_log a)). reflexivity.
  - exists (error_log a). reflexivity.
Qed.

Lemma log_error_log :
  forall now a ty e,
    error_log (Admin.log_error now a ty e)
    = last_n 50 (error_log a
                 ++ [{| err_timestamp := now; err_type := ty; err_message := e |}]).
Proof.
  intros. unfold Admin.log_error. cbn [error_log set_error_log].
  apply capped_is_last_n.
Qed.




(** ** The matcher and the substitution *)

Section Matcher.

Variable p : char -> bool.

Lemma dropwhile_length :
  forall s, (length (dropwhile p s) + Shape.run p s = length s)%nat.
Proof.
  induction s as [|c s IH]; simpl; [reflexivity|].
  destruct (p c); simpl; lia.
Qed.

Lemma skipn_run : forall s, skipn (Shape.run p s) s = dropwhile p s.
Proof.
  induction s as [|c s IH]; simpl; [reflexivity|].
  destruct (p c); simpl; [exact IH|reflexivity].
Qed.

Lemma dropwhile_head :
  forall s d t, dropwhile p s = d :: t -> p d = false.
Proof.
  induction s as [|c s IH]; simpl; intros d t H; [discriminate|].
  destruct (p c) eqn:E.
  - exact (IH d t H).
  - inversion H; subst. exact E.
Qed.

Lemma dropwhile_fixed :
  forall s, match s with [] => True | d :: _ => p d = false end ->
            dropwhile p s = s.
Proof.
  destruct s as [|d t]; simpl; intro H; [reflexivity|].
  rewrite H. reflexivity.
Qed.

Lemma dropwhile_idem : forall s, dropwhile p (dropwhile p s) = dropwhile p s.
Proof.
  intro s. apply dropwhile_fixed.
  destruct (dropwhile p s) as [|d t] eqn:E; [exact I|].
  exact (dropwhile_head s d t E).
Qed.

Lemma dropwhile_suffix :
  forall s, exists pre, s = pre ++ dropwhile p s.
Proof.
  induction s as [|c s [pre IH]]; simpl.
  - exists []. reflexivity.
  - destruct (p c).
    + exists (c :: pre). simpl. f_equal. exact IH.
    + exists []. reflexivity.
Qed.

Lemma dropwhile_snoc :
  forall s d, p d = false -> dropwhile p (s ++ [d]) = dropwhile p s ++ [d].
Proof.
  induction s as [|c s IH]; simpl; intros d H.
  - rewrite H. reflexivity.
  - destruct (p c); [exact (IH d H)|reflexivity].
Qed.

(** A greedy repetition at the end of a pattern takes the whole run. *)
Lemma rep_all :
  forall s n,
    rep p n s (fun rest => Some rest)
    = if (n <=? Shape.run p s)%nat then Some (dropwhile p s) else None.
Proof.
  induction s as [|c s IH]; intro n; simpl.
  - destruct n; reflexivity.
  - destruct (p c) eqn:E.
    + rewrite IH. destruct n as [|n]; simpl.
      * reflexivity.
      * destruct (n <=? Shape.run p s)%nat; reflexivity.
    + destruct n; reflexivity.
Qed.

Lemma match_at_rep :
  forall s n,
    match_at (Rep p n) s
    = if (n <=? Shape.run p s)%nat then Some (Shape.run p s) else None.
Proof.
  intros s n. unfold match_at. simpl. rewrite rep_all.
  destruct (n <=? Shape.run p s)%nat; [|reflexivity].
  f_equal. pose proof (dropwhile_length s). lia.
Qed.

End Matcher.

Section Substitution.

Variable r : regex.
Variable repl : pystr -> pystr.

Lemma sub_from_skip :
  forall s n, sub_from r repl n s = sub r repl (skipn n s).
Proof.
  induction s as [|c s IH]; intro n.
  - destruct n; reflexivity.
  - destruct n as [|n]; [reflexivity|].
    simpl. apply IH.
Qed.

Lemma sub_cons_match :
  forall c s n,
    match_at r (c :: s) = Some (S n) ->
    sub r repl (c :: s) = repl (firstn (S n) (c :: s)) ++ sub r repl (skipn n s).
Proof.
  intros c s n H. unfold sub at 1. simpl. rewrite H.
  rewrite sub_from_skip. reflexivity.
Qed.

Lemma sub_cons_nomatch :
  forall c s,
    match_at r (c :: s) = None ->
    sub r repl (c :: s) = c :: sub r repl s.
Proof.
  intros c s H. unfold sub. simpl. rewrite H. reflexivity.
Qed.

End Substitution.

(** *** A match consumes at least the shortest text of its pattern *)

Lemma rep_consumes :
  forall (p : char -> bool) (s : pystr) (n : nat)
         (k : pystr -> option pystr) (x : pystr),
    rep p n s k = Some x ->
    exists m, (n <= m <= length s)%nat /\ k (skipn m s) = Some x.
Proof.
  intros p. induction s as [|c s IH]; intros n k x H; simpl in H.
  - destruct n; [|discriminate]. exists 0%nat. split; [simpl; lia|exact H].
  - assert (Hzero : match n with O => k (c :: s) | S _ => None end = Some x ->
                    exists m, (n <= m <= length (c :: s))%nat
                              /\ k (skipn m (c :: s)) = Some x).
    { destruct n; [|discriminate]. intro Hk.
      exists 0%nat. split; [simpl; lia|exact Hk]. }
    destruct (p c); [|exact (Hzero H)].
    destruct (rep p (pred n) s k) as [y|] eqn:E; [|exact (Hzero H)].
    inversion H; subst y.
    destruct (IH _ _ _ E) as [m [Hm Hk]].
    exists (S m). split; [simpl; lia|exact Hk].
Qed.

Lemma rmatch_consumes :
  forall (r : regex) (s : pystr) (k : pystr -> option pystr) (x : pystr),
    rmatch r s k = Some x ->
    exists m, (min_len r <= m <= length s)%nat /\ k (skipn m s) = Some x.
Proof.
  induction r as [|p|a IHa b IHb|a IHa b IHb|a IHa|p n];
    intros s k x H; simpl in H.
  - exists 0%nat. split; [simpl; lia|exact H].
  - destruct s as [|c s]; [discriminate|].
    destruct (p c); [|discriminate].
    exists 1%nat. split; [simpl; lia|exact H].
  - destruct (IHa _ _ _ H) as [m1 [Hm1 H1]].
    destruct (IHb _ _ _ H1) as [m2 [Hm2 H2]].
    rewrite length_skipn in Hm2. rewrite skipn_skipn in H2.
    exists (m2 + m1)%nat. split; [simpl; lia|exact H2].
  - destruct (rmatch a s k) as [y|] eqn:E.
    + inversion H; subst y.
      destruct (IHa _ _ _ E) as [m [Hm Hk]].
      exists m. split; [simpl; lia|exact Hk].
    + destruct (IHb _ _ _ H) as [m [Hm Hk]].
      exists m. split; [simpl; lia|exact Hk].
  - destruct (rmatch a s k) as [y|] eqn:E.
    + inversion H; subst y.
      destruct (IHa _ _ _ E) as [m [Hm Hk]].
      exists m. split; [simpl; lia|exact Hk].
    + exists 0%nat. split; [simpl; lia|exact H].
  - exact (rep_consumes p s n k x H).
Qed.

Lemma match_at_min_len :
  forall (r : regex) (s : pystr) (n : nat),
    match_at r s = Some n -> (min_len r <= n <= length s)%nat.
Proof.
  intros r s n H. unfold match_at in H.
  destruct (rmatch r s (fun rest => Some rest)) as [rest|] eqn:E;
    [|discriminate].
  destruct (rmatch_consumes r s _ rest E) as [m [Hm Hk]].
  inversion Hk; subst rest. inversion H; subst n.
  rewrite length_skipn. lia.
Qed.

(** No pattern of [remove_all_links] or of [clean_text_formatting] matches
    the empty text. *)
Lemma patterns_consume :
  Forall (fun r => (1 <= min_len r)%nat)
         (MessageProcessor.url_patterns ++ MessageProcessor.telegram_patterns
          ++ MessageProcessor.channel_patterns
          ++ [MessageProcessor.whitespace_run; MessageProcessor.blank_lines;
              Rep MessageProcessor.emoji 4; Rep (chr 33%N) 4; Rep (chr 63%N) 4;
              Rep (chr 46%N) 4; Rep is_upper_ascii 4]).
Proof. repeat constructor; vm_compute; lia. Qed.

(** *** The whitespace substitution *)

Lemma sub_whitespace_space :
  forall repl c s,
    is_space c = true ->
    sub MessageProcessor.whitespace_run repl (c :: s)
    = repl (firstn (S (Shape.run is_space s)) (c :: s))
      ++ sub MessageProcessor.whitespace_run repl (dropwhile is_space s).
Proof.
  intros repl c s H.
  rewrite (sub_cons_match _ repl c s (Shape.run is_space s)).
  - rewrite skipn_run. reflexivity.
  - unfold MessageProcessor.whitespace_run. rewrite match_at_rep.
    simpl. rewrite H. reflexivity.
Qed.

Lemma sub_whitespace_other :
  forall repl c s,
    is_space c = false ->
    sub MessageProcessor.whitespace_run repl (c :: s)
    = c :: sub MessageProcessor.whitespace_run repl s.
Proof.
  intros repl c s H. apply sub_cons_nomatch.
  unfold MessageProcessor.whitespace_run. rewrite match_at_rep.
  simpl. rewrite H. reflexivity.
Qed.

Lemma single_spaced_tail :
  forall c s, Shape.single_spaced (c :: s) = true -> Shape.single_spaced s = true.
Proof.
  intros c s H. simpl in H. apply andb_true_iff in H. tauto.
Qed.

(** What the substitution of [\s+] by one space produces. *)
Lemma sub_whitespace_single_spaced :
  forall s,
    Shape.single_spaced (sub MessageProcessor.whitespace_run (const [32%N]) s)
    = true.
Proof.
  assert (H : forall n s, (length s <= n)%nat ->
              Shape.single_spaced
                (sub MessageProcessor.whitespace_run (const [32%N]) s) = true).
  { induction n as [|n IH]; intros s Hl.
    - destruct s; [reflexivity|simpl in Hl; lia].
    - destruct s as [|c s]; [reflexivity|]. simpl in Hl.
      destruct (is_space c) eqn:E.
      + rewrite sub_whitespace_space by exact E.
        unfold const at 1. cbn [app].
        assert (Hd : (length (dropwhile is_space s) <= n)%nat)
          by (pose proof (dropwhile_length is_space s); lia).
        pose proof (IH _ Hd) as Hs.
        destruct (dropwhile is_space s) as [|d t] eqn:Ed.
        * reflexivity.
        * pose proof (dropwhile_head is_space s d t Ed) as Hnd.
          rewrite sub_whitespace_other in * by exact Hnd.
          cbn [Shape.single_spaced] in *.
          change (is_space 32%N) with true. cbv iota.
          rewrite Hnd in *. rewrite N.eqb_refl. exact Hs.
      + rewrite sub_whitespace_other by exact E.
        cbn [Shape.single_spaced]. rewrite E. cbn [andb].
        apply IH. lia. }
  intro s. exact (H (length s) s (Nat.le_refl _)).
Qed.

(** On such a text the substitution changes nothing. *)
Lemma sub_whitespace_fixed :
  forall s,
    Shape.single_spaced s = true ->
    sub MessageProcessor.whitespace_run (const [32%N]) s = s.
Proof.
  induction s as [|c s IH]; intro H; [reflexivity|].
  pose proof (single_spaced_tail c s H) as Ht.
  destruct (is_space c) eqn:E.
  - simpl in H. rewrite E in H.
    apply andb_true_iff in H. destruct H as [H _].
    apply andb_true_iff in H. destruct H as [Hc Hn].
    apply N.eqb_eq in Hc. subst c.
    rewrite sub_whitespace_space by exact E.
    rewrite dropwhile_fixed.
    + unfold const. cbn [app]. f_equal. exact (IH Ht).
    + destruct s as [|d t]; [exact I|].
      apply negb_true_iff. exact Hn.
  - rewrite sub_whitespace_other by exact E. f_equal. exact (IH Ht).
Qed.

(** *** The blank-line substitution and [strip] *)

Lemma single_spaced_no_newline :
  forall s, Shape.single_spaced s = true -> Forall (fun c => c <> 10%N) s.
Proof.
  induction s as [|c s IH]; intro H; constructor.
  - intro Ec. subst c. simpl in H. discriminate.
  - apply IH. exact (single_spaced_tail c s H).
Qed.

Lemma sub_blank_lines_fixed :
  forall repl s,
    Forall (fun c => c <> 10%N) s ->
    sub MessageProcessor.blank_lines repl s = s.
Proof.
  intros repl s H. induction H as [|c s Hc _ IH]; [reflexivity|].
  rewrite sub_cons_nomatch; [f_equal; exact IH|].
  unfold match_at, MessageProcessor.blank_lines. simpl. unfold chr.
  destruct (N.eqb_spec c 10); [contradiction|reflexivity].
Qed.

Lemma single_spaced_prefix :
  forall a b, Shape.single_spaced (a ++ b) = true -> Shape.single_spaced a = true.
Proof.
  induction a as [|c a IH]; intros b H; [reflexivity|].
  simpl in H. apply andb_true_iff in H. destruct H as [Hc Ht].
  simpl. rewrite (IH b Ht), andb_true_r.
  destruct (is_space c); [|reflexivity].
  apply andb_true_iff in Hc. destruct Hc as [Hc Hn]. rewrite Hc.
  destruct a; [reflexivity|exact Hn].
Qed.

Lemma single_spaced_suffix :
  forall a b, Shape.single_spaced (a ++ b) = true -> Shape.single_spaced b = true.
Proof.
  induction a as [|c a IH]; intros b H; [exact H|].
  apply IH. exact (single_spaced_tail c (a ++ b) H).
Qed.

Lemma rstrip_prefix : forall s, exists post, s = rstrip s ++ post.
Proof.
  intro s. unfold rstrip.
  destruct (dropwhile_suffix is_space (rev s)) as [pre H].
  exists (rev pre).
  rewrite <- rev_app_distr, <- H, rev_involutive. reflexivity.
Qed.

Lemma single_spaced_strip :
  forall s, Shape.single_spaced s = true -> Shape.single_spaced (strip s) = true.
Proof.
  intros s H. unfold strip.
  destruct (rstrip_prefix (lstrip s)) as [post Hp].
  apply (single_spaced_prefix _ post). rewrite <- Hp.
  unfold lstrip.
  destruct (dropwhile_suffix is_space s) as [pre Hs].
  apply (single_spaced_suffix pre). rewrite <- Hs. exact H.
Qed.

Lemma rstrip_cons :
  forall d t, is_space d = false -> rstrip (d :: t) = d :: rstrip t.
Proof.
  intros d t H. unfold rstrip. simpl.
  rewrite dropwhile_snoc by exact H.
  rewrite rev_app_distr. reflexivity.
Qed.

Lemma strip_idem : forall s, strip (strip s) = strip s.
Proof.
  intro s. unfold strip.
  assert (Hl : lstrip (rstrip (lstrip s)) = rstrip (lstrip s)).
  { remember (lstrip s) as u eqn:Eu. unfold lstrip in Eu.
    destruct u as [|d t]; [reflexivity|].
    pose proof (dropwhile_head is_space s d t (eq_sym Eu)) as Hd.
    rewrite rstrip_cons by exact Hd.
    unfold lstrip. simpl. rewrite Hd. reflexivity. }
  rewrite Hl. unfold rstrip.
  rewrite rev_involutive, dropwhile_idem. reflexivity.
Qed.

(** The clean-up that ends [remove_all_links] leaves its own results as
    they are. *)
Lemma clean_whitespace_shape :
  forall s,
    Shape.single_spaced (MessageProcessor.clean_whitespace s) = true
    /\ strip (MessageProcessor.clean_whitespace s)
       = MessageProcessor.clean_whitespace s.
Proof.
  intro s. unfold MessageProcessor.clean_whitespace.
  pose proof (sub_whitespace_single_spaced s) as H.
  rewrite (sub_blank_lines_fixed _ _ (single_spaced_no_newline _ H)).
  split; [exact (single_spaced_strip _ H)|apply strip_idem].
Qed.

Lemma clean_whitespace_fixed :
  forall s,
    Shape.single_spaced s = true -> strip s = s ->
    MessageProcessor.clean_whitespace s = s.
Proof.
  intros s H Hs. unfold MessageProcessor.clean_whitespace.
  rewrite (sub_whitespace_fixed s H).
  rewrite (sub_blank_lines_fixed _ _ (single_spaced_no_newline _ H)).
  exact Hs.
Qed.

Lemma remove_all_links_str_shape :
  forall s,
    Shape.single_spaced (MessageProcessor.remove_all_links_str s) = true
    /\ strip (MessageProcessor.remove_all_links_str s)
       = MessageProcessor.remove_all_links_str s.
Proof.
  intro s. destruct s as [|c s].
  - split; reflexivity.
  - exact (clean_whitespace_shape (MessageProcessor.remove_links (c :: s))).
Qed.

(* ================================================================== *)
(** * Further properties of the code *)

(** ** Lengths *)

Lemma dropwhile_shorter :
  forall p s, (length (dropwhile p s) <= length s)%nat.
Proof. intros p s. pose proof (dropwhile_length p s). lia. Qed.

Lemma strip_shorter : forall s, (length (strip s) <= length s)%nat.
Proof.
  intro s. unfold strip, rstrip, lstrip.
  rewrite length_rev.
  pose proof (dropwhile_shorter is_space (rev (dropwhile is_space s))) as H1.
  pose proof (dropwhile_shorter is_space s) as H2.
  rewrite length_rev in H1. lia.
Qed.

(** A substitution whose replacements are no longer than the matches does
    not lengthen the text. *)
Lemma sub_shorter :
  forall (r : regex) (repl : pystr -> pystr),
    (forall m, (Nat.max 1 (min_len r) <= length m)%nat ->
               (length (repl m) <= length m)%nat) ->
    forall s, (length (sub r repl s) <= length s)%nat.
Proof.
  intros r repl Hrepl.
  assert (H : forall s n, (n <= length s)%nat ->
                          (length (sub_from r repl n s) + n <= length s)%nat).
  { induction s as [|c s IH]; intros n Hn.
    - simpl in *. destruct n; simpl; lia.
    - destruct n as [|n].
      + cbn [sub_from].
        destruct (match_at r (c :: s)) as [[|m]|] eqn:E.
        * simpl. pose proof (IH 0%nat). lia.
        * pose proof (match_at_min_len r (c :: s) (S m) E) as Hm.
          simpl in Hm.
          assert (Hl : length (firstn (S m) (c :: s)) = S m)
            by (rewrite length_firstn; simpl; lia).
          pose proof (Hrepl (firstn (S m) (c :: s))) as Hr.
          rewrite Hl in Hr.
          rewrite length_app.
          assert (Hm' : (m <= length s)%nat) by lia.
          pose proof (IH m Hm'). simpl (length (c :: s)). lia.
        * simpl. pose proof (IH 0%nat). lia.
      + cbn [sub_from]. simpl in Hn.
        assert (Hn' : (n <= length s)%nat) by lia.
        pose proof (IH n Hn'). simpl. lia. }
  intro s. pose proof (H s 0%nat). unfold sub. lia.
Qed.

Lemma remove_patterns_shorter :
  forall ps s, (length (MessageProcessor.remove_patterns ps s) <= length s)%nat.
Proof.
  unfold MessageProcessor.remove_patterns.
  induction ps as [|r ps IH]; intro s; simpl; [lia|].
  etransitivity; [apply IH|].
  apply sub_shorter. intros m _. unfold const. simpl. lia.
Qed.

Lemma clean_whitespace_shorter :
  forall s, (length (MessageProcessor.clean_whitespace s) <= length s)%nat.
Proof.
  intro s. unfold MessageProcessor.clean_whitespace.
  etransitivity; [apply strip_shorter|].
  etransitivity; [apply sub_shorter|apply sub_shorter].
  - intros m Hm. simpl in Hm. unfold const. simpl. lia.
  - intros m Hm. simpl in Hm. unfold const. simpl. lia.
Qed.

Lemma remove_all_links_never_longer_aux :
  forall s : pystr,
    (length (MessageProcessor.remove_all_links_str s) <= length s)%nat.
Proof.
  intro s. destruct s as [|c s]; [simpl; lia|].
  unfold MessageProcessor.remove_all_links_str, MessageProcessor.remove_links.
  etransitivity; [apply clean_whitespace_shorter|].
  etransitivity; [apply remove_patterns_shorter|].
  etransitivity; [apply remove_patterns_shorter|].
  apply remove_patterns_shorter.
Qed.

Lemma last3_length : forall m, (length (MessageProcessor.last3 m) <= 3)%nat.
Proof.
  intro m. unfold MessageProcessor.last3. destruct (rev m); simpl; lia.
Qed.

Lemma clean_text_formatting_never_longer_aux :
  forall s : pystr,
    (length (MessageProcessor.clean_text_formatting s) <= length s)%nat.
Proof.
  intro s. destruct s as [|c s]; [simpl; lia|].
  unfold MessageProcessor.clean_text_formatting.
  etransitivity; [apply strip_shorter|].
  etransitivity;
    [apply sub_shorter; intros m Hm; simpl in Hm; unfold const; simpl; lia|].
  etransitivity;
    [apply sub_shorter; intros m Hm; simpl in Hm;
     rewrite length_firstn; lia|].
  etransitivity;
    [apply sub_shorter; intros m Hm; simpl in Hm; unfold const; simpl; lia|].
  etransitivity;
    [apply sub_shorter; intros m Hm; simpl in Hm; unfold const; simpl; lia|].
  etransitivity;
    [apply sub_shorter; intros m Hm; simpl in Hm; unfold const; simpl; lia|].
  apply sub_shorter. intros m Hm. simpl in Hm.
  pose proof (last3_length m). lia.
Qed.

(** X1: neither [remove_all_links] nor [clean_text_formatting] returns a
    text longer than its argument, and so neither does their composition in
    [process_message_content]. *)
Theorem remove_all_links_never_longer :
  forall s : pystr,
    (length (MessageProcessor.remove_all_links_str s) <= length s)%nat
    /\ (length (MessageProcessor.clean_text_formatting s) <= length s)%nat
    /\ (length (Main.sanitize s) <= length s)%nat.
Proof.
  intro s. split; [apply remove_all_links_never_longer_aux|].
  split; [apply clean_text_formatting_never_longer_aux|].
  unfold Main.sanitize.
  etransitivity; [apply clean_text_formatting_never_longer_aux|].
  apply remove_all_links_never_longer_aux.
Qed.

(** ** Whitespace in the results *)

Lemma single_spaced_spaces :
  forall s c, Shape.single_spaced s = true -> In c s -> is_space c = true ->
              c = 32%N.
Proof.
  induction s as [|a s IH]; intros c H Hin Hc; [contradiction|].
  destruct Hin as [->|Hin].
  - simpl in H. rewrite Hc in H.
    apply andb_true_iff in H. destruct H as [H _].
    apply andb_true_iff in H. destruct H as [H _].
    apply N.eqb_eq. exact H.
  - exact (IH c (single_spaced_tail a s H) Hin Hc).
Qed.

Lemma single_spaced_no_pair :
  forall s, Shape.single_spaced s = true ->
            Adjacent.no_pair is_space is_space s = true.
Proof.
  induction s as [|a s IH]; intro H; [reflexivity|].
  pose proof (IH (single_spaced_tail a s H)) as Ht.
  destruct s as [|b t]; [reflexivity|].
  change (Adjacent.no_pair is_space is_space (a :: b :: t))
    with (negb (is_space a && is_space b)
          && Adjacent.no_pair is_space is_space (b :: t)).
  rewrite Ht, andb_true_r.
  cbn [Shape.single_spaced] in H.
  destruct (is_space a); [|reflexivity].
  apply andb_true_iff in H. destruct H as [H _].
  apply andb_true_iff in H. destruct H as [_ H].
  simpl. exact H.
Qed.

Lemma lstrip_fixed_head :
  forall c t, lstrip (c :: t) = c :: t -> is_space c = false.
Proof.
  intros c t H. unfold lstrip in H. simpl in H.
  destruct (is_space c); [|reflexivity].
  pose proof (dropwhile_shorter is_space t) as Hl.
  rewrite H in Hl. simpl in Hl. lia.
Qed.

Lemma strip_fixed_parts :
  forall s, strip s = s -> lstrip s = s /\ rstrip s = s.
Proof.
  intros s H. unfold strip in H.
  assert (Hl : lstrip s = s).
  { destruct (dropwhile_suffix is_space s) as [pre Hp]. fold (lstrip s) in Hp.
    assert (Hlen : (length s <= length (lstrip s))%nat).
    { rewrite <- H at 1. unfold rstrip. rewrite length_rev.
      pose proof (dropwhile_shorter is_space (rev (lstrip s))) as Hd.
      rewrite length_rev in Hd. exact Hd. }
    destruct pre as [|x pre]; [symmetry; exact Hp|].
    apply (f_equal (@length _)) in Hp.
    rewrite length_app in Hp. simpl in Hp. lia. }
  split; [exact Hl|]. rewrite Hl in H. exact H.
Qed.

Lemma rstrip_fixed_last :
  forall t c, rstrip (t ++ [c]) = t ++ [c] -> is_space c = false.
Proof.
  intros t c H. unfold rstrip in H.
  rewrite rev_app_distr in H. simpl in H.
  destruct (is_space c); [|reflexivity].
  apply (f_equal (@length _)) in H.
  rewrite length_rev, length_app in H. simpl in H.
  pose proof (dropwhile_shorter is_space (rev t)) as Hd.
  rewrite length_rev in Hd. lia.
Qed.

(** What a text that is single-spaced and stripped looks like. *)
Lemma tidy_text :
  forall o,
    Shape.single_spaced o = true -> strip o = o ->
    (forall c, In c o -> is_space c = true -> c = 32%N)
    /\ Adjacent.no_pair is_space is_space o = true
    /\ (forall c t, o = c :: t -> is_space c = false)
    /\ (forall t c, o = t ++ [c] -> is_space c = false).
Proof.
  intros o Hs Hst.
  destruct (strip_fixed_parts o Hst) as [Hl Hr].
  split; [intros c; exact (single_spaced_spaces o c Hs)|].
  split; [exact (single_spaced_no_pair o Hs)|].
  split.
  - intros c t E. subst o. exact (lstrip_fixed_head c t Hl).
  - intros t c E. subst o. exact (rstrip_fixed_last t c Hr).
Qed.

(** X2: in the result of [remove_all_links] every whitespace character is
    U+0020, no two of them are adjacent, and the text neither begins nor
    ends with one. *)
Theorem remove_all_links_whitespace :
  forall s : pystr,
    let o := MessageProcessor.remove_all_links_str s in
    (forall c, In c o -> is_space c = true -> c = 32%N)
    /\ Adjacent.no_pair is_space is_space o = true
    /\ (forall c t, o = c :: t -> is_space c = false)
    /\ (forall t c, o = t ++ [c] -> is_space c = false).
Proof.
  intros s o. subst o.
  destruct (remove_all_links_str_shape s) as [Hs Hst].
  exact (tidy_text _ Hs Hst).
Qed.

(** X3: in the result of [clean_text_formatting], too, every whitespace
    character is U+0020, no two of them are adjacent and none stands at
    either end, so that no line break or tab is left in it. *)
Theorem clean_text_formatting_whitespace :
  forall s : pystr,
    let o := MessageProcessor.clean_text_formatting s in
    (forall c, In c o -> is_space c = true -> c = 32%N)
    /\ Adjacent.no_pair is_space is_space o = true
    /\ (forall c t, o = c :: t -> is_space c = false)
    /\ (forall t c, o = t ++ [c] -> is_space c = false).
Proof.
  intros s o. subst o. destruct s as [|c s].
  - apply tidy_text; reflexivity.
  - unfold MessageProcessor.clean_text_formatting.
    apply tidy_text.
    + apply single_spaced_strip. apply sub_whitespace_single_spaced.
    + apply strip_idem.
Qed.

(** ** No mention survives [remove_all_links] *)

Section Pairs.

Variables A B : char -> bool.

Lemma no_pair_cons :
  forall x y t,
    Adjacent.no_pair A B (x :: y :: t)
    = negb (A x && B y) && Adjacent.no_pair A B (y :: t).
Proof. reflexivity. Qed.

Lemma no_pair_tail :
  forall x t, Adjacent.no_pair A B (x :: t) = true -> Adjacent.no_pair A B t = true.
Proof.
  intros x [|y t] H; [reflexivity|].
  rewrite no_pair_cons in H. apply andb_true_iff in H. tauto.
Qed.

Lemma no_pair_suffix :
  forall pre t, Adjacent.no_pair A B (pre ++ t) = true -> Adjacent.no_pair A B t = true.
Proof.
  induction pre as [|x pre IH]; intros t H; [exact H|].
  apply IH. exact (no_pair_tail x (pre ++ t) H).
Qed.

Lemma no_pair_prefix :
  forall a b, Adjacent.no_pair A B (a ++ b) = true -> Adjacent.no_pair A B a = true.
Proof.
  induction a as [|x a IH]; intros b H; [reflexivity|].
  destruct a as [|y a]; [reflexivity|].
  change ((x :: y :: a) ++ b) with (x :: y :: (a ++ b)) in H.
  rewrite no_pair_cons in *.
  apply andb_true_iff in H. destruct H as [H1 H2].
  rewrite H1. exact (IH b H2).
Qed.

Lemma no_pair_skipn :
  forall n s, Adjacent.no_pair A B s = true ->
              Adjacent.no_pair A B (skipn n s) = true.
Proof.
  intros n s H. apply (no_pair_suffix (firstn n s)).
  rewrite firstn_skipn. exact H.
Qed.

(** A first character outside [A] adds no pair. *)
Lemma no_pair_free_left :
  forall x t, A x = false ->
              Adjacent.no_pair A B t = true -> Adjacent.no_pair A B (x :: t) = true.
Proof.
  intros x [|y t] Hx H; [reflexivity|].
  rewrite no_pair_cons, Hx, H. reflexivity.
Qed.

(** Nor does one in front of a text that does not begin in [B]. *)
Lemma no_pair_free_right :
  forall x t,
    match t with [] => True | y :: _ => B y = false end ->
    Adjacent.no_pair A B t = true -> Adjacent.no_pair A B (x :: t) = true.
Proof.
  intros x [|y t] Hy H; [reflexivity|].
  rewrite no_pair_cons, Hy, H, andb_false_r. reflexivity.
Qed.

Lemma strip_no_pair :
  forall s, Adjacent.no_pair A B s = true -> Adjacent.no_pair A B (strip s) = true.
Proof.
  intros s H. unfold strip.
  destruct (rstrip_prefix (lstrip s)) as [post Hp].
  apply (no_pair_prefix _ post). rewrite <- Hp.
  destruct (dropwhile_suffix is_space s) as [pre Hs].
  apply (no_pair_suffix pre). unfold lstrip. rewrite <- Hs. exact H.
Qed.

Lemma sub_cons_zero :
  forall r repl c s,
    match_at r (c :: s) = Some 0%nat ->
    sub r repl (c :: s) = c :: sub r repl s.
Proof.
  intros r repl c s H. unfold sub. simpl. rewrite H. reflexivity.
Qed.

(** Removing the matches of a pattern whose matches begin in [B] brings no
    character of [A] in front of one of [B]. *)
Lemma sub_remove_no_pair :
  forall r,
    Adjacent.starts_in B r ->
    forall s,
      (Adjacent.no_pair A B s = true ->
       Adjacent.no_pair A B (sub r (const []) s) = true)
      /\ (forall x, Adjacent.no_pair A B (x :: s) = true ->
                    Adjacent.no_pair A B (x :: sub r (const []) s) = true).
Proof.
  intros r Hstart.
  assert (H : forall n s, (length s <= n)%nat ->
      (Adjacent.no_pair A B s = true ->
       Adjacent.no_pair A B (sub r (const []) s) = true)
      /\ (forall x, Adjacent.no_pair A B (x :: s) = true ->
                    Adjacent.no_pair A B (x :: sub r (const []) s) = true)).
  { induction n as [|n IH]; intros s Hl.
    - destruct s; [|simpl in Hl; lia]. split; auto.
    - destruct s as [|c s]; [split; auto|]. simpl in Hl.
      assert (Hs : (length s <= n)%nat) by lia.
      assert (Hplain :
        sub r (const []) (c :: s) = c :: sub r (const []) s ->
        (Adjacent.no_pair A B (c :: s) = true ->
         Adjacent.no_pair A B (sub r (const []) (c :: s)) = true)
        /\ (forall x, Adjacent.no_pair A B (x :: c :: s) = true ->
              Adjacent.no_pair A B (x :: sub r (const []) (c :: s)) = true)).
      { intro E. rewrite E.
        assert (H1 : Adjacent.no_pair A B (c :: s) = true ->
                     Adjacent.no_pair A B (c :: sub r (const []) s) = true)
          by (apply (proj2 (IH s Hs))).
        split; [exact H1|].
        intros x Hx. rewrite no_pair_cons in *.
        apply andb_true_iff in Hx. destruct Hx as [Hx1 Hx2].
        rewrite Hx1. exact (H1 Hx2). }
      destruct (match_at r (c :: s)) as [[|m]|] eqn:E.
      + apply Hplain. exact (sub_cons_zero r _ c s E).
      + pose proof (match_at_min_len r (c :: s) (S m) E) as Hm. simpl in Hm.
        assert (Hc : B c = true).
        { unfold match_at in E.
          destruct (rmatch r (c :: s) (fun rest => Some rest)) as [rest|] eqn:Er;
            [|discriminate].
          destruct (Hstart _ _ _ Er) as (c0 & s0 & E0 & Hb).
          inversion E0; subst. exact Hb. }
        rewrite (sub_cons_match r (const []) c s m E).
        unfold const at 1 3. cbn [app].
        assert (Hk : (length (skipn m s) <= n)%nat)
          by (rewrite length_skipn; lia).
        assert (Hrest : Adjacent.no_pair A B (c :: s) = true ->
                        Adjacent.no_pair A B (sub r (const []) (skipn m s)) = true).
        { intro Hcs. apply (proj1 (IH _ Hk)).
          apply no_pair_skipn. exact (no_pair_tail c s Hcs). }
        split; [exact Hrest|].
        intros x Hx. rewrite no_pair_cons in Hx.
        apply andb_true_iff in Hx. destruct Hx as [Hx1 Hx2].
        rewrite Hc, andb_true_r in Hx1. apply negb_true_iff in Hx1.
        apply no_pair_free_left; [exact Hx1|exact (Hrest Hx2)].
      + apply Hplain. exact (sub_cons_nomatch r _ c s E). }
  intro s. exact (H (length s) s (Nat.le_refl _)).
Qed.

(** Replacing matches by one character outside [A] and [B] brings none
    either. *)
Lemma sub_replace_no_pair :
  forall r z,
    A z = false -> B z = false ->
    forall s,
      (Adjacent.no_pair A B s = true ->
       Adjacent.no_pair A B (sub r (const [z]) s) = true)
      /\ (forall x, Adjacent.no_pair A B (x :: s) = true ->
                    Adjacent.no_pair A B (x :: sub r (const [z]) s) = true).
Proof.
  intros r z Haz Hbz.
  assert (H : forall n s, (length s <= n)%nat ->
      (Adjacent.no_pair A B s = true ->
       Adjacent.no_pair A B (sub r (const [z]) s) = true)
      /\ (forall x, Adjacent.no_pair A B (x :: s) = true ->
                    Adjacent.no_pair A B (x :: sub r (const [z]) s) = true)).
  { induction n as [|n IH]; intros s Hl.
    - destruct s; [|simpl in Hl; lia]. split; auto.
    - destruct s as [|c s]; [split; auto|]. simpl in Hl.
      assert (Hs : (length s <= n)%nat) by lia.
      assert (Hplain :
        sub r (const [z]) (c :: s) = c :: sub r (const [z]) s ->
        (Adjacent.no_pair A B (c :: s) = true ->
         Adjacent.no_pair A B (sub r (const [z]) (c :: s)) = true)
        /\ (forall x, Adjacent.no_pair A B (x :: c :: s) = true ->
              Adjacent.no_pair A B (x :: sub r (const [z]) (c :: s)) = true)).
      { intro E. rewrite E.
        assert (H1 : Adjacent.no_pair A B (c :: s) = true ->
                     Adjacent.no_pair A B (c :: sub r (const [z]) s) = true)
          by (apply (proj2 (IH s Hs))).
        split; [exact H1|].
        intros x Hx. rewrite no_pair_cons in *.
        apply andb_true_iff in Hx. destruct Hx as [Hx1 Hx2].
        rewrite Hx1. exact (H1 Hx2). }
      destruct (match_at r (c :: s)) as [[|m]|] eqn:E.
      + apply Hplain. exact (sub_cons_zero r _ c s E).
      + pose proof (match_at_min_len r (c :: s) (S m) E) as Hm. simpl in Hm.
        rewrite (sub_cons_match r (const [z]) c s m E).
        unfold const at 1 3. cbn [app].
        assert (Hk : (length (skipn m s) <= n)%nat)
          by (rewrite length_skipn; lia).
        assert (Hrest : Adjacent.no_pair A B (c :: s) = true ->
                        Adjacent.no_pair A B
                          (z :: sub r (const [z]) (skipn m s)) = true).
        { intro Hcs. apply no_pair_free_left; [exact Haz|].
          apply (proj1 (IH _ Hk)).
          apply no_pair_skipn. exact (no_pair_tail c s Hcs). }
        split; [exact Hrest|].
        intros x Hx. rewrite no_pair_cons, Hbz, andb_false_r.
        exact (Hrest (no_pair_tail x (c :: s) Hx)).
      + apply Hplain. exact (sub_cons_nomatch r _ c s E). }
  intro s. exact (H (length s) s (Nat.le_refl _)).
Qed.

End Pairs.

Lemma match_at_mention :
  forall c s,
    match_at Adjacent.mention (c :: s)
    = if (c =? 64)%N && (1 <=? Shape.run ci_word s)%nat
      then Some (S (Shape.run ci_word s)) else None.
Proof.
  intros c s. unfold match_at, Adjacent.mention.
  change (rmatch (seq [lit "@"; Rep ci_word 1]) (c :: s) (fun rest => Some rest))
    with (if (c =? 64)%N then rep ci_word 1 s (fun rest => Some rest) else None).
  destruct (c =? 64)%N; [|reflexivity].
  rewrite rep_all. cbn [andb].
  destruct (1 <=? Shape.run ci_word s)%nat; [|reflexivity].
  f_equal. pose proof (dropwhile_length ci_word s).
  change (length (c :: s)) with (S (length s)). lia.
Qed.

Lemma run_zero_head :
  forall p s, Shape.run p s = 0%nat ->
              match s with [] => True | y :: _ => p y = false end.
Proof.
  intros p [|y s] H; [exact I|].
  simpl in H. destruct (p y); [discriminate|reflexivity].
Qed.

(** After the matches of "@" followed by a run of [B] are removed, no "@"
    stands before a character of [B]. *)
Lemma sub_at_sign_no_pair :
  forall (r : regex) (B : char -> bool),
    (forall c s,
       match_at r (c :: s)
       = if (c =? 64)%N && (1 <=? Shape.run B s)%nat
         then Some (S (Shape.run B s)) else None) ->
    forall s, Adjacent.no_pair (chr 64%N) B (sub r (const []) s) = true.
Proof.
  intros r B match_at_mention.
  set (A := chr 64%N).
  set (f := sub r (const [])).
  set (headless := fun t : pystr =>
                     match t with [] => True | y :: _ => B y = false end).
  assert (H : forall n s, (length s <= n)%nat ->
      Adjacent.no_pair A B (f s) = true
      /\ (forall x,
            match s with [] => True | c :: _ => negb (A x && B c) = true end ->
            Adjacent.no_pair A B (x :: f s) = true)
      /\ (headless s -> headless (f s))).
  { induction n as [|n IH]; intros s Hl.
    - destruct s; [|simpl in Hl; lia]. repeat split; auto.
    - destruct s as [|c s]; [repeat split; auto|]. simpl in Hl.
      assert (Hs : (length s <= n)%nat) by lia.
      pose proof (match_at_mention c s) as Em.
      destruct ((c =? 64)%N && (1 <=? Shape.run B s)%nat) eqn:Ec.
      + (* a mention starts here *)
        apply andb_true_iff in Ec. destruct Ec as [Ec _].
        unfold f at 1 2 3.
        rewrite (sub_cons_match _ (const []) c s _ Em).
        unfold const at 1 3 5. cbn [app]. rewrite skipn_run. fold f.
        assert (Hk : (length (dropwhile B s) <= n)%nat)
          by (pose proof (dropwhile_shorter B s); lia).
        destruct (IH _ Hk) as (I1 & _ & I3).
        assert (Hh : headless (f (dropwhile B s))).
        { apply I3. unfold headless.
          destruct (dropwhile B s) as [|d t] eqn:Ed; [exact I|].
          exact (dropwhile_head B s d t Ed). }
        split; [exact I1|]. split.
        * intros x _. apply no_pair_free_right; [exact Hh|exact I1].
        * intros _. exact Hh.
      + (* no mention starts here *)
        unfold f at 1 2 3.
        rewrite (sub_cons_nomatch _ (const []) c s Em). fold f.
        destruct (IH _ Hs) as (I1 & I2 & _).
        assert (H1 : Adjacent.no_pair A B (c :: f s) = true).
        { apply I2. destruct s as [|d t]; [exact I|].
          apply negb_true_iff. apply andb_false_iff.
          apply andb_false_iff in Ec. destruct Ec as [Ec|Ec].
          - left. exact Ec.
          - right. apply Nat.leb_gt in Ec.
            assert (Hr : Shape.run B (d :: t) = 0%nat) by lia.
            exact (run_zero_head B (d :: t) Hr). }
        split; [exact H1|]. split.
        * intros x Hx. rewrite no_pair_cons, Hx, H1. reflexivity.
        * intro Hh. exact Hh. }
  intro s. exact (proj1 (H (length s) s (Nat.le_refl _))).
Qed.

Lemma sub_mention_no_pair :
  forall s,
    Adjacent.no_pair (chr 64%N) ci_word (sub Adjacent.mention (const []) s) = true.
Proof. exact (sub_at_sign_no_pair Adjacent.mention ci_word match_at_mention). Qed.

(** *** The first character of a match *)

Lemma starts_in_cls :
  forall (B p : char -> bool),
    (forall x, p x = true -> B x = true) -> Adjacent.starts_in B (Cls p).
Proof.
  intros B p Hp s k x H. simpl in H.
  destruct s as [|c s]; [discriminate|].
  destruct (p c) eqn:E; [|discriminate].
  exists c, s. split; [reflexivity|exact (Hp c E)].
Qed.

Lemma starts_in_seq :
  forall B a b, Adjacent.starts_in B a -> Adjacent.starts_in B (Seq a b).
Proof.
  intros B a b Ha s k x H. simpl in H. exact (Ha _ _ _ H).
Qed.

Lemma starts_in_alt :
  forall B a b,
    Adjacent.starts_in B a -> Adjacent.starts_in B b ->
    Adjacent.starts_in B (Alt a b).
Proof.
  intros B a b Ha Hb s k x H. simpl in H.
  destruct (rmatch a s k) as [y|] eqn:E.
  - exact (Ha _ _ _ E).
  - exact (Hb _ _ _ H).
Qed.

(** A letter of a pattern matches word characters only. *)
Lemma ci_letter_word :
  forall l x, is_lower_ascii l = true -> ci l x = true -> ci_word x = true.
Proof.
  intros l x Hl H. unfold ci in H. rewrite Hl in H.
  unfold ci_word, ci_alpha. unfold ci_letter in H.
  unfold is_lower_ascii, is_upper_ascii, between in *.
  apply andb_true_iff in Hl. destruct Hl as [Hl1 Hl2].
  apply N.leb_le in Hl1. apply N.leb_le in Hl2.
  destruct (N.eqb_spec x l) as [->|_].
  { replace (97 <=? l)%N with true by (symmetry; apply N.leb_le; exact Hl1).
    replace (l <=? 122)%N with true by (symmetry; apply N.leb_le; exact Hl2).
    reflexivity. }
  destruct (N.eqb_spec x (l - 32)) as [->|_].
  { replace (65 <=? l - 32)%N with true by (symmetry; apply N.leb_le; lia).
    replace (l - 32 <=? 90)%N with true by (symmetry; apply N.leb_le; lia).
    cbn [andb]. rewrite orb_true_r. reflexivity. }
  cbn [orb] in H.
  destruct (N.eqb_spec x 304) as [->|_]; [reflexivity|].
  destruct (N.eqb_spec x 305) as [->|_]; [reflexivity|].
  destruct (N.eqb_spec x 383) as [->|_]; [reflexivity|].
  destruct (N.eqb_spec x 8490) as [->|_]; [reflexivity|].
  cbn [orb] in H. rewrite !andb_false_r in H. discriminate.
Qed.

Lemma starts_in_word_lit :
  forall l rest,
    is_lower_ascii l = true -> Adjacent.starts_in ci_word (lit_chars (l :: rest)).
Proof.
  intros l rest Hl. cbn [lit_chars].
  apply starts_in_seq. apply starts_in_cls.
  intros x Hx. exact (ci_letter_word l x Hl Hx).
Qed.

Ltac literal_start :=
  match goal with
  | |- Adjacent.starts_in _ (lit ?w) =>
      let v := eval vm_compute in (str w) in
      change (lit w) with (lit_chars v);
      apply starts_in_word_lit; reflexivity
  end.

(** The patterns applied after the mention pattern all begin with a
    letter. *)
Lemma later_patterns_start_with_a_letter :
  Forall (Adjacent.starts_in ci_word)
         (seq [lit "tg://"; Rep non_space 1] :: MessageProcessor.channel_patterns).
Proof.
  repeat constructor.
  - apply starts_in_seq. literal_start.
  - apply starts_in_seq. repeat apply starts_in_alt; literal_start.
  - apply starts_in_seq. repeat apply starts_in_alt; literal_start.
Qed.

Lemma remove_patterns_no_pair :
  forall A B ps,
    Forall (Adjacent.starts_in B) ps ->
    forall s, Adjacent.no_pair A B s = true ->
              Adjacent.no_pair A B (MessageProcessor.remove_patterns ps s) = true.
Proof.
  intros A B ps H. unfold MessageProcessor.remove_patterns.
  induction H as [|r ps Hr _ IH]; intros s Hs; [exact Hs|].
  simpl. apply IH. exact (proj1 (sub_remove_no_pair A B r Hr s) Hs).
Qed.

Lemma remove_links_steps :
  forall s,
    MessageProcessor.remove_links s
    = MessageProcessor.remove_patterns
        (seq [lit "tg://"; Rep non_space 1] :: MessageProcessor.channel_patterns)
        (sub Adjacent.mention (const [])
           (sub (seq [Opt (seq [lit "http"; Opt (lit "s"); lit "://"]);
                      Alt (lit "t.me") (lit "telegram.me"); lit "/";
                      Rep non_space 1])
                (const [])
                (MessageProcessor.remove_patterns MessageProcessor.url_patterns s))).
Proof. reflexivity. Qed.

(** X4: the result of [remove_all_links] contains no mention: nowhere in it
    does "@" stand before a letter, a digit or "_", so the mention pattern,
    one of the Telegram patterns, matches at no position of it. *)
Theorem remove_all_links_no_mention :
  forall s : pystr,
    let o := MessageProcessor.remove_all_links_str s in
    In Adjacent.mention MessageProcessor.telegram_patterns
    /\ Adjacent.no_pair (chr 64%N) ci_word o = true
    /\ (forall pre t, o = pre ++ t -> match_at Adjacent.mention t = None).
Proof.
  intros s o.
  assert (Hp : Adjacent.no_pair (chr 64%N) ci_word o = true).
  { subst o. destruct s as [|c s]; [reflexivity|].
    unfold MessageProcessor.remove_all_links_str.
    rewrite remove_links_steps.
    unfold MessageProcessor.clean_whitespace.
    apply strip_no_pair.
    apply (proj1 (sub_replace_no_pair _ _ _ 10%N eq_refl eq_refl _)).
    apply (proj1 (sub_replace_no_pair _ _ _ 32%N eq_refl eq_refl _)).
    apply remove_patterns_no_pair;
      [exact later_patterns_start_with_a_letter|].
    apply sub_mention_no_pair. }
  split; [right; left; reflexivity|].
  split; [exact Hp|].
  intros pre t E. destruct t as [|c t]; [reflexivity|].
  rewrite match_at_mention.
  destruct ((c =? 64)%N && (1 <=? Shape.run ci_word t)%nat) eqn:Ec;
    [|reflexivity].
  exfalso.
  apply andb_true_iff in Ec. destruct Ec as [Ec Er].
  apply Nat.leb_le in Er.
  rewrite E in Hp. apply no_pair_suffix in Hp.
  destruct t as [|d t]; [simpl in Er; lia|].
  rewrite no_pair_cons in Hp.
  apply andb_true_iff in Hp. destruct Hp as [Hp _].
  simpl in Er. destruct (ci_word d) eqn:Ed; [|lia].
  unfold chr in Hp. rewrite Ec in Hp. discriminate.
Qed.

(** ** No long runs survive [clean_text_formatting] *)

Lemma firstn_run_all :
  forall (p : char -> bool) (s : pystr),
    Forall (fun c => p c = true) (firstn (Shape.run p s) s).
Proof.
  intros p. induction s as [|c s IH]; simpl; [constructor|].
  destruct (p c) eqn:E; simpl; [constructor; assumption|constructor].
Qed.

Lemma match_at_rep_cons :
  forall (p : char -> bool) (n : nat) (c : char) (s : pystr) (m : nat),
    match_at (Rep p n) (c :: s) = Some (S m) ->
    p c = true /\ m = Shape.run p s /\ (n <= S m)%nat.
Proof.
  intros p n c s m H. rewrite match_at_rep in H.
  destruct (n <=? Shape.run p (c :: s))%nat eqn:E; [|discriminate].
  apply Nat.leb_le in E. simpl in *.
  destruct (p c); [|discriminate].
  inversion H; subst. repeat split. exact E.
Qed.

Section Runs.

Variable p : char -> bool.

Lemma short_runs_tail :
  forall c s, Adjacent.short_runs p (c :: s) = true ->
              Adjacent.short_runs p s = true.
Proof.
  intros c s H. cbn [Adjacent.short_runs] in H.
  apply andb_true_iff in H. tauto.
Qed.

Lemma short_runs_head :
  forall s, Adjacent.short_runs p s = true -> (Shape.run p s <= 3)%nat.
Proof.
  intros [|c s] H; [simpl; lia|].
  cbn [Adjacent.short_runs] in H.
  apply andb_true_iff in H. destruct H as [H _].
  apply Nat.leb_le. exact H.
Qed.

Lemma short_runs_cons :
  forall c s,
    (Shape.run p (c :: s) <= 3)%nat -> Adjacent.short_runs p s = true ->
    Adjacent.short_runs p (c :: s) = true.
Proof.
  intros c s H1 H2. cbn [Adjacent.short_runs].
  rewrite H2, andb_true_r. apply Nat.leb_le. exact H1.
Qed.

Lemma short_runs_suffix :
  forall pre t, Adjacent.short_runs p (pre ++ t) = true ->
                Adjacent.short_runs p t = true.
Proof.
  induction pre as [|x pre IH]; intros t H; [exact H|].
  apply IH. exact (short_runs_tail x (pre ++ t) H).
Qed.

Lemma run_prefix_le :
  forall a b, (Shape.run p a <= Shape.run p (a ++ b))%nat.
Proof.
  induction a as [|x a IH]; intro b; simpl; [lia|].
  destruct (p x); [pose proof (IH b); lia|lia].
Qed.

Lemma short_runs_prefix :
  forall a b, Adjacent.short_runs p (a ++ b) = true ->
              Adjacent.short_runs p a = true.
Proof.
  induction a as [|x a IH]; intros b H; [reflexivity|].
  apply short_runs_cons.
  - pose proof (short_runs_head _ H) as Hh.
    pose proof (run_prefix_le (x :: a) b). simpl app in *. lia.
  - apply (IH b). exact (short_runs_tail x (a ++ b) H).
Qed.

Lemma short_runs_skipn :
  forall n s, Adjacent.short_runs p s = true ->
              Adjacent.short_runs p (skipn n s) = true.
Proof.
  intros n s H. apply (short_runs_suffix (firstn n s)).
  rewrite firstn_skipn. exact H.
Qed.

Lemma run_app_headless :
  forall w t, Shape.run p t = 0%nat -> (Shape.run p (w ++ t) <= length w)%nat.
Proof.
  induction w as [|x w IH]; intros t H; simpl.
  - lia.
  - destruct (p x); [pose proof (IH t H); lia|lia].
Qed.

(** At most three characters in front of a text that does not begin in
    [p]. *)
Lemma short_runs_app_short :
  forall w t,
    (length w <= 3)%nat -> Shape.run p t = 0%nat ->
    Adjacent.short_runs p t = true -> Adjacent.short_runs p (w ++ t) = true.
Proof.
  induction w as [|x w IH]; intros t Hw Ht Hs; [exact Hs|].
  simpl in Hw. change ((x :: w) ++ t) with (x :: (w ++ t)).
  apply short_runs_cons.
  - pose proof (run_app_headless (x :: w) t Ht) as H. simpl in *. lia.
  - apply IH; [lia|exact Ht|exact Hs].
Qed.

(** Characters outside [p] in front of a text. *)
Lemma short_runs_app_outside :
  forall w t,
    Forall (fun c => p c = false) w ->
    Adjacent.short_runs p t = true -> Adjacent.short_runs p (w ++ t) = true.
Proof.
  intros w t Hw Hs. induction Hw as [|x w Hx _ IH]; [exact Hs|].
  change ((x :: w) ++ t) with (x :: (w ++ t)).
  apply short_runs_cons; [|exact IH].
  simpl. rewrite Hx. lia.
Qed.

Lemma strip_short_runs :
  forall s, Adjacent.short_runs p s = true ->
            Adjacent.short_runs p (strip s) = true.
Proof.
  intros s H. unfold strip.
  destruct (rstrip_prefix (lstrip s)) as [post Hp].
  apply (short_runs_prefix _ post). rewrite <- Hp.
  destruct (dropwhile_suffix is_space s) as [pre Hs].
  apply (short_runs_suffix pre). unfold lstrip. rewrite <- Hs. exact H.
Qed.

(** The substitution of [[p]{4,}] by at most three characters leaves no run
    of four. *)
Lemma sub_rep_short_runs :
  forall repl,
    (forall m, (length (repl m) <= 3)%nat) ->
    forall s, Adjacent.short_runs p (sub (Rep p 4) repl s) = true.
Proof.
  intros repl Hrepl.
  set (f := sub (Rep p 4) repl).
  assert (H : forall n s, (length s <= n)%nat ->
      Adjacent.short_runs p (f s) = true
      /\ ((Shape.run p s <= 3)%nat -> Shape.run p (f s) = Shape.run p s)).
  { induction n as [|n IH]; intros s Hl.
    - destruct s; [|simpl in Hl; lia]. split; reflexivity.
    - destruct s as [|c s]; [split; reflexivity|]. simpl in Hl.
      assert (Hs : (length s <= n)%nat) by lia.
      destruct (IH s Hs) as [I1 I2].
      assert (Hplain :
        f (c :: s) = c :: f s -> (Shape.run p (c :: s) <= 3)%nat ->
        Adjacent.short_runs p (f (c :: s)) = true
        /\ ((Shape.run p (c :: s) <= 3)%nat ->
            Shape.run p (f (c :: s)) = Shape.run p (c :: s))).
      { intros E Hr. rewrite E.
        assert (Hrun : Shape.run p (c :: f s) = Shape.run p (c :: s)).
        { simpl in *. destruct (p c); [|reflexivity].
          rewrite I2 by lia. reflexivity. }
        split; [|intros _; exact Hrun].
        apply short_runs_cons; [rewrite Hrun; exact Hr|exact I1]. }
      destruct (match_at (Rep p 4) (c :: s)) as [[|m]|] eqn:E.
      + rewrite match_at_rep in E.
        destruct (4 <=? Shape.run p (c :: s))%nat eqn:E4; [|discriminate].
        apply Nat.leb_le in E4.
        assert (E0 : Shape.run p (c :: s) = 0%nat) by congruence. lia.
      + destruct (match_at_rep_cons p 4 c s m E) as (Hc & Hm & H4).
        unfold f at 1 2.
        rewrite (sub_cons_match _ repl c s m E). fold f.
        rewrite Hm, skipn_run.
        assert (Hk : (length (dropwhile p s) <= n)%nat)
          by (pose proof (dropwhile_shorter p s); lia).
        destruct (IH _ Hk) as [K1 K2].
        assert (Hzero : Shape.run p (dropwhile p s) = 0%nat).
        { destruct (dropwhile p s) as [|d t] eqn:Ed; [reflexivity|].
          simpl. rewrite (dropwhile_head p s d t Ed). reflexivity. }
        split.
        * apply short_runs_app_short; [apply Hrepl| |exact K1].
          rewrite K2; [exact Hzero|lia].
        * intro Hr. simpl in Hr. rewrite Hc in Hr. lia.
      + rewrite match_at_rep in E.
        destruct (4 <=? Shape.run p (c :: s))%nat eqn:E4; [discriminate|].
        apply Nat.leb_gt in E4.
        apply Hplain; [|lia].
        apply sub_cons_nomatch. rewrite match_at_rep, (proj2 (Nat.leb_gt _ _)).
        * reflexivity.
        * exact E4. }
  intro s. exact (proj1 (H (length s) s (Nat.le_refl _))).
Qed.

(** A later substitution over a class disjoint from [p], whose replacements
    are not empty and lie outside [p], makes no run of [p] longer. *)
Lemma sub_other_short_runs :
  forall (q : char -> bool) (n : nat) (repl : pystr -> pystr),
    (1 <= n)%nat ->
    (forall c, q c = true -> p c = false) ->
    (forall m, (n <= length m)%nat -> Forall (fun c => q c = true) m ->
               repl m <> [] /\ Forall (fun c => p c = false) (repl m)) ->
    forall s, Adjacent.short_runs p s = true ->
              Adjacent.short_runs p (sub (Rep q n) repl s) = true.
Proof.
  intros q n repl Hn Hqp Hrepl.
  set (f := sub (Rep q n) repl).
  assert (H : forall k s, (length s <= k)%nat ->
      (Adjacent.short_runs p s = true -> Adjacent.short_runs p (f s) = true)
      /\ (Shape.run p (f s) <= Shape.run p s)%nat).
  { induction k as [|k IH]; intros s Hl.
    - destruct s; [|simpl in Hl; lia]. split; auto.
    - destruct s as [|c s]; [split; auto|]. simpl in Hl.
      assert (Hs : (length s <= k)%nat) by lia.
      destruct (IH s Hs) as [I1 I2].
      assert (Hplain :
        f (c :: s) = c :: f s ->
        (Adjacent.short_runs p (c :: s) = true ->
         Adjacent.short_runs p (f (c :: s)) = true)
        /\ (Shape.run p (f (c :: s)) <= Shape.run p (c :: s))%nat).
      { intro E. rewrite E.
        assert (Hrun : (Shape.run p (c :: f s) <= Shape.run p (c :: s))%nat)
          by (simpl; destruct (p c); lia).
        split; [|exact Hrun].
        intro Hcs. apply short_runs_cons.
        - pose proof (short_runs_head _ Hcs). lia.
        - apply I1. exact (short_runs_tail c s Hcs). }
      destruct (match_at (Rep q n) (c :: s)) as [[|m]|] eqn:E.
      + apply Hplain. exact (sub_cons_zero _ repl c s E).
      + destruct (match_at_rep_cons q n c s m E) as (Hc & Hm & H4).
        unfold f at 1 2.
        rewrite (sub_cons_match _ repl c s m E). fold f.
        assert (Hall : Forall (fun x => q x = true) (firstn (S m) (c :: s))).
        { rewrite Hm. cbn [firstn]. constructor; [exact Hc|].
          apply firstn_run_all. }
        assert (Hlen : (n <= length (firstn (S m) (c :: s)))%nat).
        { pose proof (match_at_min_len _ _ _ E) as Hb.
          rewrite length_firstn. simpl in *. lia. }
        destruct (Hrepl _ Hlen Hall) as [Hne Hout].
        assert (Hk : (length (skipn m s) <= k)%nat)
          by (rewrite length_skipn; lia).
        split.
        * intro Hcs. apply short_runs_app_outside; [exact Hout|].
          apply (proj1 (IH _ Hk)). apply short_runs_skipn.
          exact (short_runs_tail c s Hcs).
        * destruct (repl (firstn (S m) (c :: s))) as [|z w];
            [contradiction|].
          inversion Hout; subst. simpl. rewrite H1. lia.
      + apply Hplain. exact (sub_cons_nomatch _ repl c s E). }
  intros s Hs. exact (proj1 (H (length s) s (Nat.le_refl _)) Hs).
Qed.

End Runs.

Ltac class_arith :=
  unfold is_space, is_upper_ascii, MessageProcessor.emoji, chr, between in *;
  repeat rewrite ?orb_true_iff, ?andb_true_iff, ?N.leb_le, ?N.eqb_eq in *;
  lia.

Ltac disjoint_classes :=
  let c := fresh "c" in
  let H := fresh "H" in
  let G := fresh "G" in
  intros c H; apply not_true_iff_false; intro G; class_arith.

Lemma Forall_firstn_of :
  forall (P : char -> Prop) (n : nat) (m : pystr),
    Forall P m -> Forall P (firstn n m).
Proof.
  intros P n m H. revert n.
  induction H as [|x m Hx _ IH]; intros [|n]; simpl; constructor; auto.
Qed.

Lemma const_replacement :
  forall (p : char -> bool) (w m : pystr),
    w <> [] -> Forall (fun c => p c = false) w ->
    const w m <> [] /\ Forall (fun c => p c = false) (const w m).
Proof. intros. unfold const. split; assumption. Qed.

Lemma capitals_replacement :
  forall (p : char -> bool) (m : pystr),
    (forall c, is_upper_ascii c = true -> p c = false) ->
    (4 <= length m)%nat -> Forall (fun c => is_upper_ascii c = true) m ->
    firstn 3 m <> [] /\ Forall (fun c => p c = false) (firstn 3 m).
Proof.
  intros p m Hd Hl Hm. split.
  - destruct m as [|x m]; [simpl in Hl; lia|]. discriminate.
  - apply Forall_firstn_of.
    apply (Forall_impl _ (fun c Hc => Hd c Hc) Hm).
Qed.

(** The steps of [clean_text_formatting] that follow the first keep runs
    of a class short, when the class meets none of the classes they
    rewrite. *)
Lemma later_steps_short_runs :
  forall (p : char -> bool) (s : pystr),
    (forall c, is_upper_ascii c = true -> p c = false) ->
    (forall c, is_space c = true -> p c = false) ->
    Adjacent.short_runs p s = true ->
    Adjacent.short_runs p
      (strip (sub MessageProcessor.whitespace_run (const [32%N])
                (sub (Rep is_upper_ascii 4) (firstn 3) s))) = true.
Proof.
  intros p s Hu Hw H.
  apply strip_short_runs.
  apply (sub_other_short_runs p is_space 1 (const [32%N]));
    [lia|exact Hw| |].
  - intros m _ _. apply const_replacement; [discriminate|].
    constructor; [apply Hw; reflexivity|constructor].
  - apply (sub_other_short_runs p is_upper_ascii 4 (firstn 3));
      [lia|exact Hu| |exact H].
    intros m Hl Hm. exact (capitals_replacement p m Hu Hl Hm).
Qed.

Lemma mark_step_short_runs :
  forall (p : char -> bool) (k : char) (s : pystr),
    p k = false ->
    Adjacent.short_runs p s = true ->
    Adjacent.short_runs p (sub (Rep (chr k) 4) (const [k; k; k]) s) = true.
Proof.
  intros p k s Hk H.
  apply (sub_other_short_runs p (chr k) 4 (const [k; k; k]));
    [lia| | |exact H].
  - intros c Hc. unfold chr in Hc. apply N.eqb_eq in Hc. subst c. exact Hk.
  - intros m _ _. apply const_replacement; [discriminate|].
    repeat constructor; exact Hk.
Qed.

Lemma four_in_a_row :
  forall (p : char -> bool) (o pre post : pystr) (a b c d : char),
    Adjacent.short_runs p o = true ->
    o = pre ++ a :: b :: c :: d :: post ->
    p a && p b && p c && p d = false.
Proof.
  intros p o pre post a b c d H E. subst o.
  apply short_runs_suffix in H. apply short_runs_head in H.
  simpl in H.
  destruct (p a); [|reflexivity].
  destruct (p b); [|reflexivity].
  destruct (p c); [|reflexivity].
  destruct (p d); [lia|reflexivity].
Qed.

(** The five classes [clean_text_formatting] shortens the runs of. *)
Lemma clean_text_formatting_runs :
  forall s : pystr,
    Forall (fun cls : char -> bool =>
              Adjacent.short_runs cls (MessageProcessor.clean_text_formatting s)
              = true)
           [MessageProcessor.emoji; chr 33%N; chr 63%N; chr 46%N; is_upper_ascii].
Proof.
  intro s.
  destruct s as [|x s]; [repeat constructor|].
  unfold MessageProcessor.clean_text_formatting.
  change (str "!!!") with [33; 33; 33]%N.
  change (str "???") with [63; 63; 63]%N.
  change (str "...") with [46; 46; 46]%N.
  repeat constructor.
  - (* emoji *)
    apply later_steps_short_runs; [disjoint_classes|disjoint_classes|].
    apply mark_step_short_runs; [reflexivity|].
    apply mark_step_short_runs; [reflexivity|].
    apply mark_step_short_runs; [reflexivity|].
    apply sub_rep_short_runs. exact last3_length.
  - (* "!" *)
    apply later_steps_short_runs; [disjoint_classes|disjoint_classes|].
    apply mark_step_short_runs; [reflexivity|].
    apply mark_step_short_runs; [reflexivity|].
    apply sub_rep_short_runs. intro m. unfold const. simpl. lia.
  - (* "?" *)
    apply later_steps_short_runs; [disjoint_classes|disjoint_classes|].
    apply mark_step_short_runs; [reflexivity|].
    apply sub_rep_short_runs. intro m. unfold const. simpl. lia.
  - (* "." *)
    apply later_steps_short_runs; [disjoint_classes|disjoint_classes|].
    apply sub_rep_short_runs. intro m. unfold const. simpl. lia.
  - (* capitals *)
    apply strip_short_runs.
    apply (sub_other_short_runs is_upper_ascii is_space 1 (const [32%N]));
      [lia|disjoint_classes| |].
    + intros m _ _. apply const_replacement; [discriminate|].
      constructor; [reflexivity|constructor].
    + apply sub_rep_short_runs. intro m. rewrite length_firstn. lia.
Qed.

(** X5: the result of [clean_text_formatting] has no four consecutive
    characters that are all emoji of the listed ranges, all "!", all "?",
    all "." or all capital letters A-Z. *)
Theorem clean_text_formatting_no_long_runs :
  forall (s pre post : pystr) (a b c d : char),
    MessageProcessor.clean_text_formatting s = pre ++ a :: b :: c :: d :: post ->
    Forall (fun cls : char -> bool => cls a && cls b && cls c && cls d = false)
           [MessageProcessor.emoji; chr 33%N; chr 63%N; chr 46%N; is_upper_ascii].
Proof.
  intros s pre post a b c d E.
  apply (Forall_impl _ (fun cls H => four_in_a_row cls _ pre post a b c d H E)).
  apply clean_text_formatting_runs.
Qed.

Lemma clean_text_formatting_no_long_runs_witness :
  Forall (fun cls : char -> bool =>
            cls 33%N && cls 33%N && cls 33%N && cls 32%N = false)
         [MessageProcessor.emoji; chr 33%N; chr 63%N; chr 46%N; is_upper_ascii].
Proof.
  apply (clean_text_formatting_no_long_runs
           (str "wow!!!!!! ok") (str "wow") (str "ok") 33%N 33%N 33%N 32%N).
  vm_compute. reflexivity.
Defined.

Lemma sub_rep_fixed :
  forall (p : char -> bool) (repl : pystr -> pystr) (s : pystr),
    Adjacent.short_runs p s = true -> sub (Rep p 4) repl s = s.
Proof.
  intros p repl. induction s as [|c s IH]; intro H; [reflexivity|].
  rewrite sub_cons_nomatch.
  - f_equal. apply IH. exact (short_runs_tail p c s H).
  - rewrite match_at_rep.
    pose proof (short_runs_head p _ H) as Hh.
    destruct (Nat.leb_spec 4 (Shape.run p (c :: s))); [lia|reflexivity].
Qed.

(** X6: [clean_text_formatting] is idempotent. *)
Theorem clean_text_formatting_idempotent :
  forall s : pystr,
    MessageProcessor.clean_text_formatting
      (MessageProcessor.clean_text_formatting s)
    = MessageProcessor.clean_text_formatting s.
Proof.
  intro s.
  pose proof (clean_text_formatting_runs s) as Hr.
  assert (Hshape :
    Shape.single_spaced (MessageProcessor.clean_text_formatting s) = true
    /\ strip (MessageProcessor.clean_text_formatting s)
       = MessageProcessor.clean_text_formatting s).
  { destruct s as [|x s]; [split; reflexivity|].
    unfold MessageProcessor.clean_text_formatting. split.
    - apply single_spaced_strip. apply sub_whitespace_single_spaced.
    - apply strip_idem. }
  destruct Hshape as [Hs Hst].
  remember (MessageProcessor.clean_text_formatting s) as o eqn:Eo.
  clear Eo s.
  inversion Hr as [|? ? H1 Hr1]; subst.
  inversion Hr1 as [|? ? H2 Hr2]; subst.
  inversion Hr2 as [|? ? H3 Hr3]; subst.
  inversion Hr3 as [|? ? H4 Hr4]; subst.
  inversion Hr4 as [|? ? H5 _]; subst.
  destruct o as [|x o]; [reflexivity|].
  unfold MessageProcessor.clean_text_formatting.
  rewrite (sub_rep_fixed _ _ _ H1), (sub_rep_fixed _ _ _ H2),
    (sub_rep_fixed _ _ _ H3), (sub_rep_fixed _ _ _ H4),
    (sub_rep_fixed _ _ _ H5), (sub_whitespace_fixed _ Hs).
  exact Hst.
Qed.

(** ** C6: applying [remove_all_links] twice *)

(** *** The matcher finds exactly the texts of the pattern *)

Lemma rep_sound :
  forall (p : char -> bool) (s : pystr) (n : nat)
         (k : pystr -> option pystr) (x : pystr),
    rep p n s k = Some x ->
    exists u v, s = u ++ v /\ Forall (fun c => p c = true) u
                /\ (n <= length u)%nat /\ k v = Some x.
Proof.
  intros p. induction s as [|c s IH]; intros n k x H; simpl in H.
  - destruct n; [|discriminate].
    exists [], []. repeat split; [constructor|simpl; lia|exact H].
  - assert (Hzero : match n with O => k (c :: s) | S _ => None end = Some x ->
                    exists u v, c :: s = u ++ v
                                /\ Forall (fun c => p c = true) u
                                /\ (n <= length u)%nat /\ k v = Some x).
    { destruct n; [|discriminate]. intro Hk.
      exists [], (c :: s). repeat split; [constructor|simpl; lia|exact Hk]. }
    destruct (p c) eqn:Ec; [|exact (Hzero H)].
    destruct (rep p (pred n) s k) as [y|] eqn:E; [|exact (Hzero H)].
    inversion H; subst y.
    destruct (IH _ _ _ E) as (u & v & Hs & Hu & Hn & Hk).
    exists (c :: u), v. subst s.
    repeat split; [constructor; assumption|simpl; lia|exact Hk].
Qed.

Lemma rmatch_sound :
  forall (r : regex) (s : pystr) (k : pystr -> option pystr) (x : pystr),
    rmatch r s k = Some x ->
    exists u v, s = u ++ v /\ Lang.matches r u /\ k v = Some x.
Proof.
  induction r as [|p|a IHa b IHb|a IHa b IHb|a IHa|p n];
    intros s k x H; simpl in H.
  - exists [], s. repeat split; [constructor|exact H].
  - destruct s as [|c s]; [discriminate|].
    destruct (p c) eqn:Ec; [|discriminate].
    exists [c], s. repeat split; [constructor; exact Ec|exact H].
  - destruct (IHa _ _ _ H) as (u1 & v1 & Hs & Hu1 & H1).
    destruct (IHb _ _ _ H1) as (u2 & v2 & Hv & Hu2 & H2).
    exists (u1 ++ u2), v2. subst s v1. rewrite <- app_assoc.
    repeat split; [constructor; assumption|exact H2].
  - destruct (rmatch a s k) as [y|] eqn:E.
    + inversion H; subst y.
      destruct (IHa _ _ _ E) as (u & v & Hs & Hu & Hk).
      exists u, v. repeat split; [exact Hs|apply Lang.m_alt_l; exact Hu|exact Hk].
    + destruct (IHb _ _ _ H) as (u & v & Hs & Hu & Hk).
      exists u, v. repeat split; [exact Hs|apply Lang.m_alt_r; exact Hu|exact Hk].
  - destruct (rmatch a s k) as [y|] eqn:E.
    + inversion H; subst y.
      destruct (IHa _ _ _ E) as (u & v & Hs & Hu & Hk).
      exists u, v. repeat split; [exact Hs|apply Lang.m_opt_some; exact Hu|exact Hk].
    + exists [], s. repeat split; [constructor|exact H].
  - destruct (rep_sound p s n k x H) as (u & v & Hs & Hu & Hn & Hk).
    exists u, v. repeat split; [exact Hs|constructor; assumption|exact Hk].
Qed.

Lemma rep_complete :
  forall (p : char -> bool) (u : pystr) (n : nat) (v : pystr)
         (k : pystr -> option pystr),
    Forall (fun c => p c = true) u -> (n <= length u)%nat ->
    k v <> None -> rep p n (u ++ v) k <> None.
Proof.
  intros p. induction u as [|c u IH]; intros n v k Hu Hn Hk.
  - simpl in Hn. assert (n = 0%nat) by lia. subst n. simpl.
    destruct v as [|d v]; [exact Hk|]. simpl.
    destruct (p d); [|exact Hk].
    destruct (rep p 0 v k); [discriminate|exact Hk].
  - inversion Hu as [|c' u' Hc Hu']; subst. simpl. rewrite Hc.
    assert (Hn' : (pred n <= length u)%nat) by (simpl in Hn; lia).
    pose proof (IH (pred n) v k Hu' Hn' Hk) as Hr.
    destruct (rep p (pred n) (u ++ v) k); [discriminate|contradiction].
Qed.

Lemma rmatch_complete :
  forall (r : regex) (u : pystr),
    Lang.matches r u ->
    forall (v : pystr) (k : pystr -> option pystr),
      k v <> None -> rmatch r (u ++ v) k <> None.
Proof.
  intros r u H.
  induction H as [|p c Hc|a b u1 u2 Ha IHa Hb IHb|a b u Ha IHa|a b u Hb IHb
                  |a|a u Ha IHa|p n u Hu Hn]; intros v k Hk; simpl.
  - exact Hk.
  - rewrite Hc. exact Hk.
  - rewrite <- app_assoc. apply IHa. apply IHb. exact Hk.
  - pose proof (IHa v k Hk) as Hr.
    destruct (rmatch a (u ++ v) k); [discriminate|contradiction].
  - destruct (rmatch a (u ++ v) k); [discriminate|].
    apply IHb. exact Hk.
  - destruct (rmatch a v k); [discriminate|exact Hk].
  - pose proof (IHa v k Hk) as Hr.
    destruct (rmatch a (u ++ v) k); [discriminate|contradiction].
  - apply rep_complete; assumption.
Qed.

(** A match at the head of a text is a prefix the pattern matches. *)
Lemma match_at_matches :
  forall (r : regex) (s : pystr),
    match_at r s <> None <-> exists u v, s = u ++ v /\ Lang.matches r u.
Proof.
  intros r s. unfold match_at. split.
  - destruct (rmatch r s (fun rest => Some rest)) as [rest|] eqn:E;
      [|intro H; contradiction].
    intros _. destruct (rmatch_sound r s _ rest E) as (u & v & Hs & Hu & _).
    exists u, v. split; assumption.
  - intros (u & v & Hs & Hu). subst s.
    pose proof (rmatch_complete r u Hu v (fun rest => Some rest)) as H.
    destruct (rmatch r (u ++ v) (fun rest => Some rest)); [discriminate|].
    exfalso. apply H; [discriminate|reflexivity].
Qed.

(** *** Texts in which a pattern finds nothing *)

Lemma unmatched_tail :
  forall (r : regex) (c : char) (s : pystr),
    Lang.unmatched r (c :: s) -> Lang.unmatched r s.
Proof. intros r c s H n. exact (H (S n)). Qed.

Lemma unmatched_skipn :
  forall (r : regex) (m : nat) (s : pystr),
    Lang.unmatched r s -> Lang.unmatched r (skipn m s).
Proof.
  intros r m s H n. rewrite skipn_skipn. apply H.
Qed.

Lemma sub_unmatched :
  forall (r : regex) (repl : pystr -> pystr) (s : pystr),
    Lang.unmatched r s -> sub r repl s = s.
Proof.
  intros r repl. induction s as [|c s IH]; intro H; [reflexivity|].
  rewrite sub_cons_nomatch by exact (H 0%nat).
  f_equal. apply IH. exact (unmatched_tail r c s H).
Qed.

(** A removal either finds nothing or shortens the text. *)
Lemma sub_fixed_or_shorter :
  forall (r : regex),
    (1 <= min_len r)%nat ->
    forall s : pystr,
      Lang.unmatched r s \/ (length (sub r (const []) s) < length s)%nat.
Proof.
  intros r Hr. induction s as [|c s IH].
  - left. intro n. destruct n; simpl;
      (destruct (match_at r []) as [m|] eqn:E; [|reflexivity]);
      pose proof (match_at_min_len r [] m E) as Hm; simpl in Hm; lia.
  - destruct (match_at r (c :: s)) as [[|m]|] eqn:E.
    + pose proof (match_at_min_len r (c :: s) 0%nat E). lia.
    + right. rewrite (sub_cons_match r (const []) c s m E).
      unfold const at 1. cbn [app].
      pose proof (sub_shorter r (const [])) as Hs.
      assert (Hle : (length (sub r (const []) (skipn m s))
                     <= length (skipn m s))%nat).
      { apply Hs. intros x _. unfold const. simpl. lia. }
      rewrite length_skipn in Hle. simpl. lia.
    + destruct IH as [IH|IH].
      * left. intros [|n]; [exact E|exact (IH n)].
      * right. rewrite (sub_cons_nomatch r (const []) c s E). simpl. lia.
Qed.

Lemma remove_patterns_fixed_or_shorter :
  forall ps : list regex,
    Forall (fun r => (1 <= min_len r)%nat) ps ->
    forall s : pystr,
      (Forall (fun r => Lang.unmatched r s) ps
       /\ MessageProcessor.remove_patterns ps s = s)
      \/ (length (MessageProcessor.remove_patterns ps s) < length s)%nat.
Proof.
  intros ps H. induction H as [|r ps Hr _ IH]; intro s.
  - left. split; [constructor|reflexivity].
  - change (MessageProcessor.remove_patterns (r :: ps) s)
      with (MessageProcessor.remove_patterns ps (sub r (const []) s)).
    destruct (sub_fixed_or_shorter r Hr s) as [Hu|Hlt].
    + rewrite (sub_unmatched r (const []) s Hu).
      destruct (IH s) as [[Hall Heq]|Hlt].
      * left. split; [constructor; assumption|exact Heq].
      * right. exact Hlt.
    + right.
      pose proof (remove_patterns_shorter ps (sub r (const []) s)). lia.
Qed.

Lemma remove_links_all :
  forall s : pystr,
    MessageProcessor.remove_links s
    = MessageProcessor.remove_patterns Lang.link_patterns s.
Proof.
  intro s. unfold MessageProcessor.remove_links, Lang.link_patterns,
             MessageProcessor.remove_patterns.
  rewrite !fold_left_app. reflexivity.
Qed.

Lemma link_patterns_consume :
  Forall (fun r => (1 <= min_len r)%nat) Lang.link_patterns.
Proof. repeat constructor; vm_compute; lia. Qed.

(** The removal loops leave a text as it is exactly when none of the eight
    patterns finds a match in it, and shorten it otherwise. *)
Lemma remove_links_fixed_or_shorter :
  forall s : pystr,
    (Forall (fun r => Lang.unmatched r s) Lang.link_patterns
     /\ MessageProcessor.remove_links s = s)
    \/ (length (MessageProcessor.remove_links s) < length s)%nat.
Proof.
  intro s. rewrite remove_links_all.
  exact (remove_patterns_fixed_or_shorter _ link_patterns_consume s).
Qed.

Lemma remove_links_unmatched :
  forall s : pystr,
    Forall (fun r => Lang.unmatched r s) Lang.link_patterns ->
    MessageProcessor.remove_links s = s.
Proof.
  intros s H. rewrite remove_links_all.
  unfold MessageProcessor.remove_patterns.
  induction H as [|r ps Hr _ IH]; [reflexivity|].
  simpl. rewrite (sub_unmatched r (const []) s Hr). exact IH.
Qed.

(** *** The characters a match needs *)

Lemma needs_found :
  forall (F : char -> bool) (r : regex) (u : pystr),
    Lang.matches r u -> Lang.needs F r -> Exists (fun c => F c = true) u.
Proof.
  intros F r u H.
  induction H as [|p c Hc|a b u1 u2 Ha IHa Hb IHb|a b u Ha IHa|a b u Hb IHb
                  |a|a u Ha IHa|p n u Hu Hn]; intro Hneed; simpl in Hneed.
  - contradiction.
  - constructor. apply Hneed. exact Hc.
  - apply Exists_app. destruct Hneed as [Hn|Hn]; [left|right]; auto.
  - apply IHa. tauto.
  - apply IHb. tauto.
  - contradiction.
  - contradiction.
  - destruct Hneed as [H1 Hp].
    destruct u as [|c u]; [simpl in Hn; lia|].
    inversion Hu; subst. constructor. apply Hp. assumption.
Qed.

Lemma needs_unmatched :
  forall (F : char -> bool) (r : regex) (s : pystr),
    Lang.needs F r -> Forall (fun c => F c = false) s -> Lang.unmatched r s.
Proof.
  intros F r s Hneed Hs n.
  destruct (match_at r (skipn n s)) as [m|] eqn:E; [|reflexivity].
  exfalso.
  assert (Hm : match_at r (skipn n s) <> None) by (rewrite E; discriminate).
  apply match_at_matches in Hm. destruct Hm as (u & v & Hsk & Hu).
  pose proof (needs_found F r u Hu Hneed) as Hex.
  apply Exists_exists in Hex. destruct Hex as (c & Hin & Hc).
  assert (Hins : In c s).
  { rewrite <- (firstn_skipn n s). apply in_or_app. right.
    rewrite Hsk. apply in_or_app. left. exact Hin. }
  pose proof (proj1 (Forall_forall _ _) Hs c Hins) as Hf.
  simpl in Hf. congruence.
Qed.

Lemma link_patterns_need :
  Forall (Lang.needs Lang.link_char) Lang.link_patterns.
Proof.
  assert (Hdot : forall c, ci 46%N c = true -> Lang.link_char c = true).
  { intros c H. change (ci 46%N c) with (c =? 46)%N in H.
    unfold Lang.link_char. rewrite H. reflexivity. }
  assert (Hcolon : forall c, ci 58%N c = true -> Lang.link_char c = true).
  { intros c H. change (ci 58%N c) with (c =? 58)%N in H.
    unfold Lang.link_char. rewrite H. rewrite !orb_true_r. reflexivity. }
  assert (Hat : forall c, ci 64%N c = true -> Lang.link_char c = true).
  { intros c H. change (ci 64%N c) with (c =? 64)%N in H.
    unfold Lang.link_char. rewrite H. rewrite !orb_true_r. reflexivity. }
  assert (Hg : forall c, ci 103%N c = true -> Lang.link_char c = true).
  { intros c H.
    change (ci 103%N c)
      with ((c =? 103)%N || (c =? 71)%N || false || false || false) in H.
    rewrite !orb_false_r in H. unfold Lang.link_char.
    apply orb_true_iff in H. destruct H as [H|H]; rewrite H;
      rewrite ?orb_true_r; reflexivity. }
  unfold Lang.link_patterns, MessageProcessor.url_patterns,
    MessageProcessor.telegram_patterns, MessageProcessor.channel_patterns.
  repeat apply Forall_cons; try apply Forall_nil;
    cbn [Lang.needs seq lit lit_chars str list_ascii_of_string map app];
    cbv [N_of_ascii N_of_digits]; cbn [N.add N.mul];
    tauto.
Qed.
(** *** Whitespace in the patterns *)

Ltac class_facts H :=
  unfold ci_word, ci_label, ci_alpha, non_space, is_lower_ascii,
    is_upper_ascii, is_digit, is_space, between in H;
  rewrite ?negb_true_iff, ?orb_true_iff, ?orb_false_iff, ?andb_true_iff,
    ?N.leb_le, ?N.eqb_eq in H.

Lemma word_not_space : forall c, ci_word c = true -> is_space c = false.
Proof.
  intros c H. destruct (is_space c) eqn:Hs; [exfalso|reflexivity].
  class_facts H. class_facts Hs. lia.
Qed.

Lemma label_not_space : forall c, ci_label c = true -> is_space c = false.
Proof.
  intros c H. destruct (is_space c) eqn:Hs; [exfalso|reflexivity].
  class_facts H. class_facts Hs. lia.
Qed.

Lemma alpha_not_space : forall c, ci_alpha c = true -> is_space c = false.
Proof.
  intros c H. destruct (is_space c) eqn:Hs; [exfalso|reflexivity].
  class_facts H. class_facts Hs. lia.
Qed.

Lemma non_space_not_space : forall c, non_space c = true -> is_space c = false.
Proof. intros c H. apply negb_true_iff. exact H. Qed.

Lemma ci_not_space :
  forall l, is_space l = false ->
            forall c, ci l c = true -> is_space c = false.
Proof.
  intros l Hl c H. destruct (is_lower_ascii l) eqn:El.
  - apply word_not_space. exact (ci_letter_word l c El H).
  - unfold ci in H. rewrite El in H. unfold chr in H.
    apply N.eqb_eq in H. subst c. exact Hl.
Qed.

Lemma link_patterns_spaced : Forall Lang.spaced Lang.link_patterns.
Proof.
  unfold Lang.link_patterns, MessageProcessor.url_patterns,
    MessageProcessor.telegram_patterns, MessageProcessor.channel_patterns.
  repeat apply Forall_cons; try apply Forall_nil;
    cbn [Lang.spaced seq lit lit_chars str list_ascii_of_string map app];
    repeat match goal with
           | |- _ /\ _ => split
           | |- True => exact I
           | |- forall c, ci ?l c = true -> is_space c = false =>
               apply ci_not_space; reflexivity
           | |- _ \/ (forall c, is_space c = is_space c) =>
               right; intro; reflexivity
           | |- (forall c, non_space c = true -> _) \/ _ =>
               left; exact non_space_not_space
           | |- (forall c, ci_word c = true -> _) \/ _ =>
               left; exact word_not_space
           | |- (forall c, ci_label c = true -> _) \/ _ =>
               left; exact label_not_space
           | |- (forall c, ci_alpha c = true -> _) \/ _ =>
               left; exact alpha_not_space
           end.
Qed.

(** *** Matches in a text and in its whitespace-normal form *)

Lemma squeezed_prefix :
  forall (u s v : pystr),
    Forall (fun c => is_space c = false) u ->
    Lang.squeezed s (u ++ v) ->
    exists s0, s = u ++ s0 /\ Lang.squeezed s0 v.
Proof.
  induction u as [|c u IH]; intros s v Hu Hsq.
  - exists s. split; [reflexivity|exact Hsq].
  - inversion Hu as [|c' u' Hc Hu']; subst.
    simpl in Hsq. inversion Hsq as [|c0 s1 t1 Hc0 Hs1|c0 d w s1 t1 Hc0 Hw Hd Hs1];
      subst.
    + destruct (IH s1 v Hu' Hs1) as (s0 & Hs & Hs0).
      exists s0. subst s1. split; [reflexivity|exact Hs0].
    + discriminate Hc.
Qed.

Lemma matches_squeezed :
  forall (r : regex) (u : pystr),
    Lang.matches r u -> Lang.spaced r ->
    forall (s v : pystr),
      Lang.squeezed s (u ++ v) ->
      exists u' v', s = u' ++ v' /\ Lang.matches r u' /\ Lang.squeezed v' v.
Proof.
  intros r u H.
  induction H as [|p c Hc|a b u1 u2 Ha IHa Hb IHb|a b u Ha IHa|a b u Hb IHb
                  |a|a u Ha IHa|p n u Hu Hn]; intros Hsp s v Hsq;
    simpl in Hsp.
  - exists [], s. repeat split; [constructor|exact Hsq].
  - destruct (squeezed_prefix [c] s v) as (s0 & Hs & Hs0);
      [constructor; [exact (Hsp c Hc)|constructor]|exact Hsq|].
    exists [c], s0. repeat split; [exact Hs|constructor; exact Hc|exact Hs0].
  - destruct Hsp as [Hspa Hspb]. rewrite <- app_assoc in Hsq.
    destruct (IHa Hspa s (u2 ++ v) Hsq) as (u1' & v1 & Hs & Hu1 & Hv1).
    destruct (IHb Hspb v1 v Hv1) as (u2' & v2 & Hv & Hu2 & Hv2).
    exists (u1' ++ u2'), v2. subst s v1. rewrite <- app_assoc.
    repeat split; [constructor; assumption|exact Hv2].
  - destruct (IHa (proj1 Hsp) s v Hsq) as (u' & v' & Hs & Hu' & Hv').
    exists u', v'. repeat split;
      [exact Hs|apply Lang.m_alt_l; exact Hu'|exact Hv'].
  - destruct (IHb (proj2 Hsp) s v Hsq) as (u' & v' & Hs & Hu' & Hv').
    exists u', v'. repeat split;
      [exact Hs|apply Lang.m_alt_r; exact Hu'|exact Hv'].
  - exists [], s. repeat split; [constructor|exact Hsq].
  - destruct (IHa Hsp s v Hsq) as (u' & v' & Hs & Hu' & Hv').
    exists u', v'. repeat split;
      [exact Hs|apply Lang.m_opt_some; exact Hu'|exact Hv'].
  - destruct Hsp as [Hns|Hws].
    + destruct (squeezed_prefix u s v) as (s0 & Hs & Hs0);
        [|exact Hsq|].
      * apply (Forall_impl _ Hns). exact Hu.
      * exists u, s0. repeat split;
          [exact Hs|constructor; assumption|exact Hs0].
    + destruct u as [|c0 u1].
      * exists [], s. repeat split; [constructor; assumption|exact Hsq].
      * inversion Hu as [|c' u' Hc0 Hu1]; subst.
        rewrite Hws in Hc0. simpl in Hsq.
        inversion Hsq as [|c1 s1 t1 Hc1 Hs1|c1 d w s1 t1 Hc1 Hw Hd Hs1];
          subst.
        -- congruence.
        -- destruct u1 as [|x u1].
           ++ simpl in *. subst v.
              exists (c1 :: w), (d :: s1). repeat split.
              ** constructor.
                 --- constructor; [rewrite Hws; exact Hc1|].
                     apply (Forall_impl _ (fun a Ha => eq_trans (Hws a) Ha)).
                     exact Hw.
                 --- simpl in *. lia.
              ** exact Hs1.
           ++ exfalso. simpl in *.
              match goal with
              | E : d :: _ = x :: _ |- _ => inversion E; subst
              end.
              inversion Hu1 as [|x' u' Hx _]; subst.
              rewrite Hws in Hx. congruence.
Qed.

Lemma squeezed_suffix :
  forall (s t : pystr),
    Lang.squeezed s t ->
    forall n : nat, exists m : nat, Lang.squeezed (skipn m s) (skipn n t).
Proof.
  intros s t H.
  induction H as [s Hs|c s t Hc Hst IH|c d w s t Hc Hw Hd Hst IH]; intro n.
  - exists 0%nat. rewrite skipn_nil. simpl. constructor. exact Hs.
  - destruct n as [|n].
    + exists 0%nat. simpl. constructor; assumption.
    + destruct (IH n) as [m Hm]. exists (S m). exact Hm.
  - destruct n as [|n].
    + exists 0%nat. simpl. constructor; assumption.
    + destruct (IH n) as [m Hm].
      exists (S (length w + m)). simpl.
      rewrite skipn_app.
      rewrite (skipn_all2 w) by lia.
      replace (length w + m - length w)%nat with m by lia.
      exact Hm.
Qed.

(** A pattern that finds nothing in a text finds nothing in its
    whitespace-normal form. *)
Lemma unmatched_squeezed :
  forall (r : regex) (s t : pystr),
    Lang.spaced r -> Lang.squeezed s t ->
    Lang.unmatched r s -> Lang.unmatched r t.
Proof.
  intros r s t Hsp Hsq Hun n.
  destruct (match_at r (skipn n t)) as [k|] eqn:E; [|reflexivity].
  exfalso.
  assert (Hm : match_at r (skipn n t) <> None) by (rewrite E; discriminate).
  apply match_at_matches in Hm. destruct Hm as (u & v & Hsk & Hu).
  destruct (squeezed_suffix s t Hsq n) as [m Hm]. rewrite Hsk in Hm.
  destruct (matches_squeezed r u Hu Hsp _ v Hm) as (u' & v' & Hs & Hu' & _).
  assert (Hne : match_at r (skipn m s) <> None).
  { apply match_at_matches. exists u', v'. split; assumption. }
  apply Hne. apply Hun.
Qed.

(** *** The whitespace clean-up gives the whitespace-normal form *)

Lemma dropwhile_app_snoc :
  forall (p : char -> bool) (l : pystr) (c : char),
    dropwhile p (l ++ [c])
    = match dropwhile p l with
      | [] => if p c then [] else [c]
      | r => r ++ [c]
      end.
Proof.
  intros p. induction l as [|a l IH]; intro c; simpl.
  - destruct (p c); reflexivity.
  - destruct (p a); [apply IH|reflexivity].
Qed.

Lemma rstrip_space_cons :
  forall (c : char) (t : pystr),
    is_space c = true ->
    rstrip (c :: t) = match rstrip t with [] => [] | _ => c :: rstrip t end.
Proof.
  intros c t Hc. unfold rstrip. simpl. rewrite dropwhile_app_snoc, Hc.
  destruct (dropwhile is_space (rev t)) as [|a r] eqn:E; [reflexivity|].
  rewrite rev_app_distr. simpl.
  destruct (rev r ++ [a]) eqn:E2; [|reflexivity].
  destruct (rev r); discriminate.
Qed.

Lemma run_split :
  forall (p : char -> bool) (s : pystr),
    s = firstn (Shape.run p s) s ++ dropwhile p s.
Proof.
  intros p s. rewrite <- skipn_run. symmetry. apply firstn_skipn.
Qed.

Lemma squeezed_rstrip :
  forall s : pystr,
    Lang.squeezed s (rstrip (sub MessageProcessor.whitespace_run (const [32%N]) s)).
Proof.
  assert (H : forall n s, (length s <= n)%nat ->
              Lang.squeezed s
                (rstrip (sub MessageProcessor.whitespace_run (const [32%N]) s))).
  { induction n as [|n IH]; intros s Hl.
    - destruct s; [|simpl in Hl; lia]. constructor. constructor.
    - destruct s as [|c s]; [constructor; constructor|]. simpl in Hl.
      destruct (is_space c) eqn:E.
      + rewrite sub_whitespace_space by exact E.
        unfold const at 1. cbn [app].
        rewrite rstrip_space_cons by reflexivity.
        assert (Hd : (length (dropwhile is_space s) <= n)%nat)
          by (pose proof (dropwhile_length is_space s); lia).
        pose proof (IH _ Hd) as Hs.
        destruct (dropwhile is_space s) as [|d t] eqn:Ed.
        * change (rstrip (sub MessageProcessor.whitespace_run (const [32%N]) []))
            with (@nil char).
          cbv iota. constructor. constructor; [exact E|].
          rewrite (run_split is_space s), Ed, app_nil_r.
          apply firstn_run_all.
        * pose proof (dropwhile_head is_space s d t Ed) as Hnd.
          rewrite sub_whitespace_other in * by exact Hnd.
          rewrite rstrip_cons in * by exact Hnd.
          rewrite (run_split is_space s) at 1. rewrite Ed.
          apply Lang.sq_run; [exact E|apply firstn_run_all|exact Hnd|exact Hs].
      + rewrite sub_whitespace_other by exact E.
        rewrite rstrip_cons by exact E.
        constructor; [exact E|]. apply IH. lia. }
  intro s. exact (H (length s) s (Nat.le_refl _)).
Qed.

Lemma lstrip_sub_whitespace :
  forall s : pystr,
    lstrip (sub MessageProcessor.whitespace_run (const [32%N]) s)
    = sub MessageProcessor.whitespace_run (const [32%N]) (lstrip s).
Proof.
  intro s. destruct s as [|c s]; [reflexivity|].
  destruct (is_space c) eqn:E.
  - rewrite sub_whitespace_space by exact E.
    unfold const at 1. cbn [app]. unfold lstrip. simpl. rewrite E.
    destruct (dropwhile is_space s) as [|d t] eqn:Ed; [reflexivity|].
    pose proof (dropwhile_head is_space s d t Ed) as Hnd.
    rewrite sub_whitespace_other by exact Hnd.
    simpl. rewrite Hnd. reflexivity.
  - rewrite sub_whitespace_other by exact E.
    unfold lstrip. simpl. rewrite E.
    rewrite sub_whitespace_other by exact E. reflexivity.
Qed.

Lemma clean_whitespace_squeezed :
  forall s : pystr,
    Lang.squeezed (skipn (Shape.run is_space s) s)
                  (MessageProcessor.clean_whitespace s).
Proof.
  intro s. unfold MessageProcessor.clean_whitespace.
  pose proof (sub_whitespace_single_spaced s) as H.
  rewrite (sub_blank_lines_fixed _ _ (single_spaced_no_newline _ H)).
  unfold strip. rewrite lstrip_sub_whitespace.
  rewrite skipn_run. apply squeezed_rstrip.
Qed.

(** The patterns find nothing in the cleaned form of a text in which they
    find nothing. *)
Lemma clean_whitespace_unmatched :
  forall s : pystr,
    Forall (fun r => Lang.unmatched r s) Lang.link_patterns ->
    Forall (fun r => Lang.unmatched r (MessageProcessor.clean_whitespace s))
           Lang.link_patterns.
Proof.
  intros s H.
  pose proof link_patterns_spaced as Hsp.
  induction Hsp as [|r ps Hr _ IH]; [constructor|].
  inversion H as [|r' ps' Hu Hps]; subst.
  constructor; [|exact (IH Hps)].
  apply (unmatched_squeezed r (skipn (Shape.run is_space s) s) _ Hr).
  - apply clean_whitespace_squeezed.
  - apply unmatched_skipn. exact Hu.
Qed.

Lemma plain_unmatched :
  forall s : pystr,
    Lang.plain s = true ->
    Forall (fun r => Lang.unmatched r s) Lang.link_patterns.
Proof.
  intros s H.
  assert (Hs : Forall (fun c => Lang.link_char c = false) s).
  { apply Forall_forall. intros c Hin. unfold Lang.plain in H.
    rewrite forallb_forall in H. apply negb_true_iff. exact (H c Hin). }
  apply (Forall_impl _ (fun r Hr => needs_unmatched Lang.link_char r s Hr Hs)).
  exact link_patterns_need.
Qed.

(** *** The second application *)

(** C6, as stated: removing the mention of "a@_.com" leaves "a.com", which
    a second application removes as a domain. *)
Lemma remove_all_links_not_idempotent :
  MessageProcessor.remove_all_links_str (str "a@_.com") = str "a.com"
  /\ MessageProcessor.remove_all_links_str
       (MessageProcessor.remove_all_links_str (str "a@_.com")) = []
  /\ MessageProcessor.remove_all_links_str
       (MessageProcessor.remove_all_links_str (str "a@_.com"))
     <> MessageProcessor.remove_all_links_str (str "a@_.com").
Proof.
  split; [vm_compute; reflexivity|].
  split; [vm_compute; reflexivity|].
  vm_compute. discriminate.
Qed.

(** A second application on a result in which the loops find nothing. *)
Lemma remove_all_links_str_settled :
  forall y : pystr,
    Shape.single_spaced y = true -> strip y = y ->
    MessageProcessor.remove_links y = y ->
    MessageProcessor.remove_all_links_str y = y.
Proof.
  intros y Hs Hst Hy. destruct y as [|c y]; [reflexivity|].
  change (MessageProcessor.remove_all_links_str (c :: y))
    with (MessageProcessor.clean_whitespace
            (MessageProcessor.remove_links (c :: y))).
  rewrite Hy. exact (clean_whitespace_fixed _ Hs Hst).
Qed.

(** A second application on a result in which the loops find a match. *)
Lemma remove_all_links_str_unsettled :
  forall y : pystr,
    (length (MessageProcessor.remove_links y) < length y)%nat ->
    (length (MessageProcessor.remove_all_links_str y) < length y)%nat.
Proof.
  intros y Hlt. destruct y as [|c y]; [simpl in Hlt; lia|].
  change (MessageProcessor.remove_all_links_str (c :: y))
    with (MessageProcessor.clean_whitespace
            (MessageProcessor.remove_links (c :: y))).
  pose proof (clean_whitespace_shorter (MessageProcessor.remove_links (c :: y))).
  lia.
Qed.

(** C6, amended: [remove_all_links] is idempotent on every text in which
    its removal loops find nothing, that is, in which none of the eight
    patterns matches anywhere, and in particular on every text without
    full stop, colon, at sign and letter g: it then only cleans the
    whitespace, and the cleaned text holds no link either.  On any text the
    second application changes the first result exactly when the loops find
    a link in it, which a removal of the first application has put
    together, and the second result is then shorter.  The whitespace
    clean-up is idempotent on every text. *)
Theorem remove_all_links_idempotent_without_links :
  forall x : pystr,
    let once := MessageProcessor.remove_all_links_str x in
    let twice := MessageProcessor.remove_all_links_str once in
    (MessageProcessor.remove_links x = x ->
       once = MessageProcessor.clean_whitespace x /\ twice = once)
    /\ (MessageProcessor.remove_links x = x
        <-> Forall (fun r => Lang.unmatched r x) Lang.link_patterns)
    /\ (Lang.plain x = true -> MessageProcessor.remove_links x = x)
    /\ (twice = once <-> MessageProcessor.remove_links once = once)
    /\ (twice <> once -> (length twice < length once)%nat)
    /\ MessageProcessor.clean_whitespace (MessageProcessor.clean_whitespace x)
       = MessageProcessor.clean_whitespace x.
Proof.
  intros x once twice. subst twice once.
  destruct (remove_all_links_str_shape x) as [Hs Hst].
  split; [|split; [|split; [|split; [|split]]]].
  - intro Hx.
    assert (Honce : MessageProcessor.remove_all_links_str x
                    = MessageProcessor.clean_whitespace x).
    { destruct x as [|c x]; [reflexivity|].
      change (MessageProcessor.remove_all_links_str (c :: x))
        with (MessageProcessor.clean_whitespace
                (MessageProcessor.remove_links (c :: x))).
      rewrite Hx. reflexivity. }
    split; [exact Honce|].
    apply (remove_all_links_str_settled _ Hs Hst).
    rewrite Honce. apply remove_links_unmatched.
    apply clean_whitespace_unmatched.
    destruct (remove_links_fixed_or_shorter x) as [[Hall _]|Hlt];
      [exact Hall|rewrite Hx in Hlt; lia].
  - split.
    + intro Hx.
      destruct (remove_links_fixed_or_shorter x) as [[Hall _]|Hlt];
        [exact Hall|rewrite Hx in Hlt; lia].
    + apply remove_links_unmatched.
  - intro Hp. apply remove_links_unmatched. apply plain_unmatched. exact Hp.
  - split.
    + intro Heq.
      destruct (remove_links_fixed_or_shorter
                  (MessageProcessor.remove_all_links_str x))
        as [[_ Hfix]|Hlt]; [exact Hfix|].
      pose proof (remove_all_links_str_unsettled _ Hlt) as Hl.
      rewrite Heq in Hl. lia.
    + intro Hy. exact (remove_all_links_str_settled _ Hs Hst Hy).
  - intro Hne.
    destruct (remove_links_fixed_or_shorter
                (MessageProcessor.remove_all_links_str x))
      as [[_ Hfix]|Hlt].
    + exfalso. apply Hne. exact (remove_all_links_str_settled _ Hs Hst Hfix).
    + exact (remove_all_links_str_unsettled _ Hlt).
  - destruct (clean_whitespace_shape x) as [Hs' Hst'].
    exact (clean_whitespace_fixed _ Hs' Hst').
Qed.

Lemma remove_all_links_idempotent_without_links_witness :
  MessageProcessor.remove_all_links_str (str "Good  morning. See you at 10:30!")
  = str "Good morning. See you at 10:30!"
  /\ MessageProcessor.remove_all_links_str
       (MessageProcessor.remove_all_links_str
          (str "Good  morning. See you at 10:30!"))
     = MessageProcessor.remove_all_links_str
         (str "Good  morning. See you at 10:30!").
Proof.
  destruct (remove_all_links_idempotent_without_links
              (str "Good  morning. See you at 10:30!")) as [H _].
  cbv zeta in H. destruct H as [H1 H2].
  - vm_compute. reflexivity.
  - split; [|exact H2]. rewrite H1. vm_compute. reflexivity.
Defined.

(** ** The composed text and the messages sent *)

Lemma compose_ends_with_reference_aux :
  forall (b : TelegramForwardBot) (s : pystr),
    exists front,
      Main.compose b s
      = front ++ MessageProcessor.reference_text (message_processor b).
Proof.
  intros b s. unfold Main.compose.
  destruct (Main.truncate (Config.max_message_length (config b)) s) as [|c t].
  - exists []. reflexivity.
  - exists ((c :: t) ++ [10; 10]%N). simpl. rewrite <- app_assoc. reflexivity.
Qed.

(** The composed text always ends with the reference text held by the
    processor; it is that text alone when the body is empty, and the body,
    two line feeds and that text otherwise.  The composed text is empty only
    if both the body after the length check and the reference are. *)
Theorem compose_ends_with_reference :
  forall (b : TelegramForwardBot) (s : pystr),
    let ref := MessageProcessor.reference_text (message_processor b) in
    let cut := Main.truncate (Config.max_message_length (config b)) s in
    (cut = [] -> Main.compose b s = ref)
    /\ (cut <> [] -> Main.compose b s = cut ++ [10; 10]%N ++ ref)
    /\ (exists front, Main.compose b s = front ++ ref)
    /\ (Main.compose b s = [] -> cut = [] /\ ref = []).
Proof.
  intros b s ref cut. subst ref cut. unfold Main.compose.
  destruct (Main.truncate (Config.max_message_length (config b)) s)
    as [|c cut'].
  - cbn [MessageProcessor.add_custom_reference]. repeat split.
    + intro H. contradiction.
    + exists []. reflexivity.
    + exact H.
  - cbn [MessageProcessor.add_custom_reference]. repeat split.
    + discriminate.
    + exists ((c :: cut') ++ [10; 10]%N). simpl. rewrite <- app_assoc. reflexivity.
    + discriminate H.
    + discriminate H.
Qed.

(** X7: for a maximum of at least 3 the composed text is never longer than
    the maximum plus the two line feeds and the reference. *)
Theorem compose_length_bound :
  forall (b : TelegramForwardBot) (s : pystr),
    3 <= Config.max_message_length (config b) ->
    len (Main.compose b s)
    <= Config.max_message_length (config b) + 2
       + len (MessageProcessor.reference_text (message_processor b)).
Proof.
  intros b s Hmx.
  remember (Config.max_message_length (config b)) as mx eqn:Emx.
  assert (Hcut : len (Main.truncate mx s) <= mx).
  { destruct (Z.lt_ge_cases mx (len s)) as [Hl|Hl].
    - rewrite (proj2 (truncate_long mx s Hmx Hl)). lia.
    - rewrite truncate_short by lia. lia. }
  unfold Main.compose. rewrite <- Emx.
  pose proof (len_nonneg (MessageProcessor.reference_text (message_processor b))).
  destruct (Main.truncate mx s) as [|c t] eqn:E.
  - cbn [MessageProcessor.add_custom_reference]. lia.
  - rewrite add_custom_reference_nonempty by discriminate.
    rewrite !len_app. change (len [10; 10]%N) with 2. lia.
Qed.

Lemma compose_length_bound_witness :
  len (Main.compose Sample.bot0 (repeat 97%N 5000))
  <= 4000 + 2 + len Config.default_reference_text.
Proof.
  apply (compose_length_bound Sample.bot0 (repeat 97%N 5000)).
  vm_compute. discriminate.
Defined.

Lemma update_stats_fields :
  forall now a act,
    let a' := Admin.update_stats now a act in
    admin_user_id a' = admin_user_id a
    /\ bot_instance_set a' = bot_instance_set a
    /\ command_history a' = command_history a
    /\ error_log a' = error_log a
    /\ errors_count (stats a') = errors_count (stats a)
    /\ is_active (stats a') = is_active (stats a)
    /\ start_time (stats a') = start_time (stats a)
    /\ messages_forwarded (stats a')
       = messages_forwarded (stats a)
         + match act with Admin.message_forwarded => 1 | _ => 0 end
    /\ messages_skipped (stats a')
       = messages_skipped (stats a)
         + match act with Admin.message_skipped => 1 | _ => 0 end.
Proof.
  intros now a act. destruct act; simpl; repeat split; lia.
Qed.

Lemma log_error_fields :
  forall now a ty e,
    let a' := Admin.log_error now a ty e in
    admin_user_id a' = admin_user_id a
    /\ bot_instance_set a' = bot_instance_set a
    /\ command_history a' = command_history a
    /\ is_active (stats a') = is_active (stats a)
    /\ start_time (stats a') = start_time (stats a).
Proof. intros. simpl. repeat split. Qed.

(** The outcomes of one call of [process_and_forward_message]. *)
Lemma relay_outcomes :
  forall now w b ev,
    let r := Main.process_and_forward_message now w b ev in
    r = (b, [])
    \/ r = (Main.with_admin b
              (fun a => Admin.update_stats now a Admin.message_skipped), [])
    \/ (exists e,
          r = (Main.with_admin b
                 (fun a => Admin.log_error now a
                             (str "Message processing error") e), []))
    \/ (exists c t,
          Main.process_message_content w b (message ev) = c :: t
          /\ r = (Main.with_admin b
                    (fun a => Admin.update_stats now a Admin.message_forwarded),
                  [ {| to := Config.destination_group_id (config b);
                       body := c :: t;
                       file := match MessageProcessor.media (message ev) with
                               | Some m =>
                                   if Config.forward_media (config b)
                                   then Some m else None
                               | None => None
                               end;
                       button_url := Main.create_channel_button b |} ])).
Proof.
  intros now w b ev r. subst r.
  unfold Main.process_and_forward_message, Main.forward.
  destruct (get_me w) as [me|e]; cbn [bind];
    [|right; right; left; exists e; reflexivity].
  destruct (Main.from_self (message ev) me) as [[|]|e]; cbn [bind];
    [left; reflexivity| |right; right; left; exists e; reflexivity].
  destruct (MessageProcessor.should_forward_message
              (message ev) (Config.min_message_length (config b)))
    as [[|] reason]; cbn [negb];
    [|right; left; reflexivity].
  destruct (Main.process_message_content w b (message ev)) as [|c t] eqn:E;
    [right; left; reflexivity|].
  destruct (raises w Sending) as [e|];
    [right; right; left; exists e; reflexivity|].
  right; right; right. exists c, t. split; reflexivity.
Qed.

Lemma relay_accounting_aux :
  forall now w b ev,
    is_forwarding (fst (Main.process_and_forward_message now w b ev))
    = is_forwarding b
    /\ is_active (stats (admin_manager
                           (fst (Main.process_and_forward_message now w b ev))))
       = is_active (stats (admin_manager b)).
Proof.
  intros now w b ev.
  destruct (relay_outcomes now w b ev) as [H|[H|[[e H]|(c & t & _ & H)]]];
    rewrite H; split; reflexivity.
Qed.

(** X8: a call of [process_and_forward_message] sends at most one message
    and adds the number of messages sent to [messages_forwarded]; the three
    counters together go up by at most one; the configuration, the
    processor, the forwarding switch, the reported flag, the start time and
    the command history are left as they were. *)
Theorem relay_accounting :
  forall (now : time) (w : World) (b : TelegramForwardBot) (ev : Event),
    let r := Main.process_and_forward_message now w b ev in
    let s := stats (admin_manager b) in
    let s' := stats (admin_manager (fst r)) in
    (length (snd r) <= 1)%nat
    /\ messages_forwarded s' = messages_forwarded s + Z.of_nat (length (snd r))
    /\ messages_skipped s <= messages_skipped s'
    /\ errors_count s <= errors_count s'
    /\ (messages_forwarded s' - messages_forwarded s)
       + (messages_skipped s' - messages_skipped s)
       + (errors_count s' - errors_count s) <= 1
    /\ config (fst r) = config b
    /\ message_processor (fst r) = message_processor b
    /\ is_forwarding (fst r) = is_forwarding b
    /\ is_active s' = is_active s
    /\ start_time s' = start_time s
    /\ command_history (admin_manager (fst r)) = command_history (admin_manager b).
Proof.
  intros now w b ev r s s'. subst s s'.
  destruct (relay_outcomes now w b ev) as [H|[H|[[e H]|(c & t & _ & H)]]];
    fold r in H; rewrite H; clear H r;
    cbn [fst snd length Main.with_admin set_admin_manager admin_manager
         config message_processor is_forwarding].
  - repeat split; lia.
  - destruct (update_stats_fields now (admin_manager b) Admin.message_skipped)
      as (_ & _ & Hh & _ & He & Ha & Hs & Hf & Hk).
    rewrite Hh, He, Ha, Hs, Hf, Hk. repeat split; lia.
  - destruct (log_error_fields now (admin_manager b)
                (str "Message processing error") e)
      as (_ & _ & Hh & Ha & Hs).
    destruct (log_error_effect now (admin_manager b)
                (str "Message processing error") e)
      as (He & Hf & Hk & _).
    rewrite Hh, He, Ha, Hs, Hf, Hk. repeat split; lia.
  - destruct (update_stats_fields now (admin_manager b) Admin.message_forwarded)
      as (_ & _ & Hh & _ & He & Ha & Hs & Hf & Hk).
    rewrite Hh, He, Ha, Hs, Hf, Hk. repeat split; lia.
Qed.

(** X9: whatever is sent goes to the configured destination, carries the
    channel link the configuration holds at that moment, and has a text that
    ends with the reference text of the processor. *)
Theorem sent_message_shape :
  forall (now : time) (w : World) (b : TelegramForwardBot) (ev : Event)
         (m : SentMessage),
    In m (snd (Main.process_and_forward_message now w b ev)) ->
    to m = Config.destination_group_id (config b)
    /\ button_url m = Config.channel_link (config b)
    /\ body m <> []
    /\ (exists front,
          body m = front ++ MessageProcessor.reference_text (message_processor b))
    /\ (Config.forward_media (config b) = false -> file m = None).
Proof.
  intros now w b ev m Hin.
  destruct (relay_outcomes now w b ev) as [H|[H|[[e H]|(c & t & Hc & H)]]];
    rewrite H in Hin; cbn [snd] in Hin; try contradiction.
  destruct Hin as [<-|[]]. cbn [to button_url body file].
  split; [reflexivity|]. split; [reflexivity|]. split; [discriminate|].
  split.
  - rewrite <- Hc. unfold Main.process_message_content.
    unfold Main.process_message_content in Hc.
    destruct (raises w Sanitizing); [discriminate|].
    destruct (raises w Composing); [discriminate|].
    destruct (compose_ends_with_reference_aux b
                (Main.sanitize (MessageProcessor.text_or_empty (message ev))))
      as [front Hf].
    exists front. exact Hf.
  - intro Hm. rewrite Hm.
    destruct (MessageProcessor.media (message ev)); reflexivity.
Qed.

Lemma sent_message_shape_witness :
  to {| to := 200;
        body := str "hello world, this is a message" ++ [10; 10]%N
                ++ Config.default_reference_text;
        file := None;
        button_url := str "https://t.me/your_channel" |}
  = Config.destination_group_id (config Sample.bot0).
Proof.
  apply (sent_message_shape 5 Sample.quiet_world Sample.bot0
           (Sample.event_of 555 Sample.plain_message)).
  vm_compute. left. reflexivity.
Defined.

(** X10: a message whose [from_id] is a chat or a channel peer is never
    relayed: reading its [user_id] raises, the exception is logged, and only
    [errors_count] moves.  A message of the bot itself is dropped without
    any trace. *)
Theorem relay_by_sender_peer :
  forall (now : time) (w : World) (b : TelegramForwardBot) (ev : Event)
         (me : User),
    get_me w = Ok me ->
    let r := Main.process_and_forward_message now w b ev in
    let s := stats (admin_manager b) in
    let s' := stats (admin_manager (fst r)) in
    ((exists n, MessageProcessor.from_id (message ev)
                = Some (MessageProcessor.PeerChannel n))
     \/ (exists n, MessageProcessor.from_id (message ev)
                   = Some (MessageProcessor.PeerChat n)) ->
       snd r = []
       /\ errors_count s' = errors_count s + 1
       /\ messages_forwarded s' = messages_forwarded s
       /\ messages_skipped s' = messages_skipped s
       /\ exists older e,
            error_log (admin_manager (fst r))
            = older ++ [{| err_timestamp := now;
                           err_type := str "Message processing error";
                           err_message := e |}])
    /\ (MessageProcessor.from_id (message ev)
        = Some (MessageProcessor.PeerUser (id me)) ->
        r = (b, [])).
Proof.
  intros now w b ev me Hme r s s'. subst r s s'.
  unfold Main.process_and_forward_message, Main.forward.
  rewrite Hme. cbn [bind]. unfold Main.from_self. split.
  - intros [[n Hn]|[n Hn]]; rewrite Hn; cbn [bind fst snd];
      cbn [Main.with_admin set_admin_manager admin_manager].
    + destruct (log_error_effect now (admin_manager b)
                  (str "Message processing error")
                  (str "'PeerChannel' object has no attribute 'user_id'"))
        as (He & Hf & Hk & older & Hl).
      repeat split; try assumption.
      exists older. eexists. exact Hl.
    + destruct (log_error_effect now (admin_manager b)
                  (str "Message processing error")
                  (str "'PeerChat' object has no attribute 'user_id'"))
        as (He & Hf & Hk & older & Hl).
      repeat split; try assumption.
      exists older. eexists. exact Hl.
  - intro Hn. rewrite Hn. rewrite Z.eqb_refl. reflexivity.
Qed.

Lemma relay_by_sender_peer_witness :
  Main.process_and_forward_message 5 Sample.quiet_world Sample.bot0
    (Sample.event_of 1 (Sample.text_message 1 (str "an echo of the bot itself")))
  = (Sample.bot0, []).
Proof.
  apply (relay_by_sender_peer 5 Sample.quiet_world Sample.bot0
           (Sample.event_of 1
              (Sample.text_message 1 (str "an echo of the bot itself")))
           {| id := 1; username := str "relay" |} eq_refl).
  reflexivity.
Defined.

(** X11: with a reference text that is not empty, an approved message of
    another user is sent whenever nothing raises: it is never dropped for
    want of content, even when nothing of its text survives. *)
Theorem approved_message_is_sent :
  forall (now : time) (w : World) (b : TelegramForwardBot) (ev : Event)
         (me : User),
    get_me w = Ok me ->
    Main.from_self (message ev) me = Ok false ->
    fst (MessageProcessor.should_forward_message
           (message ev) (Config.min_message_length (config b))) = true ->
    (forall st, raises w st = None) ->
    MessageProcessor.reference_text (message_processor b) <> [] ->
    let r := Main.process_and_forward_message now w b ev in
    map body (snd r)
    = [Main.compose b (Main.sanitize (MessageProcessor.text_or_empty (message ev)))]
    /\ messages_forwarded (stats (admin_manager (fst r)))
       = messages_forwarded (stats (admin_manager b)) + 1
    /\ messages_skipped (stats (admin_manager (fst r)))
       = messages_skipped (stats (admin_manager b))
    /\ last_message_time (stats (admin_manager (fst r))) = Some now.
Proof.
  intros now w b ev me Hme Hself Hok Hraise Href r. subst r.
  unfold Main.process_and_forward_message, Main.forward.
  rewrite Hme. cbn [bind]. rewrite Hself. cbn [bind].
  destruct (MessageProcessor.should_forward_message
              (message ev) (Config.min_message_length (config b)))
    as [ok reason].
  cbn [fst] in Hok. subst ok. cbn [negb].
  unfold Main.process_message_content. rewrite !Hraise.
  destruct (Main.compose b
              (Main.sanitize (MessageProcessor.text_or_empty (message ev))))
    as [|c t] eqn:E.
  - destruct (compose_ends_with_reference_aux b
                (Main.sanitize (MessageProcessor.text_or_empty (message ev))))
      as [front Hf].
    rewrite E in Hf. destruct front; [|discriminate].
    simpl in Hf. symmetry in Hf. contradiction.
  - cbn. repeat split; lia.
Qed.

Lemma approved_message_is_sent_witness :
  map body
      (snd (Main.process_and_forward_message 5 Sample.quiet_world Sample.bot0
              (Sample.event_of 555 Sample.plain_message)))
  = [Main.compose Sample.bot0
       (Main.sanitize
          (MessageProcessor.text_or_empty
             (message (Sample.event_of 555 Sample.plain_message))))].
Proof.
  apply (approved_message_is_sent 5 Sample.quiet_world Sample.bot0
           (Sample.event_of 555 Sample.plain_message)
           {| id := 1; username := str "relay" |}
           eq_refl eq_refl eq_refl (fun _ => eq_refl)).
  vm_compute. discriminate.
Defined.

(** X12: a text of fewer than five characters is never approved, whatever
    the minimum length, zero and negative values included. *)
Theorem short_text_never_forwarded :
  forall (m : MessageProcessor.Message) (min_length : Z) (t : pystr),
    MessageProcessor.text m = Some t ->
    t <> [] ->
    (length t < 5)%nat ->
    fst (MessageProcessor.should_forward_message m min_length) = false.
Proof.
  intros m mn t Ht Hne Hlen.
  unfold MessageProcessor.should_forward_message.
  assert (Hhas : MessageProcessor.has_text m = true).
  { unfold MessageProcessor.has_text. rewrite Ht.
    destruct t; [contradiction|reflexivity]. }
  assert (Htxt : MessageProcessor.text_or_empty m = t).
  { unfold MessageProcessor.text_or_empty. rewrite Ht. reflexivity. }
  rewrite Hhas, Htxt. cbn [negb andb].
  destruct (len (strip t) <? mn); [reflexivity|].
  assert (Hs : len (strip (MessageProcessor.remove_all_links_str t)) < 5).
  { unfold len.
    pose proof (strip_shorter (MessageProcessor.remove_all_links_str t)).
    pose proof (remove_all_links_never_longer_aux t). lia. }
  apply Z.ltb_lt in Hs. rewrite Hs. reflexivity.
Qed.

Lemma short_text_never_forwarded_witness :
  fst (MessageProcessor.should_forward_message
         (Sample.text_message 555 (str "ok!")) 0) = false.
Proof.
  apply (short_text_never_forwarded
           (Sample.text_message 555 (str "ok!")) 0 (str "ok!") eq_refl).
  - discriminate.
  - vm_compute. lia.
Defined.

(** ** C10: what [/reset_stats] resets *)

Lemma compose_not_empty :
  forall (b : TelegramForwardBot) (s : pystr),
    MessageProcessor.reference_text (message_processor b) <> [] ->
    Main.compose b s <> [].
Proof.
  intros b s Href. unfold Main.compose.
  destruct (Main.truncate (Config.max_message_length (config b)) s) as [|c t].
  - exact Href.
  - discriminate.
Qed.

(** The relay of an approved message of another user on a transport on
    which nothing raises, with a reference text that is not empty. *)
Lemma relay_sends :
  forall (now : time) (w : World) (b : TelegramForwardBot) (ev : Event)
         (me : User),
    get_me w = Ok me ->
    Main.from_self (message ev) me = Ok false ->
    fst (MessageProcessor.should_forward_message
           (message ev) (Config.min_message_length (config b))) = true ->
    (forall st, raises w st = None) ->
    MessageProcessor.reference_text (message_processor b) <> [] ->
    Main.process_and_forward_message now w b ev
    = (Main.with_admin b
         (fun a => Admin.update_stats now a Admin.message_forwarded),
       [ {| to := Config.destination_group_id (config b);
            body := Main.compose b
                      (Main.sanitize
                         (MessageProcessor.text_or_empty (message ev)));
            file := match MessageProcessor.media (message ev) with
                    | Some m =>
                        if Config.forward_media (config b)
                        then Some m else None
                    | None => None
                    end;
            button_url := Config.channel_link (config b) |} ]).
Proof.
  intros now w b ev me Hme Hself Hok Hraise Href.
  unfold Main.process_and_forward_message, Main.forward.
  rewrite Hme. cbn [bind]. rewrite Hself. cbn [bind].
  destruct (MessageProcessor.should_forward_message
              (message ev) (Config.min_message_length (config b)))
    as [ok reason].
  cbn [fst] in Hok. subst ok. cbn [negb].
  unfold Main.process_message_content. rewrite !Hraise.
  pose proof (compose_not_empty b
                (Main.sanitize (MessageProcessor.text_or_empty (message ev)))
                Href) as Hne.
  destruct (Main.compose b
              (Main.sanitize (MessageProcessor.text_or_empty (message ev))))
    as [|c t]; [contradiction|].
  reflexivity.
Qed.

(** What is sent for an event depends on the configuration, the processor
    and the forwarding switch only. *)
Lemma relay_sent_frame :
  forall (now : time) (w : World) (b b' : TelegramForwardBot) (ev : Event),
    config b' = config b ->
    message_processor b' = message_processor b ->
    is_forwarding b' = is_forwarding b ->
    snd (Main.handle_source_message now w b' ev)
    = snd (Main.handle_source_message now w b ev).
Proof.
  intros now w b b' ev Hc Hp Hf.
  unfold Main.handle_source_message. rewrite Hf.
  destruct (is_forwarding b); [|reflexivity].
  unfold Main.process_and_forward_message, Main.forward.
  destruct (get_me w) as [me|e]; cbn [bind]; [|reflexivity].
  destruct (Main.from_self (message ev) me) as [[|]|e]; cbn [bind];
    try reflexivity.
  rewrite Hc.
  destruct (MessageProcessor.should_forward_message
              (message ev) (Config.min_message_length (config b)))
    as [[|] reason]; cbn [negb]; [|reflexivity].
  assert (E : Main.process_message_content w b' (message ev)
              = Main.process_message_content w b (message ev)).
  { unfold Main.process_message_content, Main.compose. rewrite Hc, Hp.
    reflexivity. }
  rewrite E.
  destruct (Main.process_message_content w b (message ev)) as [|c t];
    [reflexivity|].
  destruct (raises w Sending); [reflexivity|].
  unfold Main.create_channel_button. rewrite Hc. reflexivity.
Qed.

(** C10: [/reset_stats] puts fresh statistics in place (so the reported flag
    [is_active] is false), empties both logs and leaves the forwarding
    switch, the configuration and the processor as they were, whatever the
    switch is.  What the source handler sends for an event is therefore the
    same after the reset as before it.  With the switch off nothing is
    relayed; with the switch on, an approved message of another user is
    sent to the destination with its composed text and counted as the first
    forwarded message, while [/status] reports the bot inactive before and
    after that message. *)
Theorem reset_stats_keeps_forwarding :
  forall (now : time) (w : World) (b : TelegramForwardBot) (ar : pystr),
    let b' := fst (Admin.cmd_reset_stats now w b ar) in
    snd (Admin.cmd_reset_stats now w b ar) = [StatisticsReset]
    /\ stats (admin_manager b') = new_stats now
    /\ is_active (stats (admin_manager b')) = false
    /\ command_history (admin_manager b') = []
    /\ error_log (admin_manager b') = []
    /\ is_forwarding b' = is_forwarding b
    /\ config b' = config b
    /\ message_processor b' = message_processor b
    /\ (forall now' w' ar',
          snd (Admin.cmd_get_status now' w' b' ar')
          = [StatusReport false (new_stats now)])
    /\ (forall now' w' ev,
          snd (Main.handle_source_message now' w' b' ev)
          = snd (Main.handle_source_message now' w' b ev))
    /\ (is_forwarding b = false ->
        forall now' w' ev, Main.handle_source_message now' w' b' ev = (b', []))
    /\ (is_forwarding b = true ->
        forall now' w' ev,
          Main.handle_source_message now' w' b' ev
          = Main.process_and_forward_message now' w' b' ev)
    /\ (is_forwarding b = true ->
        forall (now' : time) (w' : World) (ev : Event) (me : User),
          get_me w' = Ok me ->
          Main.from_self (message ev) me = Ok false ->
          fst (MessageProcessor.should_forward_message
                 (message ev) (Config.min_message_length (config b))) = true ->
          (forall st, raises w' st = None) ->
          MessageProcessor.reference_text (message_processor b) <> [] ->
          let r := Main.handle_source_message now' w' b' ev in
          snd r
          = [ {| to := Config.destination_group_id (config b);
                 body := Main.compose b
                           (Main.sanitize
                              (MessageProcessor.text_or_empty (message ev)));
                 file := match MessageProcessor.media (message ev) with
                         | Some m =>
                             if Config.forward_media (config b)
                             then Some m else None
                         | None => None
                         end;
                 button_url := Config.channel_link (config b) |} ]
          /\ messages_forwarded (stats (admin_manager (fst r))) = 1
          /\ messages_skipped (stats (admin_manager (fst r))) = 0
          /\ errors_count (stats (admin_manager (fst r))) = 0
          /\ is_forwarding (fst r) = true
          /\ is_active (stats (admin_manager (fst r))) = false
          /\ (forall now'' w'' ar',
                snd (Admin.cmd_get_status now'' w'' (fst r) ar')
                = [StatusReport false (stats (admin_manager (fst r)))])).
Proof.
  intros now w b ar b'.
  assert (Hf : is_forwarding b' = is_forwarding b) by reflexivity.
  assert (Hc : config b' = config b) by reflexivity.
  assert (Hp : message_processor b' = message_processor b) by reflexivity.
  assert (Hs : stats (admin_manager b') = new_stats now) by reflexivity.
  split; [reflexivity|]. split; [exact Hs|]. split; [reflexivity|].
  split; [reflexivity|]. split; [reflexivity|]. split; [exact Hf|].
  split; [exact Hc|]. split; [exact Hp|]. split; [reflexivity|].
  split; [|split; [|split]].
  - intros now' w' ev. exact (relay_sent_frame now' w' b b' ev Hc Hp Hf).
  - intros Hoff now' w' ev. unfold Main.handle_source_message.
    rewrite Hf, Hoff. reflexivity.
  - intros Hon now' w' ev. unfold Main.handle_source_message.
    rewrite Hf, Hon. reflexivity.
  - intros Hon now' w' ev me Hme Hself Hok Hraise Href r. subst r.
    unfold Main.handle_source_message. rewrite Hf, Hon.
    rewrite <- Hc in Hok. rewrite <- Hp in Href.
    rewrite (relay_sends now' w' b' ev me Hme Hself Hok Hraise Href).
    cbn [fst snd]. unfold Main.compose. rewrite Hc, Hp.
    split; [reflexivity|].
    unfold Main.with_admin.
    cbn [admin_manager set_admin_manager is_forwarding].
    destruct (update_stats_fields now' (admin_manager b')
                Admin.message_forwarded)
      as (_ & _ & _ & _ & He & Ha & _ & Hfw & Hsk).
    cbv zeta in He, Ha, Hfw, Hsk.
    rewrite Hs in He, Ha, Hfw, Hsk.
    split; [exact Hfw|]. split; [exact Hsk|]. split; [exact He|].
    split; [exact (eq_trans Hf Hon)|]. split; [exact Ha|].
    intros now'' w'' ar'. unfold Admin.cmd_get_status.
    cbn [snd admin_manager set_admin_manager].
    rewrite Ha. reflexivity.
Qed.

Lemma reset_stats_keeps_forwarding_witness :
  let b' := fst (Admin.cmd_reset_stats 9 Sample.quiet_world
                   Sample.started_bot []) in
  map body (snd (Main.handle_source_message 10 Sample.quiet_world b'
                   (Sample.event_of 555 Sample.plain_message)))
  = [str "hello world, this is a message" ++ [10; 10]%N
     ++ Config.default_reference_text]
  /\ messages_forwarded
       (stats (admin_manager
                 (fst (Main.handle_source_message 10 Sample.quiet_world b'
                         (Sample.event_of 555 Sample.plain_message))))) = 1
  /\ is_active
       (stats (admin_manager
                 (fst (Main.handle_source_message 10 Sample.quiet_world b'
                         (Sample.event_of 555 Sample.plain_message))))) = false.
Proof.
  cbv zeta.
  pose proof (reset_stats_keeps_forwarding 9 Sample.quiet_world
                Sample.started_bot []) as H.
  cbv zeta in H.
  destruct H as (_ & _ & _ & _ & _ & _ & _ & _ & _ & _ & _ & _ & Hon).
  destruct (Hon eq_refl 10 Sample.quiet_world
              (Sample.event_of 555 Sample.plain_message)
              {| id := 1; username := str "relay" |}
              eq_refl eq_refl eq_refl (fun _ => eq_refl))
    as (Hsent & Hfw & _ & _ & _ & Hact & _).
  - vm_compute. discriminate.
  - split; [|split; [exact Hfw|exact Hact]].
    rewrite Hsent. vm_compute. reflexivity.
Defined.

(** The same through the dispatcher: after [/start] and [/reset_stats] a
    source message is relayed, and [/status] reports the bot inactive. *)
Example reset_then_forward :
  let b := fst (Admin.handle_admin_command 9 Sample.quiet_world
                  Sample.started_bot Sample.reset_event) in
  map body (snd (Main.handle_source_message 10 Sample.quiet_world b
                   (Sample.event_of 555 Sample.plain_message)))
  = [str "hello world, this is a message" ++ [10; 10]%N
     ++ Config.default_reference_text]
  /\ snd (Admin.handle_admin_command 11 Sample.quiet_world b
            (Sample.event_of 42 (Sample.text_message 42 (str "/status"))))
     = [StatusReport false (new_stats 9)].
Proof. cbv zeta. split; vm_compute; reflexivity. Qed.

(** ** The two logs *)

(** X13: after any sequence of logged commands the history is the last 100
    elements of the earlier history followed by the new entries, in the
    order of the calls. *)
Theorem command_log_keeps_newest :
  forall (es : list CommandLogEntry) (a : AdminManager),
    command_history (Sample.log_all es a)
    = match es with
      | [] => command_history a
      | _ => last_n 100 (command_history a ++ es)
      end.
Proof.
  assert (Hstep : forall e a,
            command_history
              (Admin.log_command (cmd_timestamp e) a (command e) (args e)
                                 (user_id e))
            = last_n 100 (command_history a ++ [e])).
  { intros e a. rewrite log_command_history. cbv zeta.
    destruct e. cbn [cmd_timestamp command args user_id].
    apply capped_is_last_n. }
  assert (H : forall es e a,
            command_history (Sample.log_all (e :: es) a)
            = last_n 100 (command_history a ++ e :: es)).
  { induction es as [|e' es IH]; intros e a.
    - exact (Hstep e a).
    - change (Sample.log_all (e :: e' :: es) a)
        with (Sample.log_all (e' :: es)
                (Admin.log_command (cmd_timestamp e) a (command e) (args e)
                                   (user_id e))).
      rewrite IH, Hstep, last_n_absorb, <- app_assoc. reflexivity. }
  intros [|e es] a; [reflexivity|apply H].
Qed.

(** X14: the error log keeps the last 50 errors in the order of the calls,
    while [errors_count] goes up by one for every error, so that the count
    exceeds the length of the log once more than 50 errors occurred; no
    call touches the command history. *)
Theorem error_log_keeps_newest :
  forall (es : list ErrorLogEntry) (a : AdminManager),
    error_log (Trace.log_errors es a)
    = match es with
      | [] => error_log a
      | _ => last_n 50 (error_log a ++ es)
      end
    /\ errors_count (stats (Trace.log_errors es a))
       = errors_count (stats a) + Z.of_nat (length es)
    /\ command_history (Trace.log_errors es a) = command_history a
    /\ ((length (error_log a) <= 50)%nat ->
        (length (error_log (Trace.log_errors es a)) <= 50)%nat).
Proof.
  assert (Hstep : forall e a,
            error_log (Admin.log_error (err_timestamp e) a (err_type e)
                                       (err_message e))
            = last_n 50 (error_log a ++ [e])).
  { intros e a. rewrite log_error_log. destruct e. reflexivity. }
  assert (Hlog : forall es e a,
            error_log (Trace.log_errors (e :: es) a)
            = last_n 50 (error_log a ++ e :: es)).
  { induction es as [|e' es IH]; intros e a.
    - exact (Hstep e a).
    - change (Trace.log_errors (e :: e' :: es) a)
        with (Trace.log_errors (e' :: es)
                (Admin.log_error (err_timestamp e) a (err_type e)
                                 (err_message e))).
      rewrite IH, Hstep, last_n_absorb, <- app_assoc. reflexivity. }
  assert (Hcount : forall es a,
            errors_count (stats (Trace.log_errors es a))
            = errors_count (stats a) + Z.of_nat (length es)
            /\ command_history (Trace.log_errors es a) = command_history a).
  { induction es as [|e es IH]; intro a.
    - simpl. split; [lia|reflexivity].
    - change (Trace.log_errors (e :: es) a)
        with (Trace.log_errors es
                (Admin.log_error (err_timestamp e) a (err_type e)
                                 (err_message e))).
      destruct (IH (Admin.log_error (err_timestamp e) a (err_type e)
                                    (err_message e))) as [H1 H2].
      rewrite H1, H2. cbn [length]. rewrite Nat2Z.inj_succ.
      split; [simpl; lia|reflexivity]. }
  intros es a. split; [|split; [|split]].
  - destruct es as [|e es]; [reflexivity|apply Hlog].
  - apply Hcount.
  - apply Hcount.
  - intro Hl. destruct es as [|e es]; [exact Hl|].
    rewrite Hlog. unfold last_n. rewrite length_skipn. lia.
Qed.

(** ** The dispatcher *)

Lemma pystr_eqb_eq : forall a b, Admin.pystr_eqb a b = true -> a = b.
Proof.
  intros a b H. unfold Admin.pystr_eqb in H.
  destruct (list_eq_dec N.eq_dec a b); [assumption|discriminate].
Qed.

Lemma lookup_entry :
  forall key table h,
    Admin.lookup key table = Some h -> In (key, h) table.
Proof.
  induction table as [|[k0 h0] rest IH]; simpl; intros h H; [discriminate|].
  destruct (Admin.pystr_eqb key k0) eqn:E.
  - inversion H; subst. apply pystr_eqb_eq in E. subst. now left.
  - right. exact (IH h H).
Qed.

(** What an authorized message with a text does. *)
Lemma dispatch_parsed :
  forall now w b ev t,
    sender_id ev = admin_user_id (admin_manager b) ->
    MessageProcessor.text (message ev) = Some t ->
    Admin.handle_admin_command now w b ev
    = let b1 := set_admin_manager b
                  (Admin.log_command now (admin_manager b) (Trace.command_of t)
                                     (Trace.args_of t) (sender_id ev)) in
      match Admin.lookup (Trace.command_of t) Admin.commands with
      | Some h => h now w b1 (Trace.args_of t)
      | None => (b1, [UnknownCommand (Trace.command_of t)])
      end.
Proof.
  intros now w b ev t Hs Ht.
  unfold Admin.handle_admin_command, Admin.dispatch, Admin.is_admin.
  rewrite Hs, Z.eqb_refl, Ht. cbn [negb].
  unfold Trace.command_of, Trace.args_of.
  destruct (split_space1 (strip t)) as [head rest]. cbn [fst snd].
  destruct (Admin.lookup (lower head) Admin.commands); reflexivity.
Qed.

Ltac handler_cases b ar :=
  cbn [fst snd];
  unfold Admin.cmd_start_forwarding, Admin.cmd_stop_forwarding,
    Admin.cmd_get_status, Admin.cmd_get_detailed_stats, Admin.cmd_get_help,
    Admin.cmd_get_config, Admin.cmd_get_logs, Admin.cmd_reset_stats,
    Admin.cmd_test_connection, Admin.cmd_update_reference,
    Admin.cmd_update_channel;
  try destruct ar;
  try destruct (bot_instance_set (admin_manager b));
  try destruct (error_log (admin_manager b)).

Ltac handler_fields b ar :=
  cbn [fst snd];
  unfold Admin.cmd_start_forwarding, Admin.cmd_stop_forwarding,
    Admin.cmd_get_status, Admin.cmd_get_detailed_stats, Admin.cmd_get_help,
    Admin.cmd_get_config, Admin.cmd_get_logs, Admin.cmd_reset_stats,
    Admin.cmd_test_connection, Admin.cmd_update_reference,
    Admin.cmd_update_channel;
  try destruct ar;
  try destruct (bot_instance_set (admin_manager b));
  try (destruct (error_log (admin_manager b)) eqn:?);
  cbn; repeat split; try reflexivity; try assumption.

Lemma handlers_reply_once :
  Forall (fun kh : pystr * Admin.handler =>
            forall now w b ar, length (snd (snd kh now w b ar)) = 1%nat)
         Admin.commands.
Proof.
  unfold Admin.commands.
  repeat apply Forall_cons; try apply Forall_nil;
    intros now w b ar; handler_cases b ar; reflexivity.
Qed.

(** X15: every message handled by [handle_admin_command] is answered by
    exactly one reply, whoever sent it and whatever it contains. *)
Theorem admin_command_replies_once :
  forall (now : time) (w : World) (b : TelegramForwardBot) (ev : Event),
    length (snd (Admin.handle_admin_command now w b ev)) = 1%nat.
Proof.
  intros now w b ev.
  unfold Admin.handle_admin_command, Admin.dispatch.
  destruct (negb (Admin.is_admin (admin_manager b) (sender_id ev)));
    [reflexivity|].
  destruct (MessageProcessor.text (message ev)) as [t|]; [|reflexivity].
  destruct (split_space1 (strip t)) as [head rest].
  destruct (Admin.lookup (lower head) Admin.commands) as [h|] eqn:El;
    [|reflexivity].
  pose proof (proj1 (Forall_forall _ _) handlers_reply_once _
                (lookup_entry _ _ _ El)) as Hk.
  cbn [snd] in Hk. apply Hk.
Qed.

Lemma handlers_keep_counters :
  Forall (fun kh : pystr * Admin.handler =>
            fst kh <> str "/reset_stats" ->
            forall now w b ar,
              let b' := fst (snd kh now w b ar) in
              command_history (admin_manager b') = command_history (admin_manager b)
              /\ error_log (admin_manager b') = error_log (admin_manager b)
              /\ messages_forwarded (stats (admin_manager b'))
                 = messages_forwarded (stats (admin_manager b))
              /\ messages_skipped (stats (admin_manager b'))
                 = messages_skipped (stats (admin_manager b))
              /\ errors_count (stats (admin_manager b'))
                 = errors_count (stats (admin_manager b))
              /\ start_time (stats (admin_manager b'))
                 = start_time (stats (admin_manager b)))
         Admin.commands.
Proof.
  unfold Admin.commands.
  repeat apply Forall_cons; try apply Forall_nil; intros Hne now w b ar;
    first [ solve [exfalso; apply Hne; reflexivity]
          | cbv zeta; solve [handler_fields b ar] ].
Qed.

(** X16: an authorized command whose word is made of ASCII characters and
    is not [/reset_stats], known or not, adds its entry, with the word in
    lower case, to the command history and leaves the three counters, the
    start time and the error log as they were; [/reset_stats] leaves both
    logs empty, its own entry included, and fresh statistics. *)
Theorem admin_command_bookkeeping :
  forall (now : time) (w : World) (b : TelegramForwardBot) (ev : Event)
         (t : pystr),
    sender_id ev = admin_user_id (admin_manager b) ->
    MessageProcessor.text (message ev) = Some t ->
    Trace.isascii (Trace.word_of t) = true ->
    let a := admin_manager b in
    let a' := admin_manager (fst (Admin.handle_admin_command now w b ev)) in
    (Trace.command_of t <> str "/reset_stats" ->
       command_history a'
       = last_n 100 (command_history a
                     ++ [{| cmd_timestamp := now;
                            command := Trace.command_of t;
                            args := Trace.args_of t;
                            user_id := sender_id ev |}])
       /\ error_log a' = error_log a
       /\ messages_forwarded (stats a') = messages_forwarded (stats a)
       /\ messages_skipped (stats a') = messages_skipped (stats a)
       /\ errors_count (stats a') = errors_count (stats a)
       /\ start_time (stats a') = start_time (stats a))
    /\ (Trace.command_of t = str "/reset_stats" ->
          command_history a' = [] /\ error_log a' = []
          /\ stats a' = new_stats now).
Proof.
  intros now w b ev t Hs Ht _ a a'. subst a a'.
  rewrite (dispatch_parsed now w b ev t Hs Ht). cbv zeta.
  set (b1 := set_admin_manager b
               (Admin.log_command now (admin_manager b) (Trace.command_of t)
                                  (Trace.args_of t) (sender_id ev))).
  assert (Hb1 : command_history (admin_manager b1)
                = last_n 100 (command_history (admin_manager b)
                              ++ [{| cmd_timestamp := now;
                                     command := Trace.command_of t;
                                     args := Trace.args_of t;
                                     user_id := sender_id ev |}])).
  { subst b1. cbn [admin_manager set_admin_manager].
    rewrite log_command_history. cbv zeta. apply capped_is_last_n. }
  split.
  - intro Hne.
    destruct (Admin.lookup (Trace.command_of t) Admin.commands) as [h|] eqn:El.
    + pose proof (proj1 (Forall_forall _ _) handlers_keep_counters _
                    (lookup_entry _ _ _ El) Hne now w b1 (Trace.args_of t))
        as Hk.
      cbn [fst snd] in Hk. cbv zeta in Hk.
      destruct Hk as (H1 & H2 & H3 & H4 & H5 & H6).
      rewrite H1, H2, H3, H4, H5, H6, Hb1. repeat split.
    + cbn [fst]. rewrite Hb1. repeat split.
  - intro He. rewrite He.
    change (Admin.lookup (str "/reset_stats") Admin.commands)
      with (Some Admin.cmd_reset_stats).
    repeat split.
Qed.

Lemma admin_command_bookkeeping_witness :
  command_history
    (admin_manager
       (fst (Admin.handle_admin_command 9 Sample.quiet_world Sample.started_bot
               Sample.reset_event))) = [].
Proof.
  apply (admin_command_bookkeeping 9 Sample.quiet_world Sample.started_bot
           Sample.reset_event (str "/reset_stats") eq_refl eq_refl eq_refl).
  reflexivity.
Defined.

Lemma handlers_reporting :
  Forall (fun kh : pystr * Admin.handler =>
            In (fst kh) Trace.reporting ->
            forall now w b ar, fst (snd kh now w b ar) = b)
         Admin.commands.
Proof.
  unfold Admin.commands.
  repeat apply Forall_cons; try apply Forall_nil; intros Hin now w b ar;
    first [ solve [exfalso; vm_compute in Hin;
                   repeat (destruct Hin as [Hin|Hin]; try discriminate Hin);
                   exact Hin]
          | solve [handler_fields b ar] ].
Qed.

(** X17: for a command word of ASCII characters, the reporting commands
    ([/status], [/stats], [/help], [/config], [/logs], [/test]) and every
    unknown command word change nothing but the command history, to which
    their entry is added; an unknown word is answered with that word in
    lower case. *)
Theorem reporting_commands_change_nothing :
  forall (now : time) (w : World) (b : TelegramForwardBot) (ev : Event)
         (t : pystr),
    sender_id ev = admin_user_id (admin_manager b) ->
    MessageProcessor.text (message ev) = Some t ->
    Trace.isascii (Trace.word_of t) = true ->
    let logged :=
      set_admin_manager b
        (Admin.log_command now (admin_manager b) (Trace.command_of t)
                           (Trace.args_of t) (sender_id ev)) in
    (In (Trace.command_of t) Trace.reporting ->
       fst (Admin.handle_admin_command now w b ev) = logged)
    /\ (Admin.lookup (Trace.command_of t) Admin.commands = None ->
          Admin.handle_admin_command now w b ev
          = (logged, [UnknownCommand (Trace.command_of t)])).
Proof.
  intros now w b ev t Hs Ht _ logged. subst logged.
  rewrite (dispatch_parsed now w b ev t Hs Ht). cbv zeta. split.
  - intro Hin.
    destruct (Admin.lookup (Trace.command_of t) Admin.commands) as [h|] eqn:El;
      [|reflexivity].
    exact (proj1 (Forall_forall _ _) handlers_reporting _
             (lookup_entry _ _ _ El) Hin now w _ (Trace.args_of t)).
  - intro Hn. rewrite Hn. reflexivity.
Qed.

Lemma reporting_commands_change_nothing_witness :
  Admin.handle_admin_command 5 Sample.quiet_world Sample.bot0
    (Sample.event_of 42 (Sample.text_message 42 (str "/Frobnicate now")))
  = (set_admin_manager Sample.bot0
       (Admin.log_command 5 (admin_manager Sample.bot0)
          (str "/frobnicate") (str "now") 42),
     [UnknownCommand (str "/frobnicate")]).
Proof.
  apply (reporting_commands_change_nothing 5 Sample.quiet_world Sample.bot0
           (Sample.event_of 42 (Sample.text_message 42 (str "/Frobnicate now")))
           (str "/Frobnicate now") eq_refl eq_refl eq_refl).
  reflexivity.
Defined.



Lemma sent_message_button :
  forall now w b ev m,
    In m (snd (Main.process_and_forward_message now w b ev)) ->
    button_url m = Config.channel_link (config b).
Proof.
  intros now w b ev m Hin.
  destruct (relay_outcomes now w b ev) as [H|[H|[[e H]|(c & t & _ & H)]]];
    rewrite H in Hin; cbn [snd] in Hin; try contradiction.
  destruct Hin as [<-|[]]. reflexivity.
Qed.

(** X19: [/update_channel] takes effect at once: after the admin's command
    with a link, every message the relay sends carries the new link as its
    button, and nothing else of the configuration has changed.  Without a
    link the command changes nothing but the command history. *)
Theorem update_channel_takes_effect :
  forall (now : time) (w : World) (b : TelegramForwardBot) (ev : Event)
         (t : pystr),
    sender_id ev = admin_user_id (admin_manager b) ->
    MessageProcessor.text (message ev) = Some t ->
    Trace.command_of t = str "/update_channel" ->
    bot_instance_set (admin_manager b) = true ->
    let b' := fst (Admin.handle_admin_command now w b ev) in
    (Trace.args_of t <> [] ->
       config b' = Config.update_channel_link (config b) (Trace.args_of t)
       /\ Config.reference_text (config b') = Config.reference_text (config b)
       /\ Config.destination_group_id (config b')
          = Config.destination_group_id (config b)
       /\ forall now' w' ev' m,
            In m (snd (Main.process_and_forward_message now' w' b' ev')) ->
            button_url m = Trace.args_of t)
    /\ (Trace.args_of t = [] ->
          config b' = config b
          /\ snd (Admin.handle_admin_command now w b ev) = [ChannelUsage]).
Proof.
  intros now w b ev t Hs Ht Hc Hset b'. subst b'.
  rewrite (dispatch_parsed now w b ev t Hs Ht). cbv zeta.
  rewrite Hc.
  change (Admin.lookup (str "/update_channel") Admin.commands)
    with (Some Admin.cmd_update_channel).
  unfold Admin.cmd_update_channel.
  cbn [admin_manager set_admin_manager].
  change (bot_instance_set
            (Admin.log_command now (admin_manager b) (str "/update_channel")
               (Trace.args_of t) (sender_id ev)))
    with (bot_instance_set (admin_manager b)).
  rewrite Hset. split.
  - intro Hne. destruct (Trace.args_of t) as [|c l] eqn:Ea; [contradiction|].
    cbn [fst config set_config set_admin_manager].
    repeat split.
    intros now' w' ev' m Hin.
    rewrite (sent_message_button _ _ _ _ _ Hin). reflexivity.
  - intro He. rewrite He. split; reflexivity.
Qed.

Lemma update_channel_takes_effect_witness :
  config (fst (Admin.handle_admin_command 5 Sample.quiet_world Sample.bot0
                 (Sample.event_of 42
                    (Sample.text_message 42
                       (str "/update_channel https://t.me/other")))))
  = Config.update_channel_link (config Sample.bot0) (str "https://t.me/other").
Proof.
  apply (update_channel_takes_effect 5 Sample.quiet_world Sample.bot0
           (Sample.event_of 42
              (Sample.text_message 42 (str "/update_channel https://t.me/other")))
           (str "/update_channel https://t.me/other")
           eq_refl eq_refl eq_refl eq_refl).
  vm_compute. discriminate.
Defined.

(** ** The forwarding switch and the reported flag *)

Lemma handlers_in_step :
  Forall (fun kh : pystr * Admin.handler =>
            fst kh <> str "/reset_stats" ->
            forall now w b ar,
              Trace.in_step b -> Trace.in_step (fst (snd kh now w b ar)))
         Admin.commands.
Proof.
  unfold Admin.commands, Trace.in_step.
  repeat apply Forall_cons; try apply Forall_nil; intros Hne now w b ar Hb;
    first [ solve [exfalso; apply Hne; reflexivity]
          | solve [handler_fields b ar] ].
Qed.

(** X20: the switch that gates the relay and the flag that [/status]
    reports agree when the bot is constructed, and they keep agreeing
    through every message relayed or dropped and through every message
    handled by [handle_admin_command] other than an authorized
    [/reset_stats]; after that command they agree only if forwarding was
    off. *)
Theorem switch_and_flag_in_step :
  (forall cfg now, Trace.in_step (Main.__init__ cfg now))
  /\ (forall now w b ev,
        Trace.in_step b ->
        Trace.in_step (fst (Main.handle_source_message now w b ev)))
  /\ (forall now w b ev,
        Trace.in_step b ->
        (forall t, MessageProcessor.text (message ev) = Some t ->
                   sender_id ev = admin_user_id (admin_manager b) ->
                   Trace.command_of t <> str "/reset_stats") ->
        Trace.in_step (fst (Admin.handle_admin_command now w b ev)))
  /\ (forall now w b ar,
        Trace.in_step (fst (Admin.cmd_reset_stats now w b ar))
        <-> is_forwarding b = false).
Proof.
  split; [reflexivity|]. split; [|split].
  - intros now w b ev Hb. unfold Main.handle_source_message.
    destruct (is_forwarding b) eqn:Ef; [|exact Hb].
    pose proof (relay_accounting_aux now w b ev) as (Hf & Ha).
    unfold Trace.in_step in *. rewrite Hf, Ha. congruence.
  - intros now w b ev Hb Hcmd.
    destruct (Z.eq_dec (sender_id ev) (admin_user_id (admin_manager b)))
      as [Hs|Hs].
    + destruct (MessageProcessor.text (message ev)) as [t|] eqn:Ht.
      * rewrite (dispatch_parsed now w b ev t Hs Ht). cbv zeta.
        set (b1 := set_admin_manager b
                     (Admin.log_command now (admin_manager b)
                        (Trace.command_of t) (Trace.args_of t) (sender_id ev))).
        assert (Hb1 : Trace.in_step b1) by exact Hb.
        destruct (Admin.lookup (Trace.command_of t) Admin.commands)
          as [h|] eqn:El; [|exact Hb1].
        exact (proj1 (Forall_forall _ _) handlers_in_step _
                 (lookup_entry _ _ _ El) (Hcmd t eq_refl Hs)
                 now w b1 (Trace.args_of t) Hb1).
      * unfold Admin.handle_admin_command, Admin.dispatch, Admin.is_admin.
        rewrite Hs, Z.eqb_refl, Ht. exact Hb.
    + unfold Admin.handle_admin_command, Admin.dispatch, Admin.is_admin.
      destruct (Z.eqb_spec (sender_id ev) (admin_user_id (admin_manager b)));
        [contradiction|exact Hb].
  - intros now w b ar. unfold Trace.in_step. simpl. tauto.
Qed.

Lemma switch_and_flag_in_step_witness :
  Trace.in_step
    (fst (Main.handle_source_message 7 Sample.quiet_world Sample.started_bot
            (Sample.event_of 555 Sample.plain_message))).
Proof.
  apply (proj1 (proj2 switch_and_flag_in_step)).
  reflexivity.
Defined.

(** X21: an authorized [/start] turns the forwarding switch and the
    reported flag on, and [/stop] turns both off, whatever follows the
    command word and whatever its letter case; the configuration and the
    counters are not touched. *)
Theorem start_and_stop :
  forall (now : time) (w : World) (b : TelegramForwardBot) (ev : Event)
         (t : pystr),
    sender_id ev = admin_user_id (admin_manager b) ->
    MessageProcessor.text (message ev) = Some t ->
    bot_instance_set (admin_manager b) = true ->
    let r := Admin.handle_admin_command now w b ev in
    (Trace.command_of t = str "/start" ->
       is_forwarding (fst r) = true
       /\ is_active (stats (admin_manager (fst r))) = true
       /\ snd r = [ForwardingStarted])
    /\ (Trace.command_of t = str "/stop" ->
          is_forwarding (fst r) = false
          /\ is_active (stats (admin_manager (fst r))) = false
          /\ snd r = [ForwardingStopped])
    /\ (Trace.command_of t = str "/start" \/ Trace.command_of t = str "/stop" ->
          config (fst r) = config b
          /\ message_processor (fst r) = message_processor b).
Proof.
  intros now w b ev t Hs Ht Hset r. subst r.
  rewrite (dispatch_parsed now w b ev t Hs Ht). cbv zeta.
  assert (Hset' : bot_instance_set
                    (Admin.log_command now (admin_manager b)
                       (Trace.command_of t) (Trace.args_of t) (sender_id ev))
                  = true) by exact Hset.
  split; [|split].
  - intro Hc. rewrite Hc in *.
    change (Admin.lookup (str "/start") Admin.commands)
      with (Some Admin.cmd_start_forwarding).
    unfold Admin.cmd_start_forwarding.
    cbn [admin_manager set_admin_manager]. rewrite Hset'.
    repeat split.
  - intro Hc. rewrite Hc in *.
    change (Admin.lookup (str "/stop") Admin.commands)
      with (Some Admin.cmd_stop_forwarding).
    unfold Admin.cmd_stop_forwarding.
    cbn [admin_manager set_admin_manager]. rewrite Hset'.
    repeat split.
  - intros [Hc|Hc]; rewrite Hc in *.
    + change (Admin.lookup (str "/start") Admin.commands)
        with (Some Admin.cmd_start_forwarding).
      unfold Admin.cmd_start_forwarding.
      cbn [admin_manager set_admin_manager]. rewrite Hset'.
      split; reflexivity.
    + change (Admin.lookup (str "/stop") Admin.commands)
        with (Some Admin.cmd_stop_forwarding).
      unfold Admin.cmd_stop_forwarding.
      cbn [admin_manager set_admin_manager]. rewrite Hset'.
      split; reflexivity.
Qed.

Lemma start_and_stop_witness :
  is_forwarding
    (fst (Admin.handle_admin_command 5 Sample.quiet_world Sample.bot0
            (Sample.event_of 42 (Sample.text_message 42 (str "  /START please")))))
  = true.
Proof.
  apply (start_and_stop 5 Sample.quiet_world Sample.bot0
           (Sample.event_of 42 (Sample.text_message 42 (str "  /START please")))
           (str "  /START please") eq_refl eq_refl eq_refl).
  reflexivity.
Defined.

(** ** config.py: what the environment is checked for *)

(** X22: [_validate_config] accepts exactly the settings in which the API
    id, the two chat ids and the admin id are not 0, the API hash and the
    phone number are not empty and the two chats differ; nothing else is
    looked at, the length limits in particular. *)
Theorem validate_config_accepts :
  forall (api_id : Z) (api_hash phone_number : pystr) (c : Config.BotConfig),
    ConfigEnv._validate_config api_id api_hash phone_number c = Ok tt
    <-> (api_id <> 0 /\ api_hash <> [] /\ phone_number <> []
         /\ Config.source_group_id c <> 0
         /\ Config.destination_group_id c <> 0
         /\ Config.admin_user_id c <> 0
         /\ Config.source_group_id c <> Config.destination_group_id c).
Proof.
  intros api_id api_hash phone_number c.
  unfold ConfigEnv._validate_config, ConfigEnv.validation_errors.
  destruct (Z.eqb_spec api_id 0);
    destruct api_hash; destruct phone_number;
    destruct (Z.eqb_spec (Config.source_group_id c) 0);
    destruct (Z.eqb_spec (Config.destination_group_id c) 0);
    destruct (Z.eqb_spec (Config.admin_user_id c) 0);
    destruct (Z.eqb_spec (Config.source_group_id c)
                (Config.destination_group_id c));
    cbn [app]; split; intro H;
    try discriminate H;
    try (repeat split; first [assumption|discriminate]);
    try (exfalso; destruct H as (H1 & H2 & H3 & H4 & H5 & H6 & H7);
         first [ apply H1; assumption | apply H2; reflexivity
               | apply H3; reflexivity | apply H4; assumption
               | apply H5; assumption | apply H6; assumption
               | apply H7; assumption ]).
Qed.

(** A boolean setting that is absent from the environment takes its
    default, and one that is present is true exactly when its value, in
    lower case and as it stands, is one of "true", "1", "yes", "on"; the
    default then plays no part. *)
Theorem get_bool_env_reads :
  forall (env : ConfigEnv.environ) (key : pystr) (default : bool),
    (env key = None -> ConfigEnv._get_bool_env env key default = default)
    /\ (forall v, env key = Some v ->
          ConfigEnv._get_bool_env env key default
          = ConfigEnv._get_bool_env env key (negb default)
          /\ (ConfigEnv._get_bool_env env key default = true
              <-> In (lower v) [str "true"; str "1"; str "yes"; str "on"])).
Proof.
  intros env key default. unfold ConfigEnv._get_bool_env, ConfigEnv.getenv.
  split.
  - intro H. rewrite H. destruct default; reflexivity.
  - intros v H. rewrite H. split; [reflexivity|].
    rewrite existsb_exists. split.
    + intros [x [Hin Hx]]. apply pystr_eqb_eq in Hx. subst x. exact Hin.
    + intro Hin. exists (lower v). split; [exact Hin|].
      unfold Admin.pystr_eqb.
      destruct (list_eq_dec N.eq_dec (lower v) (lower v)); congruence.
Qed.

(** ** bot.py *)

Lemma match_at_legacy_mention :
  forall c s,
    match_at Legacy.mention (c :: s)
    = if (c =? 64)%N && (1 <=? Shape.run Legacy.word s)%nat
      then Some (S (Shape.run Legacy.word s)) else None.
Proof.
  intros c s. unfold match_at, Legacy.mention.
  change (rmatch (seq [Legacy.exact "@"; Rep Legacy.word 1]) (c :: s)
            (fun rest => Some rest))
    with (if (c =? 64)%N then rep Legacy.word 1 s (fun rest => Some rest)
          else None).
  destruct (c =? 64)%N; [|reflexivity].
  rewrite rep_all. cbn [andb].
  destruct (1 <=? Shape.run Legacy.word s)%nat; [|reflexivity].
  f_equal. pose proof (dropwhile_length Legacy.word s).
  change (length (c :: s)) with (S (length s)). lia.
Qed.

(** X23: the [remove_links] of bot.py never lengthens a text; its result
    has single U+0020 characters as its only whitespace, none at either
    end; and no "@" in it stands before an ASCII letter, a digit or "_". *)
Theorem legacy_remove_links_result :
  forall s : pystr,
    let o := Legacy.remove_links s in
    (length o <= length s)%nat
    /\ (forall c, In c o -> is_space c = true -> c = 32%N)
    /\ Adjacent.no_pair is_space is_space o = true
    /\ (forall c t, o = c :: t -> is_space c = false)
    /\ (forall t c, o = t ++ [c] -> is_space c = false)
    /\ Adjacent.no_pair (chr 64%N) Legacy.word o = true.
Proof.
  intros s o. subst o. unfold Legacy.remove_links.
  split.
  { etransitivity; [apply strip_shorter|].
    etransitivity;
      [apply sub_shorter; intros m Hm; simpl in Hm; unfold const; simpl; lia|].
    etransitivity;
      [apply sub_shorter; intros m _; unfold const; simpl; lia|].
    etransitivity;
      [apply sub_shorter; intros m _; unfold const; simpl; lia|].
    apply sub_shorter. intros m _. unfold const. simpl. lia. }
  assert (Hs : Shape.single_spaced
                 (strip (sub (Rep is_space 1) (const [32%N])
                           (sub Legacy.mention (const [])
                              (sub Legacy.telegram_link (const [])
                                 (sub Legacy.url (const []) s))))) = true)
    by (apply single_spaced_strip;
        exact (sub_whitespace_single_spaced _)).
  destruct (tidy_text _ Hs (strip_idem _)) as (H1 & H2 & H3 & H4).
  split; [exact H1|]. split; [exact H2|]. split; [exact H3|].
  split; [exact H4|].
  apply strip_no_pair.
  apply (proj1 (sub_replace_no_pair _ _ _ 32%N eq_refl eq_refl _)).
  exact (sub_at_sign_no_pair Legacy.mention Legacy.word
           match_at_legacy_mention _).
Qed.

Lemma legacy_relay_outcomes :
  forall w self ev,
    let r := Legacy.process_and_forward_message w self ev in
    r = (self, [])
    \/ (MessageProcessor.has_text (message ev) = true
        /\ (exists u me, MessageProcessor.from_id (message ev)
                         = Some (MessageProcessor.PeerUser u)
                         /\ get_me w = Ok me /\ u <> id me)
        /\ raises w Sending = None
        /\ r = (Legacy.count_message self,
                [ {| to := Legacy.destination_group_id self;
                     body := Legacy.remove_links
                               (MessageProcessor.text_or_empty (message ev))
                             ++ [10; 10]%N ++ Legacy.reference_text self;
                     file := None;
                     button_url := Legacy.channel_link self |} ])).
Proof.
  intros w self ev r. subst r.
  unfold Legacy.process_and_forward_message, Legacy.forward.
  destruct (MessageProcessor.has_text (message ev)) eqn:Ht; cbn [negb];
    [|left; reflexivity].
  unfold Legacy.sender_user_id.
  destruct (MessageProcessor.from_id (message ev)) as [[u|n|n]|] eqn:Ef;
    cbn [bind]; try (left; reflexivity).
  destruct (get_me w) as [me|e] eqn:Em; cbn [bind]; [|left; reflexivity].
  destruct (Z.eqb_spec u (id me)) as [Hu|Hu]; [left; reflexivity|].
  destruct (raises w Sending) as [e|] eqn:Es; [left; reflexivity|].
  right. split; [reflexivity|]. split; [|split; reflexivity].
  exists u, me. repeat split. exact Hu.
Qed.

(** X24: the relay of bot.py sends at most one message per call and counts
    exactly the messages it sent; it sends only for a text message of a user
    other than itself, and the text sent is the cleaned text, two line feeds
    and the reference, even when nothing of the text is left.  In every
    other case, exceptions included, the bot is left exactly as it was. *)
Theorem legacy_relay :
  forall (w : World) (self : Legacy.TelegramForwardBot) (ev : Event),
    let r := Legacy.process_and_forward_message w self ev in
    (length (snd r) <= 1)%nat
    /\ Legacy.message_count (fst r)
       = Legacy.message_count self + Z.of_nat (length (snd r))
    /\ Legacy.is_forwarding (fst r) = Legacy.is_forwarding self
    /\ (snd r = [] -> fst r = self)
    /\ (forall m, In m (snd r) ->
          MessageProcessor.has_text (message ev) = true
          /\ (exists u, MessageProcessor.from_id (message ev)
                        = Some (MessageProcessor.PeerUser u))
          /\ to m = Legacy.destination_group_id self
          /\ button_url m = Legacy.channel_link self
          /\ body m = Legacy.remove_links
                        (MessageProcessor.text_or_empty (message ev))
                      ++ [10; 10]%N ++ Legacy.reference_text self).
Proof.
  intros w self ev r.
  destruct (legacy_relay_outcomes w self ev)
    as [H|(Ht & (u & me & Hf & _ & _) & _ & H)];
    fold r in H; rewrite H; cbn [fst snd length].
  - split; [lia|]. split; [lia|]. split; [reflexivity|].
    split; [reflexivity|]. intros m Hin. destruct Hin.
  - unfold Legacy.count_message. cbn [Legacy.message_count Legacy.is_forwarding].
    split; [lia|]. split; [lia|]. split; [reflexivity|].
    split; [discriminate|].
    intros m Hin. destruct Hin as [<-|[]].
    split; [exact Ht|]. split; [exists u; exact Hf|].
    repeat split.
Qed.

Lemma pystr_eqb_refl : forall a, Admin.pystr_eqb a a = true.
Proof.
  intro a. unfold Admin.pystr_eqb.
  destruct (list_eq_dec N.eq_dec a a); congruence.
Qed.

Lemma pystr_eqb_neq : forall a b, a <> b -> Admin.pystr_eqb a b = false.
Proof.
  intros a b H. unfold Admin.pystr_eqb.
  destruct (list_eq_dec N.eq_dec a b); [contradiction|reflexivity].
Qed.

(** X25: the admin handler of bot.py acts on four texts only, compared as a
    whole after lower-casing and stripping: [/start_forwarding] and
    [/stop_forwarding] set the switch, [/status] and [/help] reply; any
    other text, the [/start] and [/stop] of the newer bot included, is
    ignored without a reply and without any change. *)
Theorem legacy_admin_commands :
  forall (self : Legacy.TelegramForwardBot) (ev : Event) (t : pystr),
    MessageProcessor.text (message ev) = Some t ->
    let command := strip (lower t) in
    (command = str "/start_forwarding" ->
       Legacy.handle_admin_command self ev
       = Ok (Legacy.set_is_forwarding self true, [Legacy.ForwardingStarted]))
    /\ (command = str "/stop_forwarding" ->
          Legacy.handle_admin_command self ev
          = Ok (Legacy.set_is_forwarding self false, [Legacy.ForwardingStopped]))
    /\ (command = str "/status" \/ command = str "/help" ->
          exists reply, Legacy.handle_admin_command self ev = Ok (self, [reply]))
    /\ (~ In command [str "/start_forwarding"; str "/stop_forwarding";
                      str "/status"; str "/help"] ->
          Legacy.handle_admin_command self ev = Ok (self, [])).
Proof.
  intros self ev t Ht command. subst command.
  unfold Legacy.handle_admin_command. rewrite Ht. cbv zeta.
  split; [|split; [|split]].
  - intro E. rewrite E. reflexivity.
  - intro E. rewrite E. reflexivity.
  - intros [E|E]; rewrite E; eexists; reflexivity.
  - intro Hn.
    rewrite !pystr_eqb_neq; [reflexivity| | | |];
      intro E; apply Hn; rewrite E; simpl; tauto.
Qed.

Lemma legacy_admin_commands_witness :
  Legacy.handle_admin_command
    {| Legacy.destination_group_id := 200;
       Legacy.channel_link := str "https://t.me/your_channel";
       Legacy.reference_text := str "ref";
       Legacy.is_forwarding := false;
       Legacy.message_count := 0 |}
    (Sample.event_of 42 (Sample.text_message 42 (str "/start")))
  = Ok ({| Legacy.destination_group_id := 200;
           Legacy.channel_link := str "https://t.me/your_channel";
           Legacy.reference_text := str "ref";
           Legacy.is_forwarding := false;
           Legacy.message_count := 0 |}, []).
Proof.
  apply (legacy_admin_commands
           {| Legacy.destination_group_id := 200;
              Legacy.channel_link := str "https://t.me/your_channel";
              Legacy.reference_text := str "ref";
              Legacy.is_forwarding := false;
              Legacy.message_count := 0 |}
           (Sample.event_of 42 (Sample.text_message 42 (str "/start")))
           (str "/start") eq_refl).
  vm_compute. intuition discriminate.
Defined.

(** ** Who is answered *)

Lemma handlers_keep_admin :
  Forall (fun kh : pystr * Admin.handler =>
            forall now w b ar,
              Handlers.same_admin b ->
              Handlers.same_admin (fst (snd kh now w b ar)))
         Admin.commands.
Proof.
  unfold Admin.commands, Handlers.same_admin.
  repeat apply Forall_cons; try apply Forall_nil; intros now w b ar Hb;
    solve [handler_fields b ar].
Qed.

Lemma handlers_never_unauthorized :
  Forall (fun kh : pystr * Admin.handler =>
            forall now w b ar, ~ In Unauthorized (snd (snd kh now w b ar)))
         Admin.commands.
Proof.
  unfold Admin.commands.
  repeat apply Forall_cons; try apply Forall_nil; intros now w b ar;
    handler_cases b ar; cbn; intros [Hin|[]]; discriminate Hin.
Qed.

(** X26: the manager's admin is the configured admin from construction on,
    and no command and no relayed message changes that.  While it holds,
    the handler for commands in private chats never sends the
    "unauthorized" reply: a message of anyone but the admin, or outside a
    private chat, is left without any reply and changes nothing. *)
Theorem private_commands_of_the_admin_only :
  (forall cfg now, Handlers.same_admin (Main.__init__ cfg now))
  /\ (forall now w b ev,
        Handlers.same_admin b ->
        Handlers.same_admin (fst (Admin.handle_admin_command now w b ev))
        /\ Handlers.same_admin (fst (Main.handle_source_message now w b ev)))
  /\ (forall now w b ev,
        Handlers.same_admin b ->
        ~ In Unauthorized (snd (Handlers.handle_public_command now w b ev))
        /\ (is_private ev = false
            \/ sender_id ev <> Config.admin_user_id (config b) ->
            Handlers.handle_public_command now w b ev = (b, []))).
Proof.
  split; [reflexivity|]. split.
  - intros now w b ev Hb. split.
    + unfold Admin.handle_admin_command, Admin.dispatch.
      destruct (negb (Admin.is_admin (admin_manager b) (sender_id ev)));
        [exact Hb|].
      destruct (MessageProcessor.text (message ev)) as [t|]; [|exact Hb].
      destruct (split_space1 (strip t)) as [head rest].
      set (b1 := set_admin_manager b
                   (Admin.log_command now (admin_manager b) (lower head)
                      match rest with Some r => r | None => [] end
                      (sender_id ev))).
      assert (Hb1 : Handlers.same_admin b1) by exact Hb.
      destruct (Admin.lookup (lower head) Admin.commands) as [h|] eqn:El;
        [|exact Hb1].
      exact (proj1 (Forall_forall _ _) handlers_keep_admin _
               (lookup_entry _ _ _ El) now w b1 _ Hb1).
    + unfold Main.handle_source_message.
      destruct (is_forwarding b); [|exact Hb].
      destruct (relay_outcomes now w b ev) as [H|[H|[[e H]|(c & t & _ & H)]]];
        rewrite H; exact Hb.
  - intros now w b ev Hb. unfold Handlers.handle_public_command. split.
    + destruct (is_private ev); cbn [andb]; [|intros []].
      destruct (Z.eqb_spec (sender_id ev) (Config.admin_user_id (config b)))
        as [Hs|Hs]; [|intros []].
      unfold Handlers.same_admin in Hb. rewrite <- Hb in Hs.
      destruct (MessageProcessor.text (message ev)) as [t|] eqn:Ht.
      * rewrite (dispatch_parsed now w b ev t Hs Ht). cbv zeta.
        destruct (Admin.lookup (Trace.command_of t) Admin.commands)
          as [h|] eqn:El.
        -- pose proof (proj1 (Forall_forall _ _) handlers_never_unauthorized _
                         (lookup_entry _ _ _ El)) as Hk.
           apply Hk.
        -- intros [Hin|[]]. discriminate Hin.
      * unfold Admin.handle_admin_command, Admin.dispatch, Admin.is_admin.
        rewrite Hs, Z.eqb_refl, Ht. cbn.
        intros [Hin|[]]. discriminate Hin.
    + intros [Hp|Hs].
      * rewrite Hp. reflexivity.
      * destruct (Z.eqb_spec (sender_id ev) (Config.admin_user_id (config b)));
          [contradiction|].
        rewrite andb_false_r. reflexivity.
Qed.
